(** * Aircraft landing problem: the evaluator, the greedy constructor and the
      instance loader of [aircraft_landing_problem.py], embedded in Rocq.

    Python integers are [Z]; Python lists are [list]; a raised exception is
    the [Raise] case of the [result] monad.  The two cost rates of a plane and
    the accumulated cost are Python floats: the embedding is written over a
    [Numeric] structure, whose instance [binary64] is IEEE 754 double
    precision with round-to-nearest-even, the arithmetic the interpreter
    performs, [OverflowError] of the int-to-float conversion included. *)

From Stdlib Require Import ZArith List Bool Lia Permutation Sorted.
From Stdlib Require Import Ascii String.
From Stdlib Require Import Floats.SpecFloat.
Import ListNotations.

Local Open Scope Z_scope.

(** ** Exceptions and early returns *)

Inductive exn : Type :=
| IndexError
| OverflowError
| StopIteration
| ValueError.

Inductive result (A : Type) : Type :=
| Ok (a : A)
| Raise (e : exn).

Arguments Ok {A} a.
Arguments Raise {A} e.

Definition bind {A B : Type} (c : result A) (k : A -> result B) : result B :=
  match c with
  | Ok a => k a
  | Raise e => Raise e
  end.

Notation "x <- c ;; k" := (bind c (fun x => k))
  (at level 61, c at next level, right associativity).
Notation "' pat <- c ;; k" := (bind c (fun x => match x with pat => k end))
  (at level 61, pat pattern, c at next level, right associativity).

(** One iteration of a [for] loop either falls through to the next iteration
    with the loop state, or executes a [return] statement. *)
Inductive flow (S R : Type) : Type :=
| Next (s : S)
| Return (r : R).

Arguments Next {S R} s.
Arguments Return {S R} r.

Fixpoint for_each {X S R : Type} (body : X -> S -> result (flow S R))
    (xs : list X) (s : S) : result (flow S R) :=
  match xs with
  | [] => Ok (Next s)
  | x :: xs' =>
      match body x s with
      | Raise e => Raise e
      | Ok (Return r) => Ok (Return r)
      | Ok (Next s') => for_each body xs' s'
      end
  end.

(** ** Python list primitives *)

Definition len {A : Type} (l : list A) : Z := Z.of_nat (List.length l).

(** [l[i]]: a negative index counts from the end, an index outside
    [-len l, len l) raises [IndexError]. *)
Definition getitem {A : Type} (l : list A) (i : Z) : result A :=
  let j := if i <? 0 then i + len l else i in
  if (0 <=? j) && (j <? len l) then
    match nth_error l (Z.to_nat j) with
    | Some a => Ok a
    | None => Raise IndexError
    end
  else Raise IndexError.

(** [range(a, b)] and [range(n)]. *)
Definition range2 (a b : Z) : list Z :=
  map (fun k => a + Z.of_nat k) (seq 0 (Z.to_nat (b - a))).

Definition range (n : Z) : list Z := range2 0 n.

(** [sorted(l)] on a list of integers. *)
Fixpoint insert (x : Z) (l : list Z) : list Z :=
  match l with
  | [] => [x]
  | y :: l' => if x <=? y then x :: l else y :: insert x l'
  end.

Fixpoint sorted (l : list Z) : list Z :=
  match l with
  | [] => []
  | x :: l' => insert x (sorted l')
  end.

Fixpoint list_eqb (l1 l2 : list Z) : bool :=
  match l1, l2 with
  | [], [] => true
  | x :: l1', y :: l2' => (x =? y) && list_eqb l1' l2'
  | _, _ => false
  end.

(** ** Float arithmetic *)

Record Numeric : Type := {
  num : Type;
  (** conversion of the int operand of [int * float]; [None] is the
      [OverflowError] of an int too large for a float *)
  of_int : Z -> option num;
  mul : num -> num -> num;
  add : num -> num -> num;
  (** the literal [0.0] *)
  zero : num;
  (** the literal [1e9] *)
  PENALTY : num;
}.

Module F64.
Definition prec : Z := 53.
Definition emax : Z := 1024.

Definition float : Type := spec_float.

(** Rounding of an integer to the nearest double, ties to even; an integer
    that rounds beyond the largest double does not convert. *)
Definition of_int (z : Z) : option float :=
  match binary_normalize prec emax z 0 false with
  | S754_infinity _ => None
  | f => Some f
  end.

Definition mul : float -> float -> float := SFmul prec emax.
Definition add : float -> float -> float := SFadd prec emax.
Definition ltb : float -> float -> bool := SFltb.

Definition zero : float := S754_zero false.
Definition PENALTY : float :=
  Eval vm_compute in binary_normalize prec emax 1000000000 0 false.

(** A float that is neither an infinity nor a NaN. *)
Definition is_finite (f : float) : bool :=
  match f with
  | S754_zero _ | S754_finite _ _ _ => true
  | _ => false
  end.
End F64.

Definition binary64 : Numeric := {|
  num := F64.float;
  of_int := F64.of_int;
  mul := F64.mul;
  add := F64.add;
  zero := F64.zero;
  PENALTY := F64.PENALTY;
|}.

(** The double nearest to an integer. *)
Definition float_of (z : Z) : num binary64 :=
  binary_normalize F64.prec F64.emax z 0 false.

(** ** Data model *)

(** The attributes of an [AircraftLandingProblem] object. *)
Record AircraftLandingProblem (N : Numeric) : Type := {
  nb_planes : Z;
  earliest_time : list Z;
  target_time : list Z;
  latest_time : list Z;
  earliness_cost : list (num N);
  tardiness_cost : list (num N);
  separation_time : list (list Z);
}.

Arguments nb_planes {N} _.
Arguments earliest_time {N} _.
Arguments target_time {N} _.
Arguments latest_time {N} _.
Arguments earliness_cost {N} _.
Arguments tardiness_cost {N} _.
Arguments separation_time {N} _.

(** A candidate: the dictionary handed to the evaluator, read through
    [solution.get(key)], which gives [None] for an absent key. *)
Record Solution : Type := {
  landing_order : option (list Z);
  landing_times : option (list Z);
}.

(** ** The evaluator *)

Section Evaluator.
Context {N : Numeric}.
Variable self : AircraftLandingProblem N.

(** [d * rate] with [d] an int and [rate] a float. *)
Definition int_mul (d : Z) (rate : num N) : result (num N) :=
  match of_int N d with
  | Some f => Ok (mul N f rate)
  | None => Raise OverflowError
  end.

(** Body of the first loop, lines 98-107; the loop state is [total_cost]. *)
Definition cost_body (order times : list Z) (p : Z) (total_cost : num N)
  : result (flow (num N) (num N)) :=
  plane <- getitem order p ;;
  lt <- getitem times p ;;
  e <- getitem (earliest_time self) plane ;;
  outside <- (if lt <? e then Ok true
              else l <- getitem (latest_time self) plane ;; Ok (lt >? l)) ;;
  if (outside : bool) then Ok (Return (PENALTY N))
  else
    target <- getitem (target_time self) plane ;;
    cost <- (if lt <? target then
               rate <- getitem (earliness_cost self) plane ;;
               int_mul (target - lt) rate
             else
               rate <- getitem (tardiness_cost self) plane ;;
               int_mul (lt - target) rate) ;;
    Ok (Next (add N total_cost cost)).

(** Body of the second loop, lines 111-115; it has no state. *)
Definition separation_body (order times : list Z) (p : Z) (_ : unit)
  : result (flow unit (num N)) :=
  prev_plane <- getitem order (p - 1) ;;
  current_plane <- getitem order p ;;
  row <- getitem (separation_time self) prev_plane ;;
  min_sep <- getitem row current_plane ;;
  tp <- getitem times p ;;
  tq <- getitem times (p - 1) ;;
  if tp <? tq + min_sep then Ok (Return (PENALTY N)) else Ok (Next tt).

Definition evaluate_solution (solution : Solution) : result (num N) :=
  match landing_order solution, landing_times solution with
  | None, _ | _, None => Ok (PENALTY N)
  | Some order, Some times =>
      let n := nb_planes self in
      if negb (len order =? n) || negb (len times =? n) then Ok (PENALTY N)
      else if negb (list_eqb (sorted order) (range n)) then Ok (PENALTY N)
      else
        r <- for_each (cost_body order times) (range n) (zero N) ;;
        match r with
        | Return v => Ok v
        | Next total_cost =>
            r' <- for_each (separation_body order times) (range2 1 n) tt ;;
            match r' with
            | Return v => Ok v
            | Next _ => Ok total_cost
            end
        end
  end.
End Evaluator.

Arguments evaluate_solution {N} self solution.


(** ** The randomized greedy constructor *)

(** The module [random] of the Python library is not part of the program: a
    source of randomness is a generator state with the two operations the
    constructor calls, under the contract their documentation gives. *)
Record RandomSource : Type := {
  rng : Type;
  (** [random.shuffle(x)]: the list after the in-place shuffle *)
  shuffled : list Z -> rng -> list Z * rng;
  (** the integer [random.randint(a, b)] picks when [a <= b] *)
  drawn : Z -> Z -> rng -> Z * rng;
  shuffled_perm : forall l g, Permutation (fst (shuffled l g)) l;
  drawn_range : forall a b g, a <= b -> a <= fst (drawn a b g) <= b;
}.

(** [random.randint(a, b)] raises [ValueError] on an empty range. *)
Definition randint (R : RandomSource) (a b : Z) (g : rng R)
  : result (Z * rng R) :=
  if a <=? b then Ok (drawn R a b g) else Raise ValueError.

Section Constructor.
Context {N : Numeric}.
Variable self : AircraftLandingProblem N.
Variable R : RandomSource.

(** The lower bound of line 138 or lines 140-142. *)
Definition min_time_at (order times : list Z) (p plane : Z) : result Z :=
  if p =? 0 then getitem (earliest_time self) plane
  else
    prev_plane <- getitem order (p - 1) ;;
    e <- getitem (earliest_time self) plane ;;
    t <- getitem times (p - 1) ;;
    row <- getitem (separation_time self) prev_plane ;;
    s <- getitem row plane ;;
    Ok (Z.max e (t + s)).

(** Body of the loop of lines 135-148; the loop state is [landing_times]
    together with the generator. *)
Definition greedy_body (order : list Z) (p : Z) (st : list Z * rng R)
  : result (flow (list Z * rng R) Empty_set) :=
  let '(times, g) := st in
  plane <- getitem order p ;;
  min_time <- min_time_at order times p plane ;;
  max_time <- getitem (latest_time self) plane ;;
  '(landing_time, g') <- (if min_time >? max_time then Ok (max_time, g)
                          else randint R min_time max_time g) ;;
  Ok (Next (times ++ [landing_time], g')).

Definition random_solution (g : rng R) : result (Solution * rng R) :=
  let n := nb_planes self in
  let '(order, g1) := shuffled R (range n) g in
  r <- for_each (greedy_body order) (range n) ([], g1) ;;
  match r with
  | Next (times, g2) =>
      Ok ({| landing_order := Some order; landing_times := Some times |}, g2)
  | Return impossible => match impossible with end
  end.
End Constructor.

Arguments random_solution {N} self R g.

(** ** Loading an instance from its tokens *)

Section Loader.
Context {N : Numeric}.

(** [int(token)] and [float(token)] of the Python library: [None] stands for
    the [ValueError] of a token that is not a numeral of the type. *)
Variable parse_int : string -> option Z.
Variable parse_float : string -> option (num N).

Definition int (tok : string) : result Z :=
  match parse_int tok with
  | Some z => Ok z
  | None => Raise ValueError
  end.

Definition float (tok : string) : result (num N) :=
  match parse_float tok with
  | Some f => Ok f
  | None => Raise ValueError
  end.

(** [next(it)] on the iterator over the tokens. *)
Definition next (it : list string) : result (string * list string) :=
  match it with
  | [] => Raise StopIteration
  | tok :: it' => Ok (tok, it')
  end.

(** Body of the inner loop, line 69; the state is the iterator and
    [sep_row]. *)
Definition row_body (_ : Z) (st : list string * list Z)
  : result (flow (list string * list Z) Empty_set) :=
  let '(it, sep_row) := st in
  '(tok, it) <- next it ;;
  v <- int tok ;;
  Ok (Next (it, sep_row ++ [v])).

(** Body of the outer loop, lines 61-70; the state is the iterator and the
    object under construction. *)
Definition plane_body (_ : Z) (st : list string * AircraftLandingProblem N)
  : result (flow (list string * AircraftLandingProblem N) Empty_set) :=
  let '(it, self) := st in
  '(_, it) <- next it ;;
  '(tok, it) <- next it ;; e <- int tok ;;
  '(tok, it) <- next it ;; t <- int tok ;;
  '(tok, it) <- next it ;; l <- int tok ;;
  '(tok, it) <- next it ;; ec <- float tok ;;
  '(tok, it) <- next it ;; tc <- float tok ;;
  r <- for_each row_body (range (nb_planes self)) (it, []) ;;
  match r with
  | Next (it, sep_row) =>
      Ok (Next (it, {| nb_planes := nb_planes self;
                       earliest_time := earliest_time self ++ [e];
                       target_time := target_time self ++ [t];
                       latest_time := latest_time self ++ [l];
                       earliness_cost := earliness_cost self ++ [ec];
                       tardiness_cost := tardiness_cost self ++ [tc];
                       separation_time := separation_time self ++ [sep_row] |}))
  | Return impossible => match impossible with end
  end.

(** Lines 51-70 on [tokens = f.read().split()]; the second component is what
    is left of the iterator when the loader is done. *)
Definition load_tokens (tokens : list string)
  : result (AircraftLandingProblem N * list string) :=
  '(tok, it) <- next tokens ;;
  n <- int tok ;;
  '(_, it) <- next it ;;
  r <- for_each plane_body (range n)
         (it, {| nb_planes := n; earliest_time := []; target_time := [];
                 latest_time := []; earliness_cost := [];
                 tardiness_cost := []; separation_time := [] |}) ;;
  match r with
  | Next (it, self) => Ok (self, it)
  | Return impossible => match impossible with end
  end.

Definition _load_instance_from_file (tokens : list string)
  : result (AircraftLandingProblem N) :=
  '(self, _) <- load_tokens tokens ;; Ok self.

(** The constructor of the class, lines 26-42: from the tokens of an
    instance file when one is given, and otherwise from the seven arguments,
    all of which must be there; nothing else about them is checked. *)
Definition __init__ (instance_file : option (list string))
    (nb_planes : option Z) (earliest_time target_time latest_time :
       option (list Z))
    (earliness_cost tardiness_cost : option (list (num N)))
    (separation_time : option (list (list Z)))
  : result (AircraftLandingProblem N) :=
  match instance_file with
  | Some tokens => _load_instance_from_file tokens
  | None =>
      match nb_planes, earliest_time, target_time, latest_time,
            earliness_cost, tardiness_cost, separation_time with
      | Some n, Some e, Some t, Some l, Some ec, Some tc, Some s =>
          Ok (Build_AircraftLandingProblem N n e t l ec tc s)
      | _, _, _, _, _, _, _ => Raise ValueError
      end
  end.
End Loader.

(** ** Vocabulary of the specification *)

(** [l] has an entry at each of the indices [0 .. n-1]. *)
Definition covers {A : Type} (n : Z) (l : list A) : Prop := n <= len l.

(** The entry of a list of integers at a valid index. *)
Definition at_ (l : list Z) (i : Z) : Z := nth (Z.to_nat i) l 0.

(** The data model: every per-plane array has an entry for each of the
    [nb_planes] planes, and so has each of their rows of the separation
    matrix. *)
Definition well_formed {N : Numeric} (self : AircraftLandingProblem N) : Prop :=
  let n := nb_planes self in
  covers n (earliest_time self) /\ covers n (target_time self) /\
  covers n (latest_time self) /\ covers n (earliness_cost self) /\
  covers n (tardiness_cost self) /\ covers n (separation_time self) /\
  forall i, 0 <= i < n ->
    covers n (nth (Z.to_nat i) (separation_time self) []).

(** A candidate with both keys, of the right lengths, whose order is a
    permutation of [0 .. n-1]. *)
Definition permutation_valid (n : Z) (order times : list Z) : Prop :=
  Permutation order (range n) /\ len order = n /\ len times = n.

Section Vocabulary.
Context {N : Numeric}.
Variable self : AircraftLandingProblem N.
Variables order times : list Z.

Definition earliest_of (plane : Z) : Z := at_ (earliest_time self) plane.
Definition target_of (plane : Z) : Z := at_ (target_time self) plane.
Definition latest_of (plane : Z) : Z := at_ (latest_time self) plane.
Definition earliness_of (plane : Z) : num N :=
  nth (Z.to_nat plane) (earliness_cost self) (zero N).
Definition tardiness_of (plane : Z) : num N :=
  nth (Z.to_nat plane) (tardiness_cost self) (zero N).
Definition separation_of (prev cur : Z) : Z :=
  at_ (nth (Z.to_nat prev) (separation_time self) []) cur.

(** The landing at position [p] is inside the window of its plane. *)
Definition in_window (p : Z) : Prop :=
  earliest_of (at_ order p) <= at_ times p <= latest_of (at_ order p).

(** The landings at positions [p - 1] and [p] are far enough apart. *)
Definition separated (p : Z) : Prop :=
  at_ times (p - 1) + separation_of (at_ order (p - 1)) (at_ order p)
  <= at_ times p.

(** The landing at position [p] is exactly on target. *)
Definition on_target (p : Z) : Prop :=
  at_ times p = target_of (at_ order p).

(** Distance of the landing at position [p] from the target of its plane:
    the int that the cost expression multiplies by the rate. *)
Definition deviation (p : Z) : Z :=
  Z.abs (at_ times p - target_of (at_ order p)).

(** The int [d] converts to a float. *)
Definition converts (d : Z) : Prop := of_int N d <> None.

(** The cost expression of lines 102-106 for [plane] landing at [lt]. *)
Definition plane_cost (plane lt : Z) : result (num N) :=
  if lt <? target_of plane
  then int_mul (target_of plane - lt) (earliness_of plane)
  else int_mul (lt - target_of plane) (tardiness_of plane).

(** The candidate passes every check of the evaluator. *)
Definition feasible : Prop :=
  permutation_valid (nb_planes self) order times /\
  (forall p, 0 <= p < nb_planes self -> in_window p) /\
  (forall p, 1 <= p < nb_planes self -> separated p).
End Vocabulary.

(** Every deviation a landing inside a window can have converts to a
    float. *)
Definition representable {N : Numeric} (self : AircraftLandingProblem N)
  : Prop :=
  forall plane t, 0 <= plane < nb_planes self ->
    earliest_of self plane <= t <= latest_of self plane ->
    converts (N := N) (Z.abs (t - target_of self plane)).

(** The candidate dictionary with both keys present. *)
Definition candidate (order times : list Z) : Solution :=
  {| landing_order := Some order; landing_times := Some times |}.

(** A key is missing, a length is not [n], or the order is not a
    permutation of [0 .. n-1]. *)
Definition structurally_invalid (n : Z) (solution : Solution) : Prop :=
  match landing_order solution, landing_times solution with
  | Some order, Some times =>
      len order <> n \/ len times <> n \/ ~ Permutation order (range n)
  | _, _ => True
  end.

(** *** Costs in whole numbers *)

Definition Zsum {X : Type} (f : X -> Z) (xs : list X) : Z :=
  fold_left (fun a x => a + f x) xs 0.

Section WholeVocabulary.
Variable self : AircraftLandingProblem binary64.

(** The earliness and the tardiness rate of each plane as a whole number. *)
Variables earliness tardiness : Z -> Z.

(** The rates of the instance are the doubles of these whole numbers, each
    from zero to below [2^53]. *)
Definition whole_rates : Prop :=
  forall plane, 0 <= plane < nb_planes self ->
    0 <= earliness plane < 2 ^ 53 /\ 0 <= tardiness plane < 2 ^ 53 /\
    earliness_of self plane = float_of (earliness plane) /\
    tardiness_of self plane = float_of (tardiness plane).

(** The earliness or tardiness penalty of [plane] landing at [lt]. *)
Definition whole_cost (plane lt : Z) : Z :=
  if lt <? target_of self plane
  then (target_of self plane - lt) * earliness plane
  else (lt - target_of self plane) * tardiness plane.

(** The total penalty of a schedule. *)
Definition schedule_cost (order times : list Z) : Z :=
  Zsum (fun p => whole_cost (at_ order p) (at_ times p))
       (range (nb_planes self)).

(** The larger of the penalties of [plane] at the two ends of its window. *)
Definition widest_cost (plane : Z) : Z :=
  Z.max ((target_of self plane - earliest_of self plane) * earliness plane)
        ((latest_of self plane - target_of self plane) * tardiness plane).

(** The sum over the planes of their largest penalties. *)
Definition worst_case : Z := Zsum widest_cost (range (nb_planes self)).
End WholeVocabulary.

(** *** The greedy rule of the constructor *)

Section GreedyVocabulary.
Context {N : Numeric}.
Variable self : AircraftLandingProblem N.
Variables order times : list Z.

(** The lower bound of the landing time at position [p]: the earliest time
    of its plane at the first position, and later the larger of that and the
    previous landing time plus the separation from the previous plane. *)
Definition lower_bound (p : Z) : Z :=
  if p =? 0 then earliest_of self (at_ order p)
  else Z.max (earliest_of self (at_ order p))
             (at_ times (p - 1)
              + separation_of self (at_ order (p - 1)) (at_ order p)).

(** The landing time at position [p] follows the greedy rule. *)
Definition greedy_time (p : Z) : Prop :=
  let ub := latest_of self (at_ order p) in
  (lower_bound p <= ub -> lower_bound p <= at_ times p <= ub) /\
  (ub < lower_bound p -> at_ times p = ub).
End GreedyVocabulary.

(** *** The format of an instance file *)

(** What the loader does with a token: it skips it unread, or reads it as
    an integer, or as a real. *)
Inductive token_kind : Type :=
| Skipped
| Integer
| Real.

(** The tokens of one plane: appearance time, earliest, target and latest
    time, the two cost rates, one row of separation times. *)
Definition plane_format (n : Z) : list token_kind :=
  Skipped :: Integer :: Integer :: Integer :: Real :: Real
  :: repeat Integer (Z.to_nat n).

(** The tokens of an instance of [n] planes: the number of planes, the
    freeze time, and the planes. *)
Definition stream_format (n : Z) : list token_kind :=
  Integer :: Skipped :: List.concat (repeat (plane_format n) (Z.to_nat n)).

Section FormatVocabulary.
Context {N : Numeric}.
Variable parse_int : string -> option Z.
Variable parse_float : string -> option (num N).

Definition accepts (k : token_kind) (tok : string) : bool :=
  match k with
  | Skipped => true
  | Integer => match parse_int tok with Some _ => true | None => false end
  | Real => match parse_float tok with Some _ => true | None => false end
  end.

(** The exception a token stream meets against a format, if any: the stream
    ends before the format does, or a token is not of its kind.  Tokens after
    the end of the format are not looked at. *)
Fixpoint fault (ks : list token_kind) (toks : list string) : option exn :=
  match ks, toks with
  | [], _ => None
  | _ :: _, [] => Some StopIteration
  | k :: ks', tok :: toks' =>
      if accepts k tok then fault ks' toks' else Some ValueError
  end.

(** The stream ends before the format does: it holds a token of its kind
    for each kind the format starts with, and the format asks for one
    more. *)
Definition ends_early (ks : list token_kind) (toks : list string) : Prop :=
  exists ks1 k ks2,
    ks = ks1 ++ k :: ks2 /\
    Forall2 (fun k' tok' => accepts k' tok' = true) ks1 toks.

(** A token of the stream is not of the kind the format asks for at its
    place, the tokens before it being of theirs. *)
Definition unreadable_token (ks : list token_kind) (toks : list string)
  : Prop :=
  exists ks1 k ks2 toks1 tok toks2,
    ks = ks1 ++ k :: ks2 /\ toks = toks1 ++ tok :: toks2 /\
    Forall2 (fun k' tok' => accepts k' tok' = true) ks1 toks1 /\
    accepts k tok = false.

(** The loader runs out of tokens: the stream is empty, or its first token
    reads as an integer [n] and the stream ends before the format of [n]
    planes does. *)
Definition exhausted (tokens : list string) : Prop :=
  tokens = [] \/
  exists tok rest n,
    tokens = tok :: rest /\ parse_int tok = Some n /\
    ends_early (stream_format n) tokens.

(** The loader meets a token it cannot read: the first token does not read
    as an integer, or it reads as [n] and a later token is not of the kind
    the format of [n] planes asks for. *)
Definition misread (tokens : list string) : Prop :=
  exists tok rest,
    tokens = tok :: rest /\
    (parse_int tok = None \/
     exists n, parse_int tok = Some n /\
               unreadable_token (stream_format n) tokens).

(** The stream has a first token that reads as an integer [n], and meets no
    fault against the format of [n] planes. *)
Definition conforming (tokens : list string) : Prop :=
  exists tok rest n,
    tokens = tok :: rest /\ parse_int tok = Some n /\
    fault (stream_format n) tokens = None.
End FormatVocabulary.

(** *** The accumulated cost *)

Section CostVocabulary.
Context {N : Numeric}.
Variable self : AircraftLandingProblem N.

(** The value of the cost expression where it has one. *)
Definition cost_term (plane lt : Z) : num N :=
  match plane_cost self plane lt with
  | Ok c => c
  | Raise _ => zero N
  end.

(** The costs of the landings added to [0.0] one after the other, in the
    order of the positions. *)
Definition accumulated_cost (order times : list Z) : num N :=
  fold_left (fun total p => add N total (cost_term (at_ order p) (at_ times p)))
            (range (nb_planes self)) (zero N).
End CostVocabulary.

(** The candidate with both keys present and both lists empty. *)
Definition is_empty_candidate (solution : Solution) : bool :=
  match landing_order solution, landing_times solution with
  | Some [], Some [] => true
  | _, _ => false
  end.

(** *** What a token stream says about an instance *)

Section EncodingVocabulary.
Context {N : Numeric}.
Variable parse_int : string -> option Z.
Variable parse_float : string -> option (num N).

(** The tokens read as the integers, one for one. *)
Definition reads_ints (toks : list string) (vs : list Z) : Prop :=
  Forall2 (fun tok v => parse_int tok = Some v) toks vs.

(** The tokens of one plane, in the order of the file format: an
    appearance time that may be any token, the three times, the two rates,
    and the row of separation times. *)
Definition plane_block (e t l : Z) (ec tc : num N) (row : list Z)
    (block : list string) : Prop :=
  match block with
  | _ :: tok_e :: tok_t :: tok_l :: tok_ec :: tok_tc :: seps =>
      parse_int tok_e = Some e /\ parse_int tok_t = Some t /\
      parse_int tok_l = Some l /\
      parse_float tok_ec = Some ec /\ parse_float tok_tc = Some tc /\
      reads_ints seps row
  | _ => False
  end.

(** The blocks of the planes one after the other, against the six arrays;
    every row has [k] entries. *)
Inductive planes_encoded (k : nat)
  : list string -> list Z -> list Z -> list Z ->
    list (num N) -> list (num N) -> list (list Z) -> Prop :=
| planes_encoded_nil : planes_encoded k [] [] [] [] [] [] []
| planes_encoded_cons block body e es t ts l ls ec ecs tc tcs row rows :
    plane_block e t l ec tc row block ->
    List.length row = k ->
    planes_encoded k body es ts ls ecs tcs rows ->
    planes_encoded k (block ++ body)
      (e :: es) (t :: ts) (l :: ls) (ec :: ecs) (tc :: tcs) (row :: rows).

(** The stream starts with the number of planes and a freeze time that may
    be any token, goes on with the blocks of that many planes, and may hold
    more tokens after them. *)
Definition encodes (tokens : list string) (self : AircraftLandingProblem N)
  : Prop :=
  exists tok freeze body surplus,
    tokens = tok :: freeze :: body ++ surplus /\
    parse_int tok = Some (nb_planes self) /\
    List.length (earliest_time self) = Z.to_nat (nb_planes self) /\
    planes_encoded (Z.to_nat (nb_planes self)) body
      (earliest_time self) (target_time self) (latest_time self)
      (earliness_cost self) (tardiness_cost self) (separation_time self).
End EncodingVocabulary.

(** The object under construction after more planes have been read. *)
Definition with_planes {N : Numeric} (self : AircraftLandingProblem N)
    (es ts ls : list Z) (ecs tcs : list (num N)) (rows : list (list Z))
  : AircraftLandingProblem N :=
  {| nb_planes := nb_planes self;
     earliest_time := earliest_time self ++ es;
     target_time := target_time self ++ ts;
     latest_time := latest_time self ++ ls;
     earliness_cost := earliness_cost self ++ ecs;
     tardiness_cost := tardiness_cost self ++ tcs;
     separation_time := separation_time self ++ rows |}.

(** *** Signs of floats *)

(** A float that is not NaN and not below zero: a zero of either sign, a
    positive number or the positive infinity. *)
Definition not_below_zero (f : F64.float) : bool :=
  match f with
  | S754_zero _ | S754_finite false _ _ | S754_infinity false => true
  | _ => false
  end.

(** A float that is [0.0], a positive number or the positive infinity: not
    NaN, not negative and not [-0.0]. *)
Definition not_negative (f : F64.float) : bool :=
  match f with
  | S754_zero false | S754_finite false _ _ | S754_infinity false => true
  | _ => false
  end.

(** A rate of the data model: a zero, of either sign, or a positive
    number. *)
Definition nonnegative_rate (f : F64.float) : bool :=
  match f with
  | S754_zero _ | S754_finite false _ _ => true
  | _ => false
  end.

(** A float with the sign bit [sx] that is not NaN. *)
Definition signed (sx : bool) (f : spec_float) : Prop :=
  match f with
  | S754_zero s | S754_infinity s | S754_finite s _ _ => s = sx
  | S754_nan => False
  end.

(** *** Moving the origin of time *)

(** The instance with every earliest, target and latest time moved by
    [c]. *)
Definition shifted {N : Numeric} (c : Z) (self : AircraftLandingProblem N)
  : AircraftLandingProblem N :=
  {| nb_planes := nb_planes self;
     earliest_time := map (Z.add c) (earliest_time self);
     target_time := map (Z.add c) (target_time self);
     latest_time := map (Z.add c) (latest_time self);
     earliness_cost := earliness_cost self;
     tardiness_cost := tardiness_cost self;
     separation_time := separation_time self |}.

(** The candidate with every landing time moved by [c]. *)
Definition shifted_candidate (c : Z) (solution : Solution) : Solution :=
  {| landing_order := landing_order solution;
     landing_times := option_map (map (Z.add c)) (landing_times solution) |}.

(** *** The separation matrix *)

(** The instance with another separation matrix. *)
Definition with_separation {N : Numeric} (rows : list (list Z))
    (self : AircraftLandingProblem N) : AircraftLandingProblem N :=
  {| nb_planes := nb_planes self;
     earliest_time := earliest_time self;
     target_time := target_time self;
     latest_time := latest_time self;
     earliness_cost := earliness_cost self;
     tardiness_cost := tardiness_cost self;
     separation_time := rows |}.

(** *** Positive floats *)

(** A positive number of binary64, down to the smallest subnormal, or the
    positive infinity. *)
Definition above_zero (f : F64.float) : bool :=
  match f with
  | S754_finite false _ e => -1074 <=? e
  | S754_infinity false => true
  | _ => false
  end.

(** A rate that is a positive number of binary64. *)
Definition positive_rate (f : F64.float) : bool :=
  valid_binary F64.prec F64.emax f &&
  match f with
  | S754_finite false _ _ => true
  | _ => false
  end.

(** ** Instances and candidates used as examples *)

Definition instance64 (n : Z) (earliest target latest : list Z)
    (earliness tardiness : list (num binary64)) (separation : list (list Z))
  : AircraftLandingProblem binary64 :=
  {| nb_planes := n; earliest_time := earliest; target_time := target;
     latest_time := latest; earliness_cost := earliness;
     tardiness_cost := tardiness; separation_time := separation |}.

(** The one-plane instance of the specification's examples. *)
Definition one_plane : AircraftLandingProblem binary64 :=
  instance64 1 [0] [10] [20] [float_of 2] [float_of 3] [[0]].

Definition two_planes : AircraftLandingProblem binary64 :=
  instance64 2 [0; 0] [10; 30] [50; 50]
    [float_of 1; float_of 1] [float_of 2; float_of 2] [[0; 5]; [7; 0]].

(** One plane announced, no earliest time given. *)
Definition short_arrays : AircraftLandingProblem binary64 :=
  instance64 1 [] [10] [20] [float_of 2] [float_of 3] [[0]].

(** Plane 0 may land anywhere up to [2^1100], its target. *)
Definition huge_window : AircraftLandingProblem binary64 :=
  instance64 2 [0; 0] [2 ^ 1100; 5] [2 ^ 1100; 10]
    [float_of 1; float_of 1] [float_of 1; float_of 1] [[0; 0]; [0; 0]].

(** One plane that is free to land early or late. *)
Definition zero_rate : AircraftLandingProblem binary64 :=
  instance64 1 [0] [10] [20] [float_of 0] [float_of 0] [[0]].

(** Plane 0 costs [1e17] per unit of delay, plane 1 costs 1. *)
Definition absorbing : AircraftLandingProblem binary64 :=
  instance64 2 [0; 0] [0; 0] [1; 10]
    [float_of 1; float_of 1] [float_of (10 ^ 17); float_of 1]
    [[0; 0]; [0; 0]].

(** One plane whose tardiness costs [1e9] per unit of time. *)
Definition expensive : AircraftLandingProblem binary64 :=
  instance64 1 [0] [0] [10] [float_of 1] [float_of 1000000000] [[0]].

(** A source of randomness that reverses the list it shuffles and draws the
    lower end of every range. *)
Definition reverse_lowest : RandomSource :=
  {| rng := unit;
     shuffled := fun l g => (rev l, g);
     drawn := fun a _ g => (a, g);
     shuffled_perm := fun l _ => Permutation_sym (Permutation_rev l);
     drawn_range := fun a b _ (H : a <= b) => conj (Z.le_refl a) H |}.

(** Two planes that must both land at time 0, five units apart. *)
Definition tight_windows : AircraftLandingProblem binary64 :=
  instance64 2 [0; 0] [0; 0] [0; 0]
    [float_of 1; float_of 1] [float_of 1; float_of 1] [[0; 5]; [5; 0]].

(** A reading of plain decimal numerals, with an optional minus sign, for
    the examples of the loader; on these tokens [int] and [float] of the
    Python library read the same integer. *)
Fixpoint digits (s : string) (acc : Z) : option Z :=
  match s with
  | EmptyString => Some acc
  | String c s' =>
      let d := Z.of_nat (Ascii.nat_of_ascii c) - 48 in
      if (0 <=? d) && (d <=? 9) then digits s' (10 * acc + d) else None
  end.

Definition dec_int (s : string) : option Z :=
  match s with
  | EmptyString => None
  | String c s' =>
      if Ascii.eqb c "-"%char then
        match s' with
        | EmptyString => None
        | _ => option_map Z.opp (digits s' 0)
        end
      else digits s 0
  end.

Definition dec_float (s : string) : option (num binary64) :=
  option_map float_of (dec_int s).

(** The tokens of an instance file for one plane, with words where the
    loader does not read. *)
Definition one_plane_tokens : list string :=
  ["1"; "soon"; "now"; "0"; "10"; "20"; "2"; "3"; "0"]%string.

(** Three planes one unit apart from the next, where plane 2 must keep
    a hundred units from plane 0. *)
Definition three_planes : AircraftLandingProblem binary64 :=
  instance64 3 [0; 0; 0] [0; 1; 2] [9; 9; 9]
    [float_of 1; float_of 1; float_of 1] [float_of 1; float_of 1; float_of 1]
    [[0; 1; 100]; [1; 0; 1]; [100; 1; 0]].

(** One plane whose tardiness rate is just below a third of [10^9]. *)
Definition near_sentinel : AircraftLandingProblem binary64 :=
  instance64 1 [0] [0] [3] [float_of 1]
    [S754_finite false 5592405333333333 (-24)] [[0]].

(** ** Lists, ranges and sorting *)

Lemma len_nonneg {A : Type} (l : list A) : 0 <= len l.
Proof. unfold len; lia. Qed.

Lemma len_app {A : Type} (l1 l2 : list A) : len (l1 ++ l2) = len l1 + len l2.
Proof. unfold len; rewrite length_app; lia. Qed.

Lemma getitem_nth_error {A : Type} (l : list A) (i : Z) :
  0 <= i < len l ->
  exists a, nth_error l (Z.to_nat i) = Some a /\ getitem l i = Ok a.
Proof.
  intros Hi. unfold getitem.
  replace (i <? 0) with false by (symmetry; apply Z.ltb_ge; lia).
  replace (0 <=? i) with true by (symmetry; apply Z.leb_le; lia).
  replace (i <? len l) with true by (symmetry; apply Z.ltb_lt; lia).
  cbn [andb].
  destruct (nth_error l (Z.to_nat i)) as [a|] eqn:E.
  - exists a; split; reflexivity.
  - apply nth_error_None in E. unfold len in Hi. lia.
Qed.

Lemma getitem_nth {A : Type} (d : A) (l : list A) (i : Z) :
  0 <= i < len l -> getitem l i = Ok (nth (Z.to_nat i) l d).
Proof.
  intros Hi. destruct (getitem_nth_error l i Hi) as (a & E & ->).
  f_equal. symmetry. apply nth_error_nth. exact E.
Qed.

Lemma getitem_at (l : list Z) (i : Z) :
  0 <= i < len l -> getitem l i = Ok (at_ l i).
Proof. apply getitem_nth. Qed.

Lemma range2_In (a b x : Z) : In x (range2 a b) <-> a <= x < b.
Proof.
  unfold range2. rewrite in_map_iff. split.
  - intros (k & <- & Hk). apply in_seq in Hk. lia.
  - intros Hx. exists (Z.to_nat (x - a)). split; [lia|].
    apply in_seq. lia.
Qed.

Lemma range_In (n x : Z) : In x (range n) <-> 0 <= x < n.
Proof. apply range2_In. Qed.

Lemma range2_length (a b : Z) : List.length (range2 a b) = Z.to_nat (b - a).
Proof. unfold range2. now rewrite length_map, length_seq. Qed.

Lemma range_len (n : Z) : 0 <= n -> len (range n) = n.
Proof. intros Hn. unfold len, range. rewrite range2_length. lia. Qed.

Lemma range2_nil (a b : Z) : b <= a -> range2 a b = [].
Proof.
  intros H. unfold range2. now replace (Z.to_nat (b - a)) with 0%nat by lia.
Qed.

Lemma range2_cons (a b : Z) : a < b -> range2 a b = a :: range2 (a + 1) b.
Proof.
  intros H. unfold range2.
  replace (Z.to_nat (b - a)) with (S (Z.to_nat (b - (a + 1)))) by lia.
  cbn [seq map]. f_equal; [lia|].
  rewrite <- seq_shift, map_map. apply map_ext. intros k. lia.
Qed.

Lemma range2_snoc (a b : Z) : a <= b -> range2 a (b + 1) = range2 a b ++ [b].
Proof.
  intros H. unfold range2.
  replace (Z.to_nat (b + 1 - a)) with (Z.to_nat (b - a) + 1)%nat by lia.
  rewrite seq_app, map_app. cbn. do 2 f_equal. lia.
Qed.

Lemma range2_sorted (a b : Z) : StronglySorted Z.le (range2 a b).
Proof.
  destruct (Z_le_gt_dec b a) as [H|H]; [rewrite range2_nil by lia; constructor|].
  remember (Z.to_nat (b - a)) as k eqn:Ek.
  revert a H Ek. induction k as [|k IH]; intros a H Ek; [lia|].
  rewrite range2_cons by lia. constructor.
  - destruct (Z_le_gt_dec b (a + 1)) as [H'|H'].
    + rewrite range2_nil by lia. constructor.
    + apply IH; lia.
  - apply Forall_forall. intros x Hx. apply range2_In in Hx. lia.
Qed.

Lemma insert_perm (x : Z) (l : list Z) : Permutation (insert x l) (x :: l).
Proof.
  induction l as [|y l IH]; cbn; [reflexivity|].
  destruct (x <=? y); [reflexivity|].
  rewrite IH. apply perm_swap.
Qed.

Lemma sorted_perm (l : list Z) : Permutation (sorted l) l.
Proof.
  induction l as [|x l IH]; cbn; [constructor|].
  rewrite insert_perm. now constructor.
Qed.

Lemma insert_sorted (x : Z) (l : list Z) :
  StronglySorted Z.le l -> StronglySorted Z.le (insert x l).
Proof.
  induction 1 as [|y l Hs IH Hall]; cbn.
  - repeat constructor.
  - destruct (x <=? y) eqn:E.
    + apply Z.leb_le in E. constructor; [now constructor|].
      constructor; [exact E|].
      eapply Forall_impl; [|exact Hall]. cbn; intros; lia.
    + apply Z.leb_gt in E. constructor; [exact IH|].
      eapply Permutation_Forall; [symmetry; apply insert_perm|].
      constructor; [lia|exact Hall].
Qed.

Lemma sorted_is_sorted (l : list Z) : StronglySorted Z.le (sorted l).
Proof.
  induction l as [|x l IH]; cbn; [constructor|now apply insert_sorted].
Qed.

Lemma sorted_unique (l1 l2 : list Z) :
  StronglySorted Z.le l1 -> StronglySorted Z.le l2 ->
  Permutation l1 l2 -> l1 = l2.
Proof.
  intros H1. revert l2. induction H1 as [|x l1 Hs1 IH Hall1]; intros l2 H2 HP.
  - apply Permutation_nil in HP. now subst.
  - destruct H2 as [|y l2 Hs2 Hall2].
    + apply Permutation_sym, Permutation_nil in HP. discriminate.
    + assert (x = y) as <-.
      { assert (Hx : In x (y :: l2)) by (eapply Permutation_in; [exact HP|now left]).
        assert (Hy : In y (x :: l1))
          by (eapply Permutation_in; [symmetry; exact HP|now left]).
        rewrite Forall_forall in Hall1, Hall2.
        destruct Hx as [->|Hx]; [reflexivity|].
        destruct Hy as [->|Hy]; [reflexivity|].
        apply Hall1 in Hy. apply Hall2 in Hx. lia. }
      f_equal. apply IH; [exact Hs2|].
      eapply Permutation_cons_inv. exact HP.
Qed.

Lemma list_eqb_eq (l1 l2 : list Z) : list_eqb l1 l2 = true <-> l1 = l2.
Proof.
  revert l2. induction l1 as [|x l1 IH]; intros [|y l2]; cbn;
    try (split; [discriminate|congruence]); [tauto|].
  rewrite andb_true_iff, Z.eqb_eq, IH. split; [intros []|intros [=]]; now subst.
Qed.

(** The permutation test of line 92 accepts exactly the permutations of
    [0 .. n-1]. *)
Lemma sorted_range_iff (order : list Z) (n : Z) :
  list_eqb (sorted order) (range n) = true <-> Permutation order (range n).
Proof.
  rewrite list_eqb_eq. split.
  - intros <-. symmetry. apply sorted_perm.
  - intros HP. apply sorted_unique.
    + apply sorted_is_sorted.
    + apply range2_sorted.
    + now rewrite sorted_perm.
Qed.

(** ** Loops *)

Section Loops.
Context {X S R : Type}.
Variable body : X -> S -> result (flow S R).

(** A loop whose iterations all fall through ends with the state they
    build up, and keeps an invariant they keep. *)
Lemma for_each_next (P : S -> Prop) (xs : list X) (s : S) :
  P s ->
  (forall x s, In x xs -> P s -> exists s', body x s = Ok (Next s') /\ P s') ->
  exists s', for_each body xs s = Ok (Next s') /\ P s'.
Proof.
  revert s. induction xs as [|x xs IH]; intros s Hs Hbody; cbn.
  - now exists s.
  - destruct (Hbody x s (or_introl eq_refl) Hs) as (s' & -> & Hs').
    apply IH; [exact Hs'|]. intros y t Hy. apply Hbody. now right.
Qed.

(** An iteration that returns ends the loop with its value, when the
    iterations before it fall through. *)
Lemma for_each_return (xs ys : list X) (x : X) (r : R) (s : S) :
  (forall y s, In y xs ->
     body y s = Ok (Return r) \/ exists s', body y s = Ok (Next s')) ->
  (forall s, body x s = Ok (Return r)) ->
  for_each body (xs ++ x :: ys) s = Ok (Return r).
Proof.
  revert s. induction xs as [|y xs IH]; intros s Hxs Hx; cbn.
  - now rewrite Hx.
  - destruct (Hxs y s (or_introl eq_refl)) as [->|(s' & ->)]; [reflexivity|].
    apply IH; [|exact Hx]. intros z t Hz. apply Hxs. now right.
Qed.

Lemma for_each_fold (f : S -> X -> S) (xs : list X) (s : S) :
  (forall x s, In x xs -> body x s = Ok (Next (f s x))) ->
  for_each body xs s = Ok (Next (fold_left f xs s)).
Proof.
  revert s. induction xs as [|x xs IH]; intros s Hbody; cbn; [reflexivity|].
  rewrite (Hbody x s (or_introl eq_refl)).
  apply IH. intros y t Hy. apply Hbody. now right.
Qed.
End Loops.

Lemma range2_split (a p b : Z) :
  a <= p < b -> range2 a b = range2 a p ++ p :: range2 (p + 1) b.
Proof.
  intros H. remember (Z.to_nat (p - a)) as k eqn:Ek.
  revert a H Ek. induction k as [|k IH]; intros a H Ek.
  - assert (a = p) as -> by lia.
    rewrite (range2_nil p p) by lia. apply range2_cons. lia.
  - rewrite (range2_cons a b), (range2_cons a p) by lia.
    cbn [app]. f_equal. apply IH; lia.
Qed.

(** ** The two loops of the evaluator *)

Lemma permutation_valid_plane (n : Z) (order times : list Z) (p : Z) :
  permutation_valid n order times -> 0 <= p < n -> 0 <= at_ order p < n.
Proof.
  intros (HP & Hlen & _) Hp. apply range_In.
  eapply Permutation_in; [exact HP|].
  unfold at_. apply nth_In. unfold len in Hlen. lia.
Qed.

Lemma in_window_dec {N : Numeric} (self : AircraftLandingProblem N)
    (order times : list Z) (p : Z) :
  {in_window self order times p} + {~ in_window self order times p}.
Proof.
  unfold in_window.
  destruct (Z_le_dec (earliest_of self (at_ order p)) (at_ times p));
    destruct (Z_le_dec (at_ times p) (latest_of self (at_ order p)));
    (left; lia) || (right; lia).
Qed.

Section EvaluatorLoops.
Context {N : Numeric}.
Variable self : AircraftLandingProblem N.
Variables order times : list Z.
Hypothesis Hwf : well_formed self.
Hypothesis Hvalid : permutation_valid (nb_planes self) order times.

Let n := nb_planes self.

Lemma plane_cost_converts (plane lt : Z) :
  converts (N := N) (Z.abs (lt - target_of self plane)) ->
  exists c, plane_cost self plane lt = Ok c.
Proof.
  unfold converts, plane_cost, int_mul. intros H.
  destruct (Z.ltb_spec lt (target_of self plane)).
  - replace (Z.abs (lt - target_of self plane))
      with (target_of self plane - lt) in H by lia.
    destruct (of_int N _); [now eexists|congruence].
  - replace (Z.abs (lt - target_of self plane))
      with (lt - target_of self plane) in H by lia.
    destruct (of_int N _); [now eexists|congruence].
Qed.

(** Lines 98-101: position [p] and its plane are read, and a landing
    outside the window returns the sentinel. *)
Lemma cost_body_outside (p : Z) (total : num N) :
  0 <= p < n -> ~ in_window self order times p ->
  cost_body self order times p total = Ok (Return (PENALTY N)).
Proof.
  intros Hp Hout.
  pose proof (permutation_valid_plane _ _ _ _ Hvalid Hp) as Hplane.
  destruct Hvalid as (_ & Hlo & Hlt).
  destruct Hwf as (He & _ & Hl & _).
  unfold covers in *. fold n in Hlo, Hlt, He, Hl, Hplane.
  unfold cost_body.
  rewrite (getitem_at order p), (getitem_at times p) by lia. cbn [bind].
  rewrite (getitem_at (earliest_time self)) by lia. cbn [bind].
  unfold in_window, earliest_of, latest_of in Hout.
  destruct (Z.ltb_spec (at_ times p) (at_ (earliest_time self) (at_ order p)));
    cbn [bind]; [reflexivity|].
  rewrite (getitem_at (latest_time self)) by lia. cbn [bind].
  destruct (Z.gtb_spec (at_ times p) (at_ (latest_time self) (at_ order p)));
    [reflexivity|lia].
Qed.

(** Lines 98-107: a landing inside the window adds the cost of its plane to
    [total_cost]. *)
Lemma cost_body_inside (p : Z) (total : num N) :
  0 <= p < n -> in_window self order times p ->
  cost_body self order times p total =
  (c <- plane_cost self (at_ order p) (at_ times p) ;;
   Ok (Next (add N total c))).
Proof.
  intros Hp Hin.
  pose proof (permutation_valid_plane _ _ _ _ Hvalid Hp) as Hplane.
  destruct Hvalid as (_ & Hlo & Hlt).
  destruct Hwf as (He & Ht & Hl & Hec & Htc & _).
  unfold covers in *. fold n in Hlo, Hlt, He, Ht, Hl, Hec, Htc, Hplane.
  unfold cost_body.
  rewrite (getitem_at order p), (getitem_at times p) by lia. cbn [bind].
  rewrite (getitem_at (earliest_time self)) by lia. cbn [bind].
  unfold in_window, earliest_of, latest_of in Hin.
  destruct (Z.ltb_spec (at_ times p) (at_ (earliest_time self) (at_ order p)));
    [lia|].
  rewrite (getitem_at (latest_time self)) by lia. cbn [bind].
  destruct (Z.gtb_spec (at_ times p) (at_ (latest_time self) (at_ order p)));
    [lia|].
  rewrite (getitem_at (target_time self)) by lia. cbn [bind].
  unfold plane_cost, target_of, earliness_of, tardiness_of.
  destruct (at_ times p <? at_ (target_time self) (at_ order p)).
  - rewrite (getitem_nth (zero N) (earliness_cost self)) by lia. reflexivity.
  - rewrite (getitem_nth (zero N) (tardiness_cost self)) by lia. reflexivity.
Qed.

(** Lines 111-115 at a position [p >= 1]. *)
Lemma separation_body_spec (p : Z) :
  1 <= p < n ->
  separation_body self order times p tt =
  Ok (if at_ times p <? at_ times (p - 1) +
        separation_of self (at_ order (p - 1)) (at_ order p)
      then Return (PENALTY N) else Next tt).
Proof.
  intros Hp.
  assert (Hp0 : 0 <= p < n) by lia. assert (Hp1 : 0 <= p - 1 < n) by lia.
  pose proof (permutation_valid_plane _ _ _ _ Hvalid Hp0) as Hcur.
  pose proof (permutation_valid_plane _ _ _ _ Hvalid Hp1) as Hprev.
  destruct Hvalid as (_ & Hlo & Hlt).
  destruct Hwf as (_ & _ & _ & _ & _ & Hs & Hrow).
  specialize (Hrow _ Hprev).
  unfold covers in *. fold n in Hlo, Hlt, Hs, Hrow, Hcur, Hprev.
  unfold separation_body.
  rewrite (getitem_at order (p - 1)), (getitem_at order p) by lia. cbn [bind].
  rewrite (getitem_nth [] (separation_time self)) by lia. cbn [bind].
  rewrite getitem_at by lia. cbn [bind].
  rewrite (getitem_at times p), (getitem_at times (p - 1)) by lia. cbn [bind].
  unfold separation_of. now destruct (_ <? _).
Qed.

(** The guards of lines 87-93 let a permutation-valid candidate through. *)
Lemma evaluate_solution_valid :
  evaluate_solution self (candidate order times) =
  (r <- for_each (cost_body self order times) (range n) (zero N) ;;
   match r with
   | Return v => Ok v
   | Next total_cost =>
       r' <- for_each (separation_body self order times) (range2 1 n) tt ;;
       match r' with
       | Return v => Ok v
       | Next _ => Ok total_cost
       end
   end).
Proof.
  destruct Hvalid as (HP & Hlo & Hlt). fold n in HP, Hlo, Hlt.
  unfold evaluate_solution, candidate. cbn [landing_order landing_times].
  fold n. rewrite Hlo, Hlt, Z.eqb_refl. cbn [negb orb].
  apply sorted_range_iff in HP. now rewrite HP.
Qed.
(** The first loop either returns the sentinel or runs to its end over
    landings that are all inside their windows. *)
Lemma cost_loop_cases (xs : list Z) (total : num N) :
  (forall q, In q xs -> 0 <= q < n) ->
  (forall q, In q xs -> in_window self order times q ->
             converts (N := N) (deviation self order times q)) ->
  for_each (cost_body self order times) xs total = Ok (Return (PENALTY N)) \/
  ((exists total', for_each (cost_body self order times) xs total
                   = Ok (Next total')) /\
   forall q, In q xs -> in_window self order times q).
Proof.
  revert total. induction xs as [|x xs IH]; intros total Hxs Hconv.
  - right. split; [now eexists|intros q []].
  - cbn [for_each].
    destruct (in_window_dec self order times x) as [Hin|Hout].
    + rewrite cost_body_inside by (auto using in_eq).
      destruct (plane_cost_converts _ _ (Hconv x (in_eq _ _) Hin)) as (c & ->).
      cbn [bind].
      destruct (IH (add N total c)) as [->|(Hnext & Hall)];
        [intros; apply Hxs; now right
        |intros; apply Hconv; [now right|assumption]
        |now left|].
      right. split; [exact Hnext|].
      intros q [<-|Hq]; [exact Hin|now apply Hall].
    + left. rewrite cost_body_outside by (auto using in_eq). reflexivity.
Qed.

(** The second loop either returns the sentinel or runs to its end over
    pairs that are all separated. *)
Lemma separation_loop_cases (xs : list Z) :
  (forall q, In q xs -> 1 <= q < n) ->
  for_each (separation_body self order times) xs tt
  = Ok (Return (PENALTY N)) \/
  (for_each (separation_body self order times) xs tt = Ok (Next tt) /\
   forall q, In q xs -> separated self order times q).
Proof.
  induction xs as [|x xs IH]; intros Hxs.
  - right. split; [reflexivity|intros q []].
  - cbn [for_each]. rewrite separation_body_spec by (auto using in_eq).
    destruct (Z.ltb_spec (at_ times x)
                (at_ times (x - 1) +
                 separation_of self (at_ order (x - 1)) (at_ order x)))
      as [Hlt|Hge]; [now left|].
    destruct IH as [->|(-> & Hall)];
      [intros; apply Hxs; now right|now left|].
    right. split; [reflexivity|].
    intros q [<-|Hq]; [exact Hge|now apply Hall].
Qed.
End EvaluatorLoops.

(** A candidate is stopped by the guards of lines 87-93, or it is
    permutation-valid. *)
Lemma structural_guards {N : Numeric} (self : AircraftLandingProblem N)
    (solution : Solution) :
  evaluate_solution self solution = Ok (PENALTY N) \/
  exists order times,
    solution = candidate order times /\
    permutation_valid (nb_planes self) order times.
Proof.
  destruct solution as [[order|] [times|]]; try (now left).
  unfold evaluate_solution. cbn [landing_order landing_times].
  destruct (Z.eqb_spec (len order) (nb_planes self)) as [Ho|Ho];
    [|now left].
  destruct (Z.eqb_spec (len times) (nb_planes self)) as [Ht|Ht];
    [|now left].
  cbn [negb orb].
  destruct (list_eqb (sorted order) (range (nb_planes self))) eqn:E;
    [|now left].
  apply sorted_range_iff in E. right. exists order, times.
  split; [reflexivity|]. repeat split; assumption.
Qed.

(** ** Outcomes of the evaluator *)

Lemma getitem_raise {A : Type} (l : list A) (i : Z) (e : exn) :
  getitem l i = Raise e -> e = IndexError.
Proof.
  unfold getitem. destruct (_ && _); [|now intros [= <-]].
  destruct (nth_error _ _); [discriminate|now intros [= <-]].
Qed.

Lemma plane_cost_raise {N : Numeric} (self : AircraftLandingProblem N)
    (plane lt : Z) (e : exn) :
  plane_cost self plane lt = Raise e ->
  e = OverflowError /\
  ~ converts (N := N) (Z.abs (lt - target_of self plane)).
Proof.
  unfold plane_cost, int_mul, converts.
  destruct (Z.ltb_spec lt (target_of self plane)).
  - replace (Z.abs (lt - target_of self plane))
      with (target_of self plane - lt) by lia.
    destruct (of_int N _); [discriminate|]. intros [= <-]. split; auto.
  - replace (Z.abs (lt - target_of self plane))
      with (lt - target_of self plane) by lia.
    destruct (of_int N _); [discriminate|]. intros [= <-]. split; auto.
Qed.

Section EvaluatorOutcomes.
Context {N : Numeric}.
Variable self : AircraftLandingProblem N.
Variables order times : list Z.
Hypothesis Hwf : well_formed self.
Hypothesis Hvalid : permutation_valid (nb_planes self) order times.

Let n := nb_planes self.

(** The three ways the first loop can end. *)
Lemma cost_loop_outcome (xs : list Z) (total : num N) :
  (forall q, In q xs -> 0 <= q < n) ->
  match for_each (cost_body self order times) xs total with
  | Ok (Return v) =>
      v = PENALTY N /\ exists q, In q xs /\ ~ in_window self order times q
  | Ok (Next total') =>
      (forall q, In q xs -> in_window self order times q) /\
      (forall q, In q xs ->
                 converts (N := N) (deviation self order times q)) /\
      total' = fold_left
                 (fun a p => add N a (cost_term self (at_ order p) (at_ times p)))
                 xs total
  | Raise e =>
      e = OverflowError /\
      exists q, In q xs /\ in_window self order times q /\
                ~ converts (N := N) (deviation self order times q)
  end.
Proof.
  revert total. induction xs as [|x xs IH]; intros total Hxs.
  - cbn. split; [|split]; [intros q []|intros q []|reflexivity].
  - cbn [for_each fold_left].
    destruct (in_window_dec self order times x) as [Hin|Hout].
    2:{ rewrite (cost_body_outside self order times Hwf Hvalid)
          by (auto using in_eq).
        split; [reflexivity|]. exists x. auto using in_eq. }
    rewrite (cost_body_inside self order times Hwf Hvalid)
      by (auto using in_eq).
    destruct (plane_cost self (at_ order x) (at_ times x)) as [c|e] eqn:Ec;
      cbn [bind].
    + assert (Hconv : converts (N := N) (deviation self order times x)).
      { unfold deviation, converts. intros Hnone.
        unfold plane_cost, int_mul in Ec.
        destruct (Z.ltb_spec (at_ times x) (target_of self (at_ order x))).
        - replace (Z.abs (at_ times x - target_of self (at_ order x)))
            with (target_of self (at_ order x) - at_ times x) in Hnone by lia.
          now rewrite Hnone in Ec.
        - replace (Z.abs (at_ times x - target_of self (at_ order x)))
            with (at_ times x - target_of self (at_ order x)) in Hnone by lia.
          now rewrite Hnone in Ec. }
      specialize (IH (add N total c) (fun q Hq => Hxs q (in_cons _ _ _ Hq))).
      destruct (for_each (cost_body self order times) xs (add N total c))
        as [[total'|v]|e].
      * destruct IH as (Hall & Hcs & ->). split; [|split].
        -- intros q [<-|Hq]; auto.
        -- intros q [<-|Hq]; auto.
        -- replace (cost_term self (at_ order x) (at_ times x)) with c
             by (unfold cost_term; now rewrite Ec).
           reflexivity.
      * destruct IH as (-> & q & Hq & Hnq). split; [reflexivity|].
        exists q. auto using in_cons.
      * destruct IH as (-> & q & Hq & Hw & Hc). split; [reflexivity|].
        exists q. auto using in_cons.
    + destruct (plane_cost_raise self _ _ _ Ec) as (-> & Hc).
      split; [reflexivity|]. exists x. auto using in_eq.
Qed.

(** The two ways the second loop can end; it does not raise. *)
Lemma separation_loop_outcome (xs : list Z) :
  (forall q, In q xs -> 1 <= q < n) ->
  match for_each (separation_body self order times) xs tt with
  | Ok (Return v) =>
      v = PENALTY N /\ exists q, In q xs /\ ~ separated self order times q
  | Ok (Next _) => forall q, In q xs -> separated self order times q
  | Raise _ => False
  end.
Proof.
  induction xs as [|x xs IH]; intros Hxs.
  - cbn. intros q [].
  - cbn [for_each].
    rewrite (separation_body_spec self order times Hwf Hvalid)
      by (auto using in_eq).
    destruct (Z.ltb_spec (at_ times x)
                (at_ times (x - 1) +
                 separation_of self (at_ order (x - 1)) (at_ order x)))
      as [Hlt|Hge].
    + split; [reflexivity|]. exists x. split; [apply in_eq|].
      unfold separated. lia.
    + specialize (IH (fun q Hq => Hxs q (in_cons _ _ _ Hq))).
      destruct (for_each (separation_body self order times) xs tt)
        as [[u|v]|e]; [|destruct IH as (-> & q & Hq & Hnq)|exact IH].
      * intros q [<-|Hq]; [exact Hge|now apply IH].
      * split; [reflexivity|]. exists q. auto using in_cons.
Qed.

(** The evaluation of a permutation-valid candidate: the sentinel for an
    infeasible one, the accumulated cost for a feasible one, and
    [OverflowError] when a landing inside its window has a deviation that
    does not convert. *)
Lemma evaluate_valid_outcome :
  match evaluate_solution self (candidate order times) with
  | Ok v =>
      (v = PENALTY N /\ ~ feasible self order times) \/
      (feasible self order times /\
       (forall q, 0 <= q < n ->
                  converts (N := N) (deviation self order times q)) /\
       v = accumulated_cost self order times)
  | Raise e =>
      e = OverflowError /\
      exists q, 0 <= q < n /\ in_window self order times q /\
                ~ converts (N := N) (deviation self order times q)
  end.
Proof.
  rewrite (evaluate_solution_valid self order times Hvalid).
  pose proof (cost_loop_outcome (range n) (zero N)
                (fun q Hq => proj1 (range_In n q) Hq)) as H1.
  fold n.
  destruct (for_each (cost_body self order times) (range n) (zero N))
    as [[total|v]|e]; cbn [bind].
  - destruct H1 as (Hwin & Hconv & Htotal).
    pose proof (separation_loop_outcome (range2 1 n)
                  (fun q Hq => proj1 (range2_In 1 n q) Hq)) as H2.
    destruct (for_each (separation_body self order times) (range2 1 n) tt)
      as [[u|v]|e]; cbn [bind]; [| |contradiction].
    + right. split; [|split].
      * split; [exact Hvalid|]. split.
        -- intros q Hq. apply Hwin. now apply range_In.
        -- intros q Hq. apply H2. now apply range2_In.
      * intros q Hq. apply Hconv. now apply range_In.
      * exact Htotal.
    + destruct H2 as (-> & q & Hq & Hnq). left. split; [reflexivity|].
      intros (_ & _ & Hsep). apply Hnq, Hsep. now apply range2_In.
  - destruct H1 as (-> & q & Hq & Hnq). left. split; [reflexivity|].
    intros (_ & Hwin & _). apply Hnq, Hwin. now apply range_In.
  - destruct H1 as (-> & q & Hq & Hw & Hc). split; [reflexivity|].
    exists q. split; [now apply range_In|auto].
Qed.
End EvaluatorOutcomes.

(** Well-formedness and permutation validity of the examples. *)
Ltac solve_well_formed :=
  unfold well_formed, covers, len; cbn;
  repeat split; try lia;
  let i := fresh "i" in
  let Hi := fresh "Hi" in
  let Hc := fresh "Hc" in
  intros i Hi;
  assert (Hc : i = 0 \/ i = 1 \/ i = 2) by lia;
  destruct Hc as [Hc|[Hc|Hc]]; subst i; (lia || (cbn; lia) || (vm_compute; discriminate)).

Lemma one_plane_well_formed : well_formed one_plane.
Proof. solve_well_formed. Qed.

Lemma two_planes_well_formed : well_formed two_planes.
Proof. solve_well_formed. Qed.

Lemma huge_window_well_formed : well_formed huge_window.
Proof. solve_well_formed. Qed.

Lemma permutation_valid_identity (n : Z) (times : list Z) :
  0 <= n -> len times = n -> permutation_valid n (range n) times.
Proof.
  intros Hn Ht. repeat split; [reflexivity|now apply range_len|exact Ht].
Qed.

Lemma permutation_valid_swap (t0 t1 : Z) : permutation_valid 2 [1; 0] [t0; t1].
Proof. repeat split. apply perm_swap. Qed.


(** ** The evaluator: structure, windows, separation *)

(** C2.  Whatever the instance, a candidate in which [landing_order] or
    [landing_times] is missing, or has a length other than the number of
    planes, or whose [landing_order] is not a permutation of [0 .. N-1],
    evaluates to the infeasibility sentinel [1e9]. *)
Theorem evaluate_solution_rejects_invalid_structure
    {N : Numeric} (self : AircraftLandingProblem N) (solution : Solution) :
  structurally_invalid (nb_planes self) solution ->
  evaluate_solution self solution = Ok (PENALTY N).
Proof.
  unfold structurally_invalid, evaluate_solution.
  destruct (landing_order solution) as [order|]; [|reflexivity].
  destruct (landing_times solution) as [times|]; [|reflexivity].
  intros H.
  destruct (Z.eqb_spec (len order) (nb_planes self)) as [Ho|Ho];
    [|reflexivity].
  destruct (Z.eqb_spec (len times) (nb_planes self)) as [Ht|Ht];
    [|reflexivity].
  cbn [negb orb].
  destruct (list_eqb (sorted order) (range (nb_planes self))) eqn:E;
    [|reflexivity].
  apply sorted_range_iff in E. tauto.
Qed.

Lemma evaluate_solution_rejects_invalid_structure_witness :
  structurally_invalid (nb_planes two_planes) (candidate [0; 0] [10; 30]) /\
  evaluate_solution two_planes (candidate [0; 0] [10; 30])
  = Ok (PENALTY binary64).
Proof.
  assert (H : structurally_invalid (nb_planes two_planes)
                (candidate [0; 0] [10; 30])).
  { right. right. intros HP.
    assert (Hin : In 1 [0; 0])
      by (eapply Permutation_in; [symmetry; exact HP|apply range_In; cbn; lia]).
    cbn in Hin. lia. }
  split; [exact H|].
  exact (evaluate_solution_rejects_invalid_structure two_planes _ H).
Defined.

(** The guards come before any use of the instance: they also stop a
    candidate on an instance whose arrays are too short. *)
Example missing_key_infeasible :
  evaluate_solution short_arrays
    {| landing_order := Some [0]; landing_times := None |}
  = Ok F64.PENALTY.
Proof. reflexivity. Qed.

Example out_of_range_infeasible :
  evaluate_solution short_arrays (candidate [1] [10]) = Ok F64.PENALTY.
Proof. reflexivity. Qed.

Example wrong_length_infeasible :
  evaluate_solution two_planes (candidate [0; 1] [10; 30; 40])
  = Ok F64.PENALTY.
Proof. reflexivity. Qed.

(** X16.  In a well-formed instance, a permutation-valid candidate with a
    landing outside the window of its plane evaluates to the sentinel,
    provided the deviation from target of each in-window landing before it
    converts to a float. *)
Theorem evaluate_solution_rejects_window_violation
    {N : Numeric} (self : AircraftLandingProblem N)
    (order times : list Z) (p : Z) :
  well_formed self ->
  permutation_valid (nb_planes self) order times ->
  0 <= p < nb_planes self ->
  ~ in_window self order times p ->
  (forall q, 0 <= q < p -> in_window self order times q ->
             converts (N := N) (deviation self order times q)) ->
  evaluate_solution self (candidate order times) = Ok (PENALTY N).
Proof.
  intros Hwf Hvalid Hp Hout Hconv.
  rewrite (evaluate_solution_valid self order times Hvalid).
  unfold range. rewrite (range2_split 0 p) by lia.
  rewrite for_each_return with (r := PENALTY N); [reflexivity| |].
  - intros q total Hq. apply range2_In in Hq.
    destruct (in_window_dec self order times q) as [Hin|Hnin].
    + right. rewrite (cost_body_inside self order times Hwf Hvalid) by (auto; lia).
      destruct (plane_cost_converts self _ _ (Hconv q Hq Hin)) as (c & ->).
      now eexists.
    + left. apply (cost_body_outside self order times Hwf Hvalid); [lia|exact Hnin].
  - intros total. now apply (cost_body_outside self order times Hwf Hvalid).
Qed.

Lemma evaluate_solution_rejects_window_violation_witness :
  evaluate_solution two_planes (candidate [1; 0] [30; 60])
  = Ok (PENALTY binary64).
Proof.
  apply (evaluate_solution_rejects_window_violation two_planes [1; 0] [30; 60] 1).
  - exact two_planes_well_formed.
  - apply permutation_valid_swap.
  - cbn; lia.
  - unfold in_window, earliest_of, latest_of, at_; simpl; lia.
  - intros q Hq _. assert (q = 0) as -> by lia. vm_compute. discriminate.
Defined.

(** C3.  The evaluator at a candidate with a landing outside its window, for
    which its documentation promises the large penalty: on a well-formed
    instance of two planes, plane 0 lands inside its window, [2^1100] before
    its target, and plane 1 lands at 11, after its latest time 10.  The cost
    of plane 0 is computed first, its deviation does not convert to a float,
    and the evaluator raises [OverflowError] where the sentinel is due. *)
Lemma window_violation_overflow :
  well_formed huge_window /\
  permutation_valid (nb_planes huge_window) [0; 1] [0; 11] /\
  ~ in_window huge_window [0; 1] [0; 11] 1 /\
  evaluate_solution huge_window (candidate [0; 1] [0; 11])
  = Raise OverflowError.
Proof.
  split; [exact huge_window_well_formed|].
  split; [now apply (permutation_valid_identity 2)|].
  split; [unfold in_window, earliest_of, latest_of, at_; simpl; lia|].
  vm_compute. reflexivity.
Qed.

(** X17.  In a well-formed instance, a permutation-valid candidate whose
    landings are all inside their windows, with deviations from target that
    convert to floats, and in which two consecutive landings are closer than
    the separation time of their planes, evaluates to the sentinel: the first
    loop runs to its end with an accumulated cost, and the separation check
    made after it returns the sentinel instead. *)
Theorem evaluate_solution_rejects_separation_violation
    {N : Numeric} (self : AircraftLandingProblem N)
    (order times : list Z) (p : Z) :
  well_formed self ->
  permutation_valid (nb_planes self) order times ->
  (forall q, 0 <= q < nb_planes self -> in_window self order times q) ->
  (forall q, 0 <= q < nb_planes self ->
             converts (N := N) (deviation self order times q)) ->
  1 <= p < nb_planes self ->
  ~ separated self order times p ->
  (exists total_cost,
     for_each (cost_body self order times) (range (nb_planes self)) (zero N)
     = Ok (Next total_cost)) /\
  evaluate_solution self (candidate order times) = Ok (PENALTY N).
Proof.
  intros Hwf Hvalid Hwin Hconv Hp Hsep.
  destruct (for_each_next (cost_body self order times) (fun _ => True)
              (range (nb_planes self)) (zero N) I) as (total & Hloop & _).
  { intros q s Hq _. apply range_In in Hq.
    rewrite (cost_body_inside self order times Hwf Hvalid) by auto.
    destruct (plane_cost_converts self _ _ (Hconv q Hq)) as (c & ->).
    now eexists. }
  split; [now exists total|].
  rewrite (evaluate_solution_valid self order times Hvalid), Hloop.
  cbn [bind]. rewrite (range2_split 1 p) by lia.
  rewrite for_each_return with (r := PENALTY N); [reflexivity| |].
  - intros q [] Hq. apply range2_In in Hq.
    rewrite (separation_body_spec self order times Hwf Hvalid) by lia.
    destruct (_ <? _); [now left|right; now eexists].
  - intros []. rewrite (separation_body_spec self order times Hwf Hvalid) by lia.
    unfold separated in Hsep.
    destruct (Z.ltb_spec (at_ times p)
                (at_ times (p - 1) +
                 separation_of self (at_ order (p - 1)) (at_ order p)));
      [reflexivity|lia].
Qed.

Lemma evaluate_solution_rejects_separation_violation_witness :
  evaluate_solution two_planes (candidate [0; 1] [10; 12])
  = Ok (PENALTY binary64).
Proof.
  apply (evaluate_solution_rejects_separation_violation
           two_planes [0; 1] [10; 12] 1).
  - exact two_planes_well_formed.
  - now apply (permutation_valid_identity 2).
  - intros q Hq. assert (Hc : q = 0 \/ q = 1) by (cbn in Hq; lia).
    destruct Hc; subst q;
      unfold in_window, earliest_of, latest_of, at_; simpl; lia.
  - intros q Hq. assert (Hc : q = 0 \/ q = 1) by (cbn in Hq; lia).
    destruct Hc; subst q; vm_compute; discriminate.
  - cbn; lia.
  - unfold separated, separation_of, at_; simpl; lia.
Defined.

(** C4.  The evaluator at a candidate whose consecutive landings break the
    separation time, for which its documentation promises the large
    penalty: on a well-formed instance of two planes, plane 0 lands at 5 and
    plane 1 at 3, both inside their windows and in the wrong order for any
    separation.  The cost of plane 0, whose target is [2^1100], is computed
    before the separations are checked, its deviation does not convert to a
    float, and the evaluator raises [OverflowError] where the sentinel is
    due. *)
Lemma separation_violation_overflow :
  well_formed huge_window /\
  permutation_valid (nb_planes huge_window) [0; 1] [5; 3] /\
  (forall q, 0 <= q < nb_planes huge_window ->
             in_window huge_window [0; 1] [5; 3] q) /\
  ~ separated huge_window [0; 1] [5; 3] 1 /\
  evaluate_solution huge_window (candidate [0; 1] [5; 3])
  = Raise OverflowError.
Proof.
  split; [exact huge_window_well_formed|].
  split; [now apply (permutation_valid_identity 2)|].
  split.
  { intros q Hq. assert (Hc : q = 0 \/ q = 1) by (cbn in Hq; lia).
    destruct Hc; subst q;
      unfold in_window, earliest_of, latest_of, at_; simpl; lia. }
  split; [unfold separated, separation_of, at_; simpl; lia|].
  vm_compute. reflexivity.
Qed.

(** ** Totality of the evaluator *)

(** C1.  On a well-formed instance whose in-window deviations convert to
    floats, the evaluator returns a cost for every candidate and never raises;
    the cost is the sentinel unless the candidate has both keys and passes
    every check. *)
Theorem evaluate_solution_total
    {N : Numeric} (self : AircraftLandingProblem N) (solution : Solution) :
  well_formed self ->
  representable self ->
  exists v,
    evaluate_solution self solution = Ok v /\
    (v = PENALTY N \/
     exists order times,
       solution = candidate order times /\ feasible self order times).
Proof.
  intros Hwf Hrep.
  destruct (structural_guards self solution)
    as [->|(order & times & -> & Hvalid)];
    [exists (PENALTY N); split; [reflexivity|now left]|].
  rewrite (evaluate_solution_valid self order times Hvalid).
  destruct (cost_loop_cases self order times Hwf Hvalid
              (range (nb_planes self)) (zero N))
    as [->|((total & ->) & Hwin)].
  - intros q Hq. now apply range_In.
  - intros q Hq Hin. apply range_In in Hq. unfold deviation.
    apply Hrep; [|exact Hin].
    exact (permutation_valid_plane _ _ _ _ Hvalid Hq).
  - exists (PENALTY N). split; [reflexivity|now left].
  - cbn [bind].
    destruct (separation_loop_cases self order times Hwf Hvalid
                (range2 1 (nb_planes self))) as [->|(-> & Hsep)].
    + intros q Hq. now apply range2_In.
    + exists (PENALTY N). split; [reflexivity|now left].
    + exists total. split; [reflexivity|right].
      exists order, times. split; [reflexivity|].
      split; [exact Hvalid|]. split.
      * intros q Hq. apply Hwin. now apply range_In.
      * intros q Hq. apply Hsep. now apply range2_In.
Qed.

(** ** Conversion of small integers to binary64 *)

Lemma digits2_pos_lower (m : positive) :
  2 ^ (Zpos (digits2_pos m) - 1) <= Zpos m.
Proof.
  induction m as [m IH|m IH|]; cbn [digits2_pos].
  - rewrite Pos2Z.inj_succ. replace (Z.succ (Zpos (digits2_pos m)) - 1)
      with (Z.succ (Zpos (digits2_pos m) - 1)) by lia.
    rewrite Z.pow_succ_r by lia. lia.
  - rewrite Pos2Z.inj_succ. replace (Z.succ (Zpos (digits2_pos m)) - 1)
      with (Z.succ (Zpos (digits2_pos m) - 1)) by lia.
    rewrite Z.pow_succ_r by lia. lia.
  - cbn. lia.
Qed.

Lemma digits2_pos_small (m : positive) :
  Zpos m < 2 ^ 53 -> Zpos (digits2_pos m) <= 53.
Proof.
  intros Hm. destruct (Z_le_gt_dec (Zpos (digits2_pos m)) 53) as [H|H];
    [exact H|exfalso].
  pose proof (digits2_pos_lower m) as Hlow.
  assert (2 ^ 53 <= 2 ^ (Zpos (digits2_pos m) - 1))
    by (apply Z.pow_le_mono_r; lia).
  lia.
Qed.

Lemma digits2_pos_iter (m d : positive) :
  digits2_pos (Pos.iter xO m d) = (digits2_pos m + d)%positive.
Proof.
  induction d as [|d IH] using Pos.peano_ind.
  - cbn. lia.
  - rewrite Pos.iter_succ. cbn [digits2_pos]. rewrite IH. lia.
Qed.

(** A mantissa of 53 digits with an exponent in range is its own rounding. *)
Lemma binary_round_aux_canonical (s : bool) (m : positive) (e : Z) :
  Zpos (digits2_pos m) = 53 -> -1074 <= e <= 971 ->
  binary_round_aux F64.prec F64.emax s (Zpos m) e loc_Exact
  = S754_finite s m e.
Proof.
  intros Hd He.
  assert (Hshift : shr_fexp F64.prec F64.emax (Zpos m) e loc_Exact
                   = ({| shr_m := Zpos m; shr_r := false; shr_s := false |}, e)).
  { unfold shr_fexp, fexp, emin, F64.prec, F64.emax. cbn [Zdigits2].
    rewrite Hd.
    replace (Z.max (53 + e - 53) (3 - 1024 - 53) - e) with 0 by lia.
    reflexivity. }
  unfold binary_round_aux. rewrite Hshift. cbn [shr_m loc_of_shr_record
    round_nearest_even]. rewrite Hshift. cbn [shr_m].
  unfold F64.prec, F64.emax.
  destruct (Z.leb_spec e (1024 - 53)); [reflexivity|lia].
Qed.

Lemma binary_round_small (s : bool) (m : positive) :
  Zpos m < 2 ^ 53 ->
  exists m' e', binary_round F64.prec F64.emax s m 0 = S754_finite s m' e'.
Proof.
  intros Hm. pose proof (digits2_pos_small m Hm) as Hk.
  unfold binary_round, fexp, emin, F64.prec, F64.emax.
  set (k := Zpos (digits2_pos m)) in *.
  assert (Hk1 : 1 <= k) by (subst k; lia).
  replace (Z.max (k + 0 - 53) (3 - 1024 - 53)) with (k - 53) by lia.
  unfold shl_align.
  destruct (k - 53 - 0) as [|d|d] eqn:Ed; try lia.
  - exists m, 0. apply binary_round_aux_canonical; [fold k; lia|lia].
  - exists (Pos.iter xO m d), (k - 53).
    apply binary_round_aux_canonical; [|lia].
    rewrite digits2_pos_iter, Pos2Z.inj_add. fold k. lia.
Qed.

(** Every integer below [2^53] in magnitude converts to a float. *)
Lemma F64_of_int_small (d : Z) :
  Z.abs d < 2 ^ 53 -> converts (N := binary64) d.
Proof.
  intros Hd. unfold converts. cbn [of_int binary64]. unfold F64.of_int.
  destruct d as [|m|m]; cbn [binary_normalize].
  - discriminate.
  - destruct (binary_round_small false m) as (m' & e' & ->); [lia|discriminate].
  - destruct (binary_round_small true m) as (m' & e' & ->); [lia|discriminate].
Qed.

(** The conversion fails from [2^1024 - 2^970] on, the first integer that
    rounds to [2^1024]. *)
Example of_int_overflow :
  F64.of_int (2 ^ 1024 - 2 ^ 970) = None /\
  F64.of_int (2 ^ 1024 - 2 ^ 970 - 1) = Some (SFmax_float F64.prec F64.emax).
Proof. split; vm_compute; reflexivity. Qed.

Lemma one_plane_representable : representable one_plane.
Proof.
  intros plane t Hplane Ht. apply F64_of_int_small.
  assert (plane = 0) as -> by (cbn in Hplane; lia).
  unfold earliest_of, latest_of, target_of, at_ in *. simpl in *. lia.
Qed.

Lemma evaluate_solution_total_witness :
  exists v,
    evaluate_solution one_plane (candidate [0] [15]) = Ok v /\
    (v = PENALTY binary64 \/
     exists order times,
       candidate [0] [15] = candidate order times /\
       feasible one_plane order times).
Proof.
  exact (evaluate_solution_total one_plane (candidate [0] [15])
           one_plane_well_formed one_plane_representable).
Defined.

(** The evaluator raises on an instance whose arrays are shorter than its
    number of planes, and on a well-formed instance when the deviation of a
    feasible landing is too large for a float. *)
Lemma evaluate_solution_raises :
  evaluate_solution short_arrays (candidate [0] [0]) = Raise IndexError /\
  (well_formed huge_window /\
   feasible huge_window [0; 1] [0; 5] /\
   evaluate_solution huge_window (candidate [0; 1] [0; 5])
   = Raise OverflowError).
Proof.
  split; [vm_compute; reflexivity|].
  split; [exact huge_window_well_formed|].
  split; [|vm_compute; reflexivity].
  split; [now apply (permutation_valid_identity 2)|]. split.
  - intros q Hq. assert (Hc : q = 0 \/ q = 1) by (cbn in Hq; lia).
    destruct Hc; subst q;
      unfold in_window, earliest_of, latest_of, at_; simpl; lia.
  - intros q Hq. assert (q = 1) as -> by (cbn in Hq; lia).
    unfold separated, separation_of, at_; simpl; lia.
Qed.

(** Direct construction checks that the arrays are there, not that they
    agree with the number of planes. *)
Example direct_construction_unvalidated :
  __init__ dec_int dec_float None (Some 1) (Some []) (Some [10]) (Some [20])
    (Some [float_of 2]) (Some [float_of 3]) (Some [[0]])
  = Ok short_arrays.
Proof. reflexivity. Qed.

(** ** The integers that convert to binary64 *)

Lemma iter_pos_iter {A : Type} (f : A -> A) (p : positive) (x : A) :
  iter_pos f p x = Pos.iter f x p.
Proof.
  revert x. induction p as [p IH|p IH|]; intros x; cbn.
  - rewrite !IH. now rewrite <- !Pos.iter_swap.
  - now rewrite !IH.
  - reflexivity.
Qed.

Lemma shr_1_spec (m : Z) (r s : bool) :
  0 <= m ->
  shr_1 {| shr_m := m; shr_r := r; shr_s := s |}
  = {| shr_m := m / 2; shr_r := Z.odd m; shr_s := r || s |}.
Proof.
  intros Hm. destruct m as [|[p|p|]|p]; try lia; cbn [shr_1].
  - reflexivity.
  - f_equal. rewrite Pos2Z.inj_xI.
    apply Z.div_unique with (r := 1); lia.
  - f_equal. rewrite Pos2Z.inj_xO.
    apply Z.div_unique with (r := 0); lia.
  - reflexivity.
Qed.

(** Shifting [p] bits out: the mantissa is divided by [2^p], the round bit is
    the last bit shifted out. *)
Lemma shr_iter_spec (m : Z) (p : positive) :
  0 <= m ->
  let mrs := iter_pos shr_1 p {| shr_m := m; shr_r := false; shr_s := false |} in
  shr_m mrs = m / 2 ^ Zpos p /\
  shr_r mrs = Z.testbit m (Zpos p - 1).
Proof.
  intros Hm. cbn zeta. rewrite iter_pos_iter.
  induction p as [|p IH] using Pos.peano_ind.
  - cbn [Pos.iter]. rewrite shr_1_spec by assumption. cbn [shr_m shr_r].
    split; [reflexivity|]. now rewrite Z.bit0_odd.
  - rewrite Pos.iter_succ. destruct IH as (IHm & _).
    destruct (Pos.iter shr_1 _ p) as [m' r' s']. cbn [shr_m] in IHm. subst m'.
    rewrite shr_1_spec by (apply Z.div_pos; lia). cbn [shr_m shr_r].
    rewrite Pos2Z.inj_succ. split.
    + rewrite Z.pow_succ_r, Z.div_div by lia. f_equal. lia.
    + replace (Z.succ (Zpos p) - 1) with (Zpos p) by lia.
      rewrite Z.testbit_odd, Z.shiftr_div_pow2 by lia. reflexivity.
Qed.

Lemma digits2_pos_upper (m : positive) : Zpos m < 2 ^ Zpos (digits2_pos m).
Proof.
  induction m as [m IH|m IH|]; cbn [digits2_pos].
  - rewrite Pos2Z.inj_succ, Z.pow_succ_r by lia. lia.
  - rewrite Pos2Z.inj_succ, Z.pow_succ_r by lia. lia.
  - cbn. lia.
Qed.

Lemma digits2_pos_unique (m : positive) (d : Z) :
  2 ^ (d - 1) <= Zpos m < 2 ^ d -> Zpos (digits2_pos m) = d.
Proof.
  intros (Hlo & Hhi).
  pose proof (digits2_pos_lower m) as Hl.
  pose proof (digits2_pos_upper m) as Hu.
  set (k := Zpos (digits2_pos m)) in *.
  assert (Hk : 1 <= k) by (subst k; lia).
  assert (Hd : 1 <= d).
  { destruct (Z_lt_le_dec d 1) as [H|H]; [|exact H].
    assert (2 ^ d <= 2 ^ 0) by (destruct (Z_lt_le_dec d 0);
      [rewrite Z.pow_neg_r by lia; cbn; lia|apply Z.pow_le_mono_r; lia]).
    cbn in *. lia. }
  destruct (Z_lt_le_dec k d) as [H|H].
  - assert (2 ^ k <= 2 ^ (d - 1)) by (apply Z.pow_le_mono_r; lia). lia.
  - destruct (Z_lt_le_dec d k) as [H'|H']; [|lia].
    assert (2 ^ d <= 2 ^ (k - 1)) by (apply Z.pow_le_mono_r; lia). lia.
Qed.

Lemma round_nearest_even_bounds (mrs : shr_record) :
  let m' := round_nearest_even (shr_m mrs) (loc_of_shr_record mrs) in
  shr_m mrs <= m' <= shr_m mrs + 1 /\
  (shr_r mrs = false -> m' = shr_m mrs) /\
  (shr_r mrs = true -> Z.odd (shr_m mrs) = true -> m' = shr_m mrs + 1).
Proof.
  destruct mrs as [m [] []]; cbn; rewrite <- ?Z.negb_odd;
    destruct (Z.odd m); cbn; repeat split; intros; try lia;
    try discriminate; reflexivity.
Qed.

(** The second normalisation in [binary_round_aux]: a mantissa of 53 digits
    stays, the mantissa [2^53] loses a digit to the exponent; the result is
    an infinity when the exponent ends above 971. *)
Lemma binary_round_renormalise (sx : bool) (m2 e : Z) :
  2 ^ 52 <= m2 <= 2 ^ 53 -> 0 <= e ->
  (let '(mrs, e'') := shr_fexp F64.prec F64.emax m2 e loc_Exact in
   match shr_m mrs with
   | Z0 => S754_zero sx
   | Zpos m => if e'' <=? F64.emax - F64.prec then S754_finite sx m e''
               else S754_infinity sx
   | Zneg _ => S754_nan
   end)
  = if m2 <? 2 ^ 53
    then if e <=? 971 then S754_finite sx (Z.to_pos m2) e
         else S754_infinity sx
    else if e + 1 <=? 971 then S754_finite sx (2 ^ 52) (e + 1)
         else S754_infinity sx.
Proof.
  intros Hm2 He.
  destruct m2 as [|q|q]; try lia.
  destruct (Z.ltb_spec (Zpos q) (2 ^ 53)) as [Hlt|Hge].
  - assert (Hd : Zpos (digits2_pos q) = 53)
      by (apply digits2_pos_unique; lia).
    unfold shr_fexp, fexp, emin, F64.prec, F64.emax. cbn [Zdigits2].
    rewrite Hd.
    replace (Z.max (53 + e - 53) (3 - 1024 - 53) - e) with 0 by lia.
    reflexivity.
  - assert (Zpos q = 2 ^ 53) as Hq by lia.
    assert (Hd : Zpos (digits2_pos q) = 54)
      by (apply digits2_pos_unique; rewrite Hq; cbn; lia).
    unfold shr_fexp, fexp, emin, F64.prec, F64.emax. cbn [Zdigits2].
    rewrite Hd.
    replace (Z.max (54 + e - 53) (3 - 1024 - 53) - e) with 1 by lia.
    cbn [shr shr_record_of_loc iter_pos].
    rewrite shr_1_spec by lia. cbn [shr_m]. rewrite Hq.
    reflexivity.
Qed.

(** Rounding of a positive integer of at least 54 digits: the first shift
    leaves 53 digits, and the rounded mantissa goes through the second
    normalisation. *)
Lemma binary_round_shift (sx : bool) (m : positive) :
  2 ^ 53 <= Zpos m ->
  let s := Zpos (digits2_pos m) - 53 in
  exists m2,
    1 <= s /\
    2 ^ 52 <= Zpos m / 2 ^ s < 2 ^ 53 /\
    Zpos m / 2 ^ s <= m2 <= Zpos m / 2 ^ s + 1 /\
    (Z.testbit (Zpos m) (s - 1) = false -> m2 = Zpos m / 2 ^ s) /\
    (Z.testbit (Zpos m) (s - 1) = true -> Z.odd (Zpos m / 2 ^ s) = true ->
     m2 = Zpos m / 2 ^ s + 1) /\
    binary_round F64.prec F64.emax sx m 0
    = if m2 <? 2 ^ 53
      then if s <=? 971 then S754_finite sx (Z.to_pos m2) s
           else S754_infinity sx
      else if s + 1 <=? 971 then S754_finite sx (2 ^ 52) (s + 1)
           else S754_infinity sx.
Proof.
  intros Hm.
  pose proof (digits2_pos_lower m) as Hlo.
  pose proof (digits2_pos_upper m) as Hup.
  cbn zeta. set (k := Zpos (digits2_pos m)) in *.
  assert (Hk : 54 <= k).
  { destruct (Z_lt_le_dec k 54) as [H|H]; [|exact H].
    assert (2 ^ k <= 2 ^ 53) by (apply Z.pow_le_mono_r; lia). lia. }
  unfold binary_round. fold k.
  assert (Hfexp : fexp F64.prec F64.emax (k + 0) = k - 53)
    by (unfold fexp, emin, F64.prec, F64.emax; lia).
  rewrite Hfexp. unfold shl_align.
  destruct (k - 53 - 0) as [|ps|ps] eqn:Es; try lia.
  unfold binary_round_aux, shr_fexp at 1. cbn [Zdigits2]. fold k.
  rewrite Hfexp. rewrite Es. cbn [shr shr_record_of_loc].
  assert (Hps : k - 53 = Zpos ps) by lia. rewrite Hps.
  destruct (shr_iter_spec (Zpos m) ps) as (Hm1 & Hr); [lia|].
  set (mrs := iter_pos shr_1 ps
                {| shr_m := Zpos m; shr_r := false; shr_s := false |}) in *.
  destruct (round_nearest_even_bounds mrs) as (Hb & Hdown & Hround).
  set (m2 := round_nearest_even (shr_m mrs) (loc_of_shr_record mrs)) in *.
  rewrite Hm1, ?Hr in *.
  assert (Hpow : 0 < 2 ^ Zpos ps) by (apply Z.pow_pos_nonneg; lia).
  assert (Hm1lo : 2 ^ 52 <= Zpos m / 2 ^ Zpos ps).
  { apply Z.div_le_lower_bound; [exact Hpow|].
    rewrite <- Z.pow_add_r by lia.
    replace (Zpos ps + 52) with (k - 1) by lia. exact Hlo. }
  assert (Hm1hi : Zpos m / 2 ^ Zpos ps < 2 ^ 53).
  { apply Z.div_lt_upper_bound; [exact Hpow|].
    rewrite <- Z.pow_add_r by lia.
    replace (Zpos ps + 53) with k by lia. exact Hup. }
  exists m2. repeat split; try lia; try assumption.
  replace (0 + Zpos ps) with (Zpos ps) by lia.
  apply binary_round_renormalise; lia.
Qed.

(** The integers of 54 digits or more that round to a finite double are
    those below [2^1024 - 2^970]. *)
Lemma binary_round_threshold (sx : bool) (m : positive) :
  2 ^ 53 <= Zpos m ->
  (Zpos m < 2 ^ 1024 - 2 ^ 970 ->
   exists m' e', binary_round F64.prec F64.emax sx m 0 = S754_finite sx m' e')
  /\
  (2 ^ 1024 - 2 ^ 970 <= Zpos m ->
   binary_round F64.prec F64.emax sx m 0 = S754_infinity sx).
Proof.
  intros Hm.
  destruct (binary_round_shift sx m Hm)
    as (m2 & Hs & Hm1 & Hm2 & Hdown & Hround & ->).
  pose proof (digits2_pos_lower m) as Hlo.
  pose proof (digits2_pos_upper m) as Hup.
  set (k := Zpos (digits2_pos m)) in *.
  assert (H1024 : 2 ^ 1024 = 18014398509481984 * 2 ^ 970)
    by (change 18014398509481984 with (2 ^ 54); rewrite <- Z.pow_add_r;
        [reflexivity|lia|lia]).
  assert (H971 : 2 ^ 971 = 2 * 2 ^ 970)
    by (rewrite <- (Z.pow_succ_r 2 970); [reflexivity|lia]).
  assert (H53 : 2 ^ 53 = 9007199254740992) by reflexivity.
  assert (H52 : 2 ^ 52 = 4503599627370496) by reflexivity.
  assert (HB : 0 < 2 ^ 970) by (apply Z.pow_pos_nonneg; lia).
  split.
  - intros Hlt.
    assert (Hk : k <= 1024).
    { destruct (Z_lt_le_dec 1024 k) as [H|H]; [|exact H].
      assert (2 ^ 1024 <= 2 ^ (k - 1)) by (apply Z.pow_le_mono_r; lia). lia. }
    destruct (Z.ltb_spec m2 (2 ^ 53)) as [Hsmall|Hcarry].
    { destruct (Z.leb_spec (k - 53) 971); [now eexists _, _|lia]. }
    destruct (Z.leb_spec (k - 53 + 1) 971) as [|Hover]; [now eexists _, _|].
    exfalso. assert (Hk' : k - 53 = 971) by lia. rewrite Hk' in *.
    replace (971 - 1) with 970 in * by lia.
    rewrite H971 in *. rewrite H1024 in Hlt.
    set (B := 2 ^ 970) in *.
    pose proof (Z.mul_div_le (Zpos m) (2 * B) ltac:(lia)) as Hmul.
    assert (Hdiv : Zpos m / B = 18014398509481982).
    { symmetry.
      apply Z.div_unique with (r := Zpos m - B * 18014398509481982); lia. }
    rewrite Z.testbit_odd, Z.shiftr_div_pow2 in Hdown by lia.
    fold B in Hdown. rewrite Hdiv in Hdown. specialize (Hdown eq_refl). lia.
  - intros Hge.
    assert (Hk : 1024 <= k).
    { destruct (Z_lt_le_dec k 1024) as [H|H]; [|exact H].
      assert (2 ^ k <= 2 ^ 1023) by (apply Z.pow_le_mono_r; lia).
      assert (2 ^ 1024 = 2 * 2 ^ 1023)
        by (rewrite <- (Z.pow_succ_r 2 1023); [reflexivity|lia]).
      assert (2 ^ 1023 = 9007199254740992 * 2 ^ 970)
        by (change 9007199254740992 with (2 ^ 53); rewrite <- Z.pow_add_r;
            [reflexivity|lia|lia]).
      lia. }
    destruct (Z.leb_spec (k - 53 + 1) 971) as [Hfit|_]; [lia|].
    destruct (Z.leb_spec (k - 53) 971) as [Hfit|_];
      [|now destruct (m2 <? 2 ^ 53)].
    assert (Hk' : k - 53 = 971) by lia. rewrite Hk' in *.
    replace (971 - 1) with 970 in * by lia.
    assert (Hk1024 : k = 1024) by lia. rewrite Hk1024 in Hup.
    rewrite H971 in *. rewrite H1024 in Hge, Hup.
    set (B := 2 ^ 970) in *.
    assert (Hdiv2 : Zpos m / (2 * B) = 9007199254740991).
    { symmetry.
      apply Z.div_unique with (r := Zpos m - 2 * B * 9007199254740991); lia. }
    assert (Hdiv : Zpos m / B = 18014398509481983).
    { symmetry.
      apply Z.div_unique with (r := Zpos m - B * 18014398509481983); lia. }
    rewrite Z.testbit_odd, Z.shiftr_div_pow2 in Hround by lia.
    fold B in Hround. rewrite Hdiv, Hdiv2 in Hround.
    specialize (Hround eq_refl eq_refl). rewrite Hround.
    reflexivity.
Qed.

(** The ints that convert to a float are those below [2^1024 - 2^970] in
    magnitude. *)
Lemma F64_converts_iff (d : Z) :
  converts (N := binary64) d <-> Z.abs d < 2 ^ 1024 - 2 ^ 970.
Proof.
  assert (Hsmall : 2 ^ 53 < 2 ^ 1024 - 2 ^ 970).
  { assert (2 ^ 1024 = 18014398509481984 * 2 ^ 970)
      by (change 18014398509481984 with (2 ^ 54); rewrite <- Z.pow_add_r;
          [reflexivity|lia|lia]).
    assert (2 ^ 53 <= 2 ^ 970) by (apply Z.pow_le_mono_r; lia). lia. }
  destruct (Z_lt_le_dec (Z.abs d) (2 ^ 53)) as [Hs|Hl].
  { split; [lia|]. intros _. now apply F64_of_int_small. }
  unfold converts. cbn [of_int binary64]. unfold F64.of_int.
  destruct d as [|m|m]; cbn [binary_normalize]; [cbn in Hl; lia| |].
  - destruct (binary_round_threshold false m) as (Hfin & Hinf); [lia|].
    destruct (Z_lt_le_dec (Zpos m) (2 ^ 1024 - 2 ^ 970)) as [H|H].
    + destruct (Hfin H) as (m' & e' & ->). split; [lia|discriminate].
    + rewrite (Hinf H). split; [intros Hc; now elim Hc|lia].
  - destruct (binary_round_threshold true m) as (Hfin & Hinf); [lia|].
    destruct (Z_lt_le_dec (Zpos m) (2 ^ 1024 - 2 ^ 970)) as [H|H].
    + destruct (Hfin H) as (m' & e' & ->). split; [lia|discriminate].
    + rewrite (Hinf H). split; [intros Hc; now elim Hc|lia].
Qed.

(** ** Signs in binary64 *)

Lemma shr_1_nonneg (mrs : shr_record) :
  0 <= shr_m mrs -> 0 <= shr_m (shr_1 mrs).
Proof.
  destruct mrs as [m r s]. cbn [shr_m]. intros Hm.
  rewrite shr_1_spec by assumption. cbn [shr_m]. apply Z.div_pos; lia.
Qed.

Lemma shr_iter_nonneg (p : positive) (mrs : shr_record) :
  0 <= shr_m mrs -> 0 <= shr_m (iter_pos shr_1 p mrs).
Proof.
  intros Hm. rewrite iter_pos_iter.
  apply Pos.iter_invariant; [|exact Hm].
  intros x Hx. now apply shr_1_nonneg.
Qed.

Lemma shr_fexp_nonneg (m e : Z) (l : location) :
  0 <= m -> 0 <= shr_m (fst (shr_fexp F64.prec F64.emax m e l)).
Proof.
  intros Hm. unfold shr_fexp, shr.
  assert (H0 : 0 <= shr_m (shr_record_of_loc m l))
    by (destruct l as [|[]]; exact Hm).
  destruct (_ - e) as [|p|p]; cbn [fst]; try exact H0.
  now apply shr_iter_nonneg.
Qed.

Lemma round_nearest_even_nonneg (m : Z) (l : location) :
  0 <= m -> 0 <= round_nearest_even m l.
Proof.
  intros Hm. destruct l as [|[]]; cbn; try destruct (Z.even m); lia.
Qed.

(** Rounding a mantissa that is not negative gives a zero, a number or an
    infinity of the sign asked for. *)
Lemma binary_round_aux_signed (sx : bool) (m e : Z) (l : location) :
  0 <= m -> signed sx (binary_round_aux F64.prec F64.emax sx m e l).
Proof.
  intros Hm. unfold binary_round_aux.
  pose proof (shr_fexp_nonneg m e l Hm) as H1.
  destruct (shr_fexp F64.prec F64.emax m e l) as [mrs' e']. cbn [fst] in H1.
  pose proof (shr_fexp_nonneg
                (round_nearest_even (shr_m mrs') (loc_of_shr_record mrs'))
                e' loc_Exact
                (round_nearest_even_nonneg _ _ H1)) as H2.
  destruct (shr_fexp F64.prec F64.emax _ e' loc_Exact) as [mrs'' e''].
  cbn [fst] in H2.
  destruct (shr_m mrs'') as [|q|q]; [reflexivity| |lia].
  destruct (e'' <=? _); reflexivity.
Qed.

Lemma binary_round_signed (sx : bool) (m : positive) (e : Z) :
  signed sx (binary_round F64.prec F64.emax sx m e).
Proof.
  unfold binary_round.
  destruct (shl_align m e _) as [mz ez].
  apply binary_round_aux_signed. lia.
Qed.

(** An int that is not negative converts to a zero or a positive number. *)
Lemma of_int_nonneg (d : Z) (f : F64.float) :
  0 <= d -> F64.of_int d = Some f ->
  f = S754_zero false \/ exists m e, f = S754_finite false m e.
Proof.
  intros Hd. unfold F64.of_int.
  destruct d as [|m|m]; try lia; cbn [binary_normalize].
  - intros [= <-]. now left.
  - pose proof (binary_round_signed false m 0) as Hs.
    destruct (binary_round F64.prec F64.emax false m 0) as [s|s| |s m' e'];
      cbn in Hs; try contradiction; subst; try discriminate.
    + intros [= <-]. now left.
    + intros [= <-]. right. now eexists _, _.
Qed.

Lemma mul_not_below_zero (f rate : F64.float) :
  (f = S754_zero false \/ exists m e, f = S754_finite false m e) ->
  nonnegative_rate rate = true ->
  not_below_zero (F64.mul f rate) = true.
Proof.
  intros Hf Hr. destruct rate as [s| | |[] mr er]; try discriminate.
  - destruct Hf as [->|(m & e & ->)]; reflexivity.
  - destruct Hf as [->|(m & e & ->)]; [reflexivity|].
    unfold F64.mul, SFmul.
    pose proof (binary_round_aux_signed (xorb false false)
                  (Zpos (m * mr)) (e + er) loc_Exact ltac:(lia)) as Hs.
    destruct (binary_round_aux _ _ _ _ _ _) as [s|s| |s m' e'];
      cbn in Hs; try contradiction; subst; reflexivity.
Qed.

(** Adding a term that is not below zero to a total that is not negative
    gives a total that is not negative: [0.0 + -0.0] is [0.0]. *)
Lemma add_not_negative (x y : F64.float) :
  not_negative x = true -> not_below_zero y = true ->
  not_negative (F64.add x y) = true.
Proof.
  intros Hx Hy.
  destruct x as [[]|[]| |[] mx ex]; try discriminate;
    destruct y as [sy|[]| |[] my ey]; try discriminate;
    try reflexivity.
  - destruct sy; reflexivity.
  - unfold F64.add, SFadd. cbn [cond_Zopp].
    match goal with
    | |- context [binary_normalize _ _ (Zpos ?a + Zpos ?b) ?e _] =>
        change (Zpos a + Zpos b) with (Zpos (a + b));
        cbn [binary_normalize];
        pose proof (binary_round_signed false (a + b) e) as Hs;
        destruct (binary_round F64.prec F64.emax false (a + b) e)
          as [s|s| |s m' e']; cbn in Hs; try contradiction; subst; reflexivity
    end.
Qed.

Lemma fold_left_invariant {A B : Type} (P : A -> Prop) (f : A -> B -> A)
    (xs : list B) (a : A) :
  P a -> (forall x a, In x xs -> P a -> P (f a x)) -> P (fold_left f xs a).
Proof.
  revert a. induction xs as [|x xs IH]; intros a Ha Hf; cbn; [exact Ha|].
  apply IH; [apply Hf; auto using in_eq|].
  intros y b Hy. apply Hf. now right.
Qed.


(** ** Landing on target *)

Lemma F64_zero_term (rate : F64.float) :
  F64.is_finite rate = true ->
  F64.add F64.zero (F64.mul (S754_zero false) rate) = F64.zero.
Proof. destruct rate as [[]|[]| |[] m e]; (discriminate || reflexivity). Qed.

(** C5.  In a well-formed instance with finite tardiness rates, of any size
    [N >= 0], a permutation-valid candidate that lands every plane exactly on
    its target time, inside its window and separated from its predecessor,
    evaluates to exactly [0.0]. *)
Theorem evaluate_solution_on_target_zero
    (self : AircraftLandingProblem binary64) (order times : list Z) :
  well_formed self ->
  (forall plane, 0 <= plane < nb_planes self ->
                 F64.is_finite (tardiness_of self plane) = true) ->
  permutation_valid (nb_planes self) order times ->
  (forall p, 0 <= p < nb_planes self -> on_target self order times p) ->
  (forall p, 0 <= p < nb_planes self -> in_window self order times p) ->
  (forall p, 1 <= p < nb_planes self -> separated self order times p) ->
  evaluate_solution self (candidate order times) = Ok F64.zero.
Proof.
  intros Hwf Hfin Hvalid Hon Hwin Hsep.
  rewrite (evaluate_solution_valid self order times Hvalid).
  destruct (for_each_next (cost_body self order times)
              (fun total => total = F64.zero)
              (range (nb_planes self)) (zero binary64) eq_refl)
    as (total & -> & ->).
  { intros q total Hq ->. apply range_In in Hq.
    rewrite (cost_body_inside self order times Hwf Hvalid) by auto.
    unfold plane_cost. rewrite <- (Hon q Hq), Z.ltb_irrefl, Z.sub_diag.
    eexists. split; [reflexivity|].
    apply F64_zero_term, Hfin.
    exact (permutation_valid_plane _ _ _ _ Hvalid Hq). }
  cbn [bind].
  destruct (for_each_next (separation_body self order times) (fun _ => True)
              (range2 1 (nb_planes self)) tt I) as (u & -> & _);
    [|reflexivity].
  intros q [] Hq _. apply range2_In in Hq.
  rewrite (separation_body_spec self order times Hwf Hvalid) by lia.
  specialize (Hsep q Hq). unfold separated in Hsep.
  destruct (Z.ltb_spec (at_ times q)
              (at_ times (q - 1) +
               separation_of self (at_ order (q - 1)) (at_ order q)));
    [lia|now eexists].
Qed.

Lemma evaluate_solution_on_target_zero_witness :
  evaluate_solution two_planes (candidate [0; 1] [10; 30]) = Ok F64.zero.
Proof.
  apply (evaluate_solution_on_target_zero two_planes [0; 1] [10; 30]).
  - exact two_planes_well_formed.
  - intros q Hq. assert (Hc : q = 0 \/ q = 1) by (cbn in Hq; lia).
    destruct Hc; subst q; reflexivity.
  - now apply (permutation_valid_identity 2).
  - intros q Hq. assert (Hc : q = 0 \/ q = 1) by (cbn in Hq; lia).
    destruct Hc; subst q; reflexivity.
  - intros q Hq. assert (Hc : q = 0 \/ q = 1) by (cbn in Hq; lia).
    destruct Hc; subst q;
      unfold in_window, earliest_of, latest_of, at_; simpl; lia.
  - intros q Hq. assert (q = 1) as -> by (cbn in Hq; lia).
    unfold separated, separation_of, at_; simpl; lia.
Defined.

(** The empty schedule of the empty instance costs nothing. *)
Example empty_schedule_zero :
  evaluate_solution (instance64 0 [] [] [] [] [] []) (candidate [] [])
  = Ok F64.zero.
Proof. reflexivity. Qed.

(** The examples of the specification: landing at 15 with target 10 and
    tardiness rate 3 costs 15; landing at 25, after the latest time 20, is
    infeasible. *)
Example one_plane_late :
  evaluate_solution one_plane (candidate [0] [15]) = Ok (float_of 15).
Proof. vm_compute. reflexivity. Qed.

Example one_plane_too_late :
  evaluate_solution one_plane (candidate [0] [25]) = Ok F64.PENALTY.
Proof. vm_compute. reflexivity. Qed.

(** An infinite rate is no real number: with one, a landing on target costs
    [0 * inf], which is NaN. *)
Example infinite_rate_nan :
  evaluate_solution
    (instance64 1 [0] [10] [20] [float_of 2] [S754_infinity false] [[0]])
    (candidate [0] [10])
  = Ok S754_nan.
Proof. reflexivity. Qed.
(** ** Whole numbers in binary64 *)

Lemma iter_xO_spec (m d : positive) :
  Zpos (Pos.iter xO m d) = Zpos m * 2 ^ Zpos d.
Proof.
  induction d as [|d IH] using Pos.peano_ind.
  - cbn [Pos.iter]. lia.
  - rewrite Pos.iter_succ, Pos2Z.inj_xO, IH, Pos2Z.inj_succ.
    rewrite Z.pow_succ_r by lia. lia.
Qed.

(** Shifting out bits that are all zero leaves no round bit and no sticky
    bit. *)
Lemma shr_iter_exact (m : Z) (p : positive) :
  0 <= m -> m mod 2 ^ Zpos p = 0 ->
  iter_pos shr_1 p {| shr_m := m; shr_r := false; shr_s := false |}
  = {| shr_m := m / 2 ^ Zpos p; shr_r := false; shr_s := false |}.
Proof.
  intros Hm. rewrite iter_pos_iter.
  induction p as [|p IH] using Pos.peano_ind; intros Hmod.
  - cbn [Pos.iter]. rewrite shr_1_spec by assumption.
    change (2 ^ 1) with 2 in *. rewrite Zmod_odd in Hmod.
    destruct (Z.odd m); [discriminate|reflexivity].
  - rewrite Pos.iter_succ.
    rewrite Pos2Z.inj_succ, Z.pow_succ_r in * by lia.
    assert (H2p : 0 < 2 ^ Zpos p) by (apply Z.pow_pos_nonneg; lia).
    assert (Hdiv : m = 2 * 2 ^ Zpos p * (m / (2 * 2 ^ Zpos p)))
      by (apply Z.div_exact; lia).
    set (c := m / (2 * 2 ^ Zpos p)) in *.
    assert (Hc : 0 <= c) by (subst c; apply Z.div_pos; lia).
    assert (Hq : m / 2 ^ Zpos p = 2 * c).
    { rewrite Hdiv at 1.
      replace (2 * 2 ^ Zpos p * c) with (2 * c * 2 ^ Zpos p) by lia.
      apply Z.div_mul. lia. }
    rewrite IH.
    2:{ rewrite Hdiv.
        replace (2 * 2 ^ Zpos p * c) with (2 * c * 2 ^ Zpos p) by lia.
        apply Z.mod_mul. lia. }
    rewrite shr_1_spec by (rewrite Hq; lia).
    rewrite Hq. f_equal.
    + replace (2 * c) with (c * 2) by lia. apply Z.div_mul. lia.
    + rewrite Z.odd_mul. reflexivity.
Qed.

Lemma digits2_pos_scaled (v q : positive) (j : Z) :
  0 <= j -> Zpos q = Zpos v * 2 ^ j ->
  Zpos (digits2_pos q) = Zpos (digits2_pos v) + j.
Proof.
  intros Hj Hq. apply digits2_pos_unique. rewrite Hq.
  pose proof (digits2_pos_lower v) as Hl.
  pose proof (digits2_pos_upper v) as Hu.
  set (k := Zpos (digits2_pos v)) in *.
  assert (Hk : 1 <= k) by (subst k; lia).
  assert (H2j : 0 < 2 ^ j) by (apply Z.pow_pos_nonneg; lia).
  replace (k + j - 1) with (k - 1 + j) by lia.
  rewrite !Z.pow_add_r by lia. split; nia.
Qed.

Lemma shr_fexp_canonical (q : positive) (e : Z) :
  Zpos (digits2_pos q) = 53 -> -1074 <= e ->
  shr_fexp F64.prec F64.emax (Zpos q) e loc_Exact
  = ({| shr_m := Zpos q; shr_r := false; shr_s := false |}, e).
Proof.
  intros Hd He. unfold shr_fexp, fexp, emin, F64.prec, F64.emax.
  cbn [Zdigits2]. rewrite Hd.
  replace (Z.max (53 + e - 53) (3 - 1024 - 53) - e) with 0 by lia.
  reflexivity.
Qed.

(** Rounding a whole number below [2^53], however it is written as a
    mantissa and an exponent, gives the number itself, in the one form
    binary64 has for it. *)
Lemma binary_round_aux_whole (v M : positive) (E : Z) :
  Zpos v < 2 ^ 53 ->
  E <= Zpos (digits2_pos v) - 53 ->
  Zpos M = Zpos v * 2 ^ (- E) ->
  exists q,
    binary_round_aux F64.prec F64.emax false (Zpos M) E loc_Exact
    = S754_finite false q (Zpos (digits2_pos v) - 53) /\
    Zpos q = Zpos v * 2 ^ (53 - Zpos (digits2_pos v)).
Proof.
  intros Hv HE HM.
  pose proof (digits2_pos_small v Hv) as Hk53.
  pose proof (digits2_pos_scaled v M (- E) ltac:(lia) HM) as HdM.
  set (k := Zpos (digits2_pos v)) in *.
  assert (Hk1 : 1 <= k) by (subst k; lia).
  destruct (Z.eq_dec E (k - 53)) as [->|Hne].
  - exists M. rewrite binary_round_aux_canonical by lia.
    split; [reflexivity|]. rewrite HM. f_equal. f_equal. lia.
  - assert (Hn : exists p, Zpos p = k - 53 - E).
    { exists (Z.to_pos (k - 53 - E)). rewrite Z2Pos.id; lia. }
    destruct Hn as (p & Hp).
    assert (H2p : 0 < 2 ^ Zpos p) by (apply Z.pow_pos_nonneg; lia).
    assert (Hsplit : Zpos M = Zpos v * 2 ^ (53 - k) * 2 ^ Zpos p).
    { rewrite HM, <- Z.mul_assoc, <- Z.pow_add_r by lia.
      f_equal. f_equal. lia. }
    assert (Hpos : 0 < Zpos v * 2 ^ (53 - k))
      by (apply Z.mul_pos_pos; [lia|apply Z.pow_pos_nonneg; lia]).
    destruct (Zpos v * 2 ^ (53 - k)) as [|q|q] eqn:Eq; try lia.
    assert (Hdq : Zpos (digits2_pos q) = 53).
    { rewrite (digits2_pos_scaled v q (53 - k)) by lia. fold k. lia. }
    exists q. split; [|reflexivity].
    unfold binary_round_aux.
    assert (Hfirst : shr_fexp F64.prec F64.emax (Zpos M) E loc_Exact
                     = ({| shr_m := Zpos q; shr_r := false; shr_s := false |},
                        k - 53)).
    { unfold shr_fexp, shr, fexp, emin, F64.prec, F64.emax.
      cbn [Zdigits2 shr_record_of_loc]. rewrite HdM.
      replace (Z.max (k + - E + E - 53) (3 - 1024 - 53) - E) with (Zpos p)
        by lia.
      rewrite shr_iter_exact; [|lia|rewrite Hsplit; apply Z.mod_mul; lia].
      rewrite Hsplit, Z.div_mul by lia. f_equal. lia. }
    rewrite Hfirst. cbn [shr_m loc_of_shr_record round_nearest_even].
    rewrite shr_fexp_canonical by lia. cbn [shr_m].
    replace (k - 53 <=? F64.emax - F64.prec) with true; [reflexivity|].
    symmetry. apply Z.leb_le. unfold F64.emax, F64.prec. lia.
Qed.

Lemma binary_round_whole (v M : positive) (E : Z) :
  Zpos v < 2 ^ 53 -> E <= 0 -> Zpos M = Zpos v * 2 ^ (- E) ->
  exists q,
    binary_round F64.prec F64.emax false M E
    = S754_finite false q (Zpos (digits2_pos v) - 53) /\
    Zpos q = Zpos v * 2 ^ (53 - Zpos (digits2_pos v)).
Proof.
  intros Hv HE HM.
  pose proof (digits2_pos_small v Hv) as Hk53.
  pose proof (digits2_pos_scaled v M (- E) ltac:(lia) HM) as HdM.
  set (k := Zpos (digits2_pos v)) in *.
  assert (Hk1 : 1 <= k) by (subst k; lia).
  unfold binary_round, shl_align. rewrite HdM.
  replace (fexp F64.prec F64.emax (k + - E + E)) with (k - 53)
    by (unfold fexp, emin, F64.prec, F64.emax; lia).
  destruct (k - 53 - E) as [|d|d] eqn:Ed.
  - apply binary_round_aux_whole; [exact Hv|fold k; lia|exact HM].
  - apply binary_round_aux_whole; [exact Hv|fold k; lia|exact HM].
  - apply binary_round_aux_whole; [exact Hv|fold k; lia|].
    rewrite iter_xO_spec, HM, <- Z.mul_assoc, <- Z.pow_add_r by lia.
    f_equal. f_equal. lia.
Qed.

(** The double of a positive whole number below [2^53]: its mantissa has
    53 digits and stands for the number exactly. *)
Lemma float_of_whole (v : positive) :
  Zpos v < 2 ^ 53 ->
  exists q,
    float_of (Zpos v) = S754_finite false q (Zpos (digits2_pos v) - 53) /\
    Zpos q = Zpos v * 2 ^ (53 - Zpos (digits2_pos v)).
Proof.
  intros Hv. unfold float_of. cbn [binary_normalize].
  apply binary_round_whole; [exact Hv|lia|]. cbn. lia.
Qed.

(** A float of that form is the double of the number. *)
Lemma whole_float_of (v q : positive) :
  Zpos v < 2 ^ 53 ->
  Zpos q = Zpos v * 2 ^ (53 - Zpos (digits2_pos v)) ->
  S754_finite false q (Zpos (digits2_pos v) - 53) = float_of (Zpos v).
Proof.
  intros Hv Hq. destruct (float_of_whole v Hv) as (q' & -> & Hq').
  f_equal. lia.
Qed.

Lemma digits2_pos_mul (a b : positive) :
  Zpos (digits2_pos a) + Zpos (digits2_pos b) - 1
  <= Zpos (digits2_pos (a * b)).
Proof.
  pose proof (digits2_pos_lower a) as Ha.
  pose proof (digits2_pos_lower b) as Hb.
  pose proof (digits2_pos_upper (a * b)) as Hab.
  set (ka := Zpos (digits2_pos a)) in *.
  set (kb := Zpos (digits2_pos b)) in *.
  set (k := Zpos (digits2_pos (a * b))) in *.
  assert (Hka : 1 <= ka) by (subst ka; lia).
  assert (Hkb : 1 <= kb) by (subst kb; lia).
  assert (Hk : 1 <= k) by (subst k; lia).
  assert (Hlow : 2 ^ (ka - 1 + (kb - 1)) <= Zpos (a * b)).
  { rewrite Z.pow_add_r, Pos2Z.inj_mul by lia.
    apply Z.mul_le_mono_nonneg; try assumption; apply Z.pow_nonneg; lia. }
  assert (Hlt : 2 ^ (ka - 1 + (kb - 1)) < 2 ^ k) by lia.
  apply Z.pow_lt_mono_r_iff in Hlt; lia.
Qed.

Lemma digits2_pos_le (a b : positive) :
  Zpos a <= Zpos b -> Zpos (digits2_pos a) <= Zpos (digits2_pos b).
Proof.
  intros Hle.
  pose proof (digits2_pos_lower a) as Ha.
  pose proof (digits2_pos_upper b) as Hb.
  assert (Hlt : 2 ^ (Zpos (digits2_pos a) - 1) < 2 ^ Zpos (digits2_pos b))
    by lia.
  apply Z.pow_lt_mono_r_iff in Hlt; lia.
Qed.

(** The product of two whole numbers, when it is below [2^53], is computed
    without rounding. *)
Lemma mul_whole (a b : positive) :
  Zpos a * Zpos b < 2 ^ 53 ->
  F64.mul (float_of (Zpos a)) (float_of (Zpos b)) = float_of (Zpos a * Zpos b).
Proof.
  intros Hab.
  assert (Ha : Zpos a < 2 ^ 53) by nia.
  assert (Hb : Zpos b < 2 ^ 53) by nia.
  destruct (float_of_whole a Ha) as (qa & -> & Hqa).
  destruct (float_of_whole b Hb) as (qb & -> & Hqb).
  pose proof (digits2_pos_small a Ha) as Hka.
  pose proof (digits2_pos_small b Hb) as Hkb.
  pose proof (digits2_pos_mul a b) as Hk.
  change (Zpos a * Zpos b) with (Zpos (a * b)) in *.
  unfold F64.mul, SFmul. cbn [xorb].
  set (ka := Zpos (digits2_pos a)) in *.
  set (kb := Zpos (digits2_pos b)) in *.
  assert (Hka1 : 1 <= ka) by (subst ka; lia).
  assert (Hkb1 : 1 <= kb) by (subst kb; lia).
  destruct (binary_round_aux_whole (a * b) (qa * qb) (ka - 53 + (kb - 53)))
    as (q & -> & Hq); [exact Hab|lia| |now apply whole_float_of].
  rewrite Pos2Z.inj_mul, Hqa, Hqb, Pos2Z.inj_mul.
  replace (- (ka - 53 + (kb - 53))) with (53 - ka + (53 - kb)) by lia.
  rewrite Z.pow_add_r by lia. ring.
Qed.

Lemma of_int_float_of (d : Z) (f : F64.float) :
  F64.of_int d = Some f -> f = float_of d.
Proof.
  unfold F64.of_int, float_of.
  destruct (binary_normalize F64.prec F64.emax d 0 false);
    congruence.
Qed.

(** The cost expression on whole numbers: the int times the rate, the
    product being below [2^53]. *)
Lemma int_mul_whole (d r : Z) (f : F64.float) :
  0 <= d -> 0 <= r < 2 ^ 53 -> d * r < 2 ^ 53 ->
  F64.of_int d = Some f ->
  F64.mul f (float_of r) = float_of (d * r).
Proof.
  intros Hd Hr Hdr Hf.
  destruct r as [|r|r]; try lia.
  - rewrite Z.mul_0_r. change (float_of 0) with (S754_zero false).
    destruct (of_int_nonneg d f Hd Hf) as [->|(m & e & ->)]; reflexivity.
  - destruct d as [|d|d]; try lia.
    + injection Hf as <-. cbn [Z.mul].
      destruct (float_of_whole r ltac:(lia)) as (q & -> & _). reflexivity.
    + rewrite (of_int_float_of _ _ Hf). now apply mul_whole.
Qed.

Lemma shl_align_spec (m : positive) (ex ez : Z) :
  ez <= ex -> Zpos (fst (shl_align m ex ez)) = Zpos m * 2 ^ (ex - ez).
Proof.
  intros Hle. unfold shl_align.
  destruct (ez - ex) as [|d|d] eqn:Ed; cbn [fst]; try lia.
  - replace (ex - ez) with 0 by lia. cbn. lia.
  - rewrite iter_xO_spec. f_equal. f_equal. lia.
Qed.

(** The sum of two whole numbers, when it is below [2^53], is computed
    without rounding. *)
Lemma add_whole (a b : Z) :
  0 <= a -> 0 <= b -> a + b < 2 ^ 53 ->
  F64.add (float_of a) (float_of b) = float_of (a + b).
Proof.
  intros Ha Hb Hab.
  destruct a as [|a|a]; try lia.
  { cbn [Z.add]. change (float_of 0) with (S754_zero false).
    destruct b as [|b|b]; try lia; [reflexivity|].
    destruct (float_of_whole b ltac:(lia)) as (q & -> & _). reflexivity. }
  destruct b as [|b|b]; try lia.
  { rewrite Z.add_0_r. change (float_of 0) with (S754_zero false).
    destruct (float_of_whole a ltac:(lia)) as (q & -> & _). reflexivity. }
  destruct (float_of_whole a ltac:(lia)) as (qa & -> & Hqa).
  destruct (float_of_whole b ltac:(lia)) as (qb & -> & Hqb).
  pose proof (digits2_pos_small a ltac:(lia)) as Hka.
  pose proof (digits2_pos_small b ltac:(lia)) as Hkb.
  set (ka := Zpos (digits2_pos a)) in *.
  set (kb := Zpos (digits2_pos b)) in *.
  assert (Hka1 : 1 <= ka) by (subst ka; lia).
  assert (Hkb1 : 1 <= kb) by (subst kb; lia).
  unfold F64.add, SFadd. cbn [cond_Zopp].
  set (ez := Z.min (ka - 53) (kb - 53)).
  pose proof (shl_align_spec qa (ka - 53) ez ltac:(lia)) as Hsa.
  pose proof (shl_align_spec qb (kb - 53) ez ltac:(lia)) as Hsb.
  set (sa := fst (shl_align qa (ka - 53) ez)) in *.
  set (sb := fst (shl_align qb (kb - 53) ez)) in *.
  change (Zpos sa + Zpos sb) with (Zpos (sa + sb)).
  cbn [binary_normalize].
  change (Zpos a + Zpos b) with (Zpos (a + b)) in *.
  destruct (binary_round_whole (a + b) (sa + sb) ez)
    as (q & -> & Hq); [exact Hab|lia| |now apply whole_float_of].
  rewrite Pos2Z.inj_add, Hsa, Hsb, Hqa, Hqb, Pos2Z.inj_add.
  rewrite <- !Z.mul_assoc, <- !Z.pow_add_r by lia.
  replace (53 - ka + (ka - 53 - ez)) with (- ez) by lia.
  replace (53 - kb + (kb - 53 - ez)) with (- ez) by lia.
  ring.
Qed.

(** Doubles of whole numbers below [2^53] compare as the numbers do. *)
Lemma float_of_ltb (a b : Z) :
  0 <= a < b -> b < 2 ^ 53 -> F64.ltb (float_of a) (float_of b) = true.
Proof.
  intros Hab Hb.
  destruct b as [|b|b]; try lia.
  destruct (float_of_whole b Hb) as (qb & -> & Hqb).
  destruct a as [|a|a]; try lia; [reflexivity|].
  destruct (float_of_whole a ltac:(lia)) as (qa & -> & Hqa).
  pose proof (digits2_pos_le a b ltac:(lia)) as Hk.
  unfold F64.ltb, SFltb, SFcompare.
  destruct (Z.compare_spec (Zpos (digits2_pos a) - 53)
              (Zpos (digits2_pos b) - 53)) as [He|He|He];
    [|reflexivity|lia].
  replace (Zpos (digits2_pos b)) with (Zpos (digits2_pos a)) in Hqb by lia.
  assert (Hlt : (qa < qb)%positive).
  { assert (0 < 2 ^ (53 - Zpos (digits2_pos a)))
      by (apply Z.pow_pos_nonneg;
          [lia|pose proof (digits2_pos_small a ltac:(lia)); lia]).
    nia. }
  change (PosDef.Pos.compare_cont Eq qa qb) with (Pos.compare qa qb).
  now rewrite (proj2 (Pos.compare_lt_iff qa qb) Hlt).
Qed.

(** ** Costs in whole numbers *)

Lemma fold_Zplus_shift {X : Type} (f : X -> Z) (xs : list X) (s : Z) :
  fold_left (fun a x => a + f x) xs s = s + Zsum f xs.
Proof.
  unfold Zsum. revert s. induction xs as [|x xs IH]; intros s; cbn; [lia|].
  rewrite IH, (IH (f x)). lia.
Qed.

Lemma Zsum_cons {X : Type} (f : X -> Z) (x : X) (xs : list X) :
  Zsum f (x :: xs) = f x + Zsum f xs.
Proof. unfold Zsum at 1. cbn. apply fold_Zplus_shift. Qed.

Lemma Zsum_app {X : Type} (f : X -> Z) (xs ys : list X) :
  Zsum f (xs ++ ys) = Zsum f xs + Zsum f ys.
Proof.
  induction xs as [|x xs IH]; [reflexivity|].
  cbn [app]. rewrite !Zsum_cons, IH. lia.
Qed.

Lemma Zsum_ext {X : Type} (f g : X -> Z) (xs : list X) :
  (forall x, In x xs -> f x = g x) -> Zsum f xs = Zsum g xs.
Proof.
  induction xs as [|x xs IH]; intros H; [reflexivity|].
  rewrite !Zsum_cons, H, IH by auto using in_eq, in_cons. reflexivity.
Qed.

Lemma Zsum_le {X : Type} (f g : X -> Z) (xs : list X) :
  (forall x, In x xs -> f x <= g x) -> Zsum f xs <= Zsum g xs.
Proof.
  induction xs as [|x xs IH]; intros H; [reflexivity|].
  rewrite !Zsum_cons.
  pose proof (H x (in_eq _ _)). pose proof (IH (fun y Hy => H y (in_cons _ _ _ Hy))).
  lia.
Qed.

Lemma Zsum_nonneg {X : Type} (f : X -> Z) (xs : list X) :
  (forall x, In x xs -> 0 <= f x) -> 0 <= Zsum f xs.
Proof.
  induction xs as [|x xs IH]; intros H; [reflexivity|].
  rewrite Zsum_cons.
  pose proof (H x (in_eq _ _)). pose proof (IH (fun y Hy => H y (in_cons _ _ _ Hy))).
  lia.
Qed.

Lemma Zsum_perm {X : Type} (f : X -> Z) (xs ys : list X) :
  Permutation xs ys -> Zsum f xs = Zsum f ys.
Proof.
  induction 1 as [|x xs ys _ IH|x y xs|xs ys zs _ IH1 _ IH2];
    rewrite ?Zsum_cons; lia.
Qed.

Lemma Zsum_map {X Y : Type} (f : Y -> Z) (g : X -> Y) (xs : list X) :
  Zsum f (map g xs) = Zsum (fun x => f (g x)) xs.
Proof. unfold Zsum. generalize 0. induction xs; intros; cbn; auto. Qed.

Lemma map_at_range (l : list Z) : map (at_ l) (range (len l)) = l.
Proof.
  induction l as [|x l IH] using rev_ind; [reflexivity|].
  rewrite len_app. change (len [x]) with 1.
  unfold range in *. rewrite range2_snoc by apply len_nonneg.
  rewrite map_app. cbn [map]. f_equal.
  - transitivity (map (at_ l) (range2 0 (len l))); [|exact IH].
    apply map_ext_in. intros i Hi. apply range2_In in Hi.
    unfold at_. apply app_nth1. unfold len in Hi. lia.
  - f_equal. unfold at_, len. rewrite Nat2Z.id. apply nth_middle.
Qed.

(** Adding doubles of whole numbers from the left, the sum staying below
    [2^53], gives the double of their sum. *)
Lemma fold_add_whole {X : Type} (term : X -> F64.float) (w : X -> Z)
    (xs : list X) (s : Z) :
  0 <= s ->
  (forall x, In x xs -> 0 <= w x /\ term x = float_of (w x)) ->
  s + Zsum w xs < 2 ^ 53 ->
  fold_left (fun total x => F64.add total (term x)) xs (float_of s)
  = float_of (s + Zsum w xs).
Proof.
  revert s. induction xs as [|x xs IH]; intros s Hs Hterm Hsum.
  - cbn. now rewrite Z.add_0_r.
  - cbn [fold_left]. rewrite Zsum_cons in *.
    destruct (Hterm x (in_eq _ _)) as (Hw & ->).
    assert (Hrest : 0 <= Zsum w xs)
      by (apply Zsum_nonneg; intros y Hy; apply Hterm; now right).
    rewrite add_whole by lia.
    rewrite IH; [f_equal; lia|lia| |lia].
    intros y Hy. apply Hterm. now right.
Qed.

Section WholeCosts.
Variable self : AircraftLandingProblem binary64.
Variables earliness tardiness : Z -> Z.
Hypothesis Hwf : well_formed self.
Hypothesis Hrates : whole_rates self earliness tardiness.

Lemma whole_cost_nonneg (plane lt : Z) :
  0 <= plane < nb_planes self ->
  0 <= whole_cost self earliness tardiness plane lt.
Proof.
  intros Hplane. destruct (Hrates plane Hplane) as (He & Ht & _).
  unfold whole_cost. destruct (Z.ltb_spec lt (target_of self plane)); nia.
Qed.

Lemma whole_cost_widest (plane lt : Z) :
  0 <= plane < nb_planes self ->
  earliest_of self plane <= lt <= latest_of self plane ->
  whole_cost self earliness tardiness plane lt
  <= widest_cost self earliness tardiness plane.
Proof.
  intros Hplane Hwin. destruct (Hrates plane Hplane) as (He & Ht & _).
  unfold whole_cost, widest_cost.
  destruct (Z.ltb_spec lt (target_of self plane)); nia.
Qed.

(** The cost expression of a landing, in whole numbers. *)
Lemma cost_term_whole (plane lt : Z) :
  0 <= plane < nb_planes self ->
  converts (N := binary64) (Z.abs (lt - target_of self plane)) ->
  whole_cost self earliness tardiness plane lt < 2 ^ 53 ->
  cost_term self plane lt
  = float_of (whole_cost self earliness tardiness plane lt).
Proof.
  intros Hplane Hc Hlt.
  destruct (Hrates plane Hplane) as (He & Ht & Hef & Htf).
  unfold converts in Hc. cbn [of_int binary64] in Hc.
  unfold cost_term, plane_cost, int_mul, whole_cost in *.
  cbn [of_int mul binary64].
  destruct (Z.ltb_spec lt (target_of self plane)) as [Hl|Hl].
  - replace (Z.abs (lt - target_of self plane))
      with (target_of self plane - lt) in Hc by lia.
    destruct (F64.of_int (target_of self plane - lt)) as [f|] eqn:Ef;
      [|contradiction].
    rewrite Hef. apply int_mul_whole; try assumption; lia.
  - replace (Z.abs (lt - target_of self plane))
      with (lt - target_of self plane) in Hc by lia.
    destruct (F64.of_int (lt - target_of self plane)) as [f|] eqn:Ef;
      [|contradiction].
    rewrite Htf. apply int_mul_whole; try assumption; lia.
Qed.

(** The cost of a feasible schedule is between zero and the worst case of
    the instance. *)
Lemma schedule_cost_bounds (order times : list Z) :
  feasible self order times ->
  0 <= schedule_cost self earliness tardiness order times
  <= worst_case self earliness tardiness.
Proof.
  intros (Hvalid & Hwin & _). unfold schedule_cost, worst_case. split.
  - apply Zsum_nonneg. intros q Hq. apply range_In in Hq.
    apply whole_cost_nonneg.
    exact (permutation_valid_plane _ _ _ _ Hvalid Hq).
  - etransitivity.
    + apply (Zsum_le _ (fun q => widest_cost self earliness tardiness
                                   (at_ order q))).
      intros q Hq. apply range_In in Hq.
      apply whole_cost_widest; [|exact (Hwin q Hq)].
      exact (permutation_valid_plane _ _ _ _ Hvalid Hq).
    + destruct Hvalid as (HP & Hlen & _).
      rewrite <- (Zsum_map (widest_cost self earliness tardiness) (at_ order)).
      rewrite <- Hlen at 1. rewrite map_at_range.
      rewrite (Zsum_perm _ _ _ HP). reflexivity.
Qed.

(** With whole rates and a total below [2^53], binary64 computes the cost
    of a feasible schedule without rounding. *)
Lemma evaluate_solution_whole (order times : list Z) :
  representable self ->
  feasible self order times ->
  schedule_cost self earliness tardiness order times < 2 ^ 53 ->
  evaluate_solution self (candidate order times)
  = Ok (float_of (schedule_cost self earliness tardiness order times)).
Proof.
  intros Hrep Hfeas Hlt.
  assert (Hconv : forall q, 0 <= q < nb_planes self ->
            converts (N := binary64) (deviation self order times q)).
  { intros q Hq. destruct Hfeas as (Hvalid & Hwin & _).
    apply Hrep; [|exact (Hwin q Hq)].
    exact (permutation_valid_plane _ _ _ _ Hvalid Hq). }
  pose proof (evaluate_valid_outcome self order times Hwf (proj1 Hfeas))
    as Hout.
  destruct (evaluate_solution self (candidate order times)) as [v|e].
  2:{ destruct Hout as (_ & q & Hq & _ & Hn). elim Hn. now apply Hconv. }
  destruct Hout as [(_ & Hn)|(_ & _ & ->)]; [contradiction|].
  f_equal. unfold accumulated_cost, schedule_cost in *.
  change (zero binary64) with (float_of 0).
  rewrite (fold_add_whole
             (fun p => cost_term self (at_ order p) (at_ times p))
             (fun p => whole_cost self earliness tardiness
                         (at_ order p) (at_ times p)));
    [reflexivity|lia| |lia].
  intros q Hq.
  assert (Hplane : 0 <= at_ order q < nb_planes self)
    by (apply range_In in Hq;
        exact (permutation_valid_plane _ _ _ _ (proj1 Hfeas) Hq)).
  split; [now apply whole_cost_nonneg|].
  apply cost_term_whole; [exact Hplane|apply Hconv; now apply range_In|].
  (* one term is at most the sum *)
  apply in_split in Hq. destruct Hq as (l1 & l2 & Hsplit).
  rewrite Hsplit, Zsum_app, Zsum_cons in Hlt.
  assert (Hall : forall l, (forall x, In x l -> In x (range (nb_planes self))) ->
            0 <= Zsum (fun p => whole_cost self earliness tardiness
                                  (at_ order p) (at_ times p)) l).
  { intros l Hl. apply Zsum_nonneg. intros x Hx.
    apply whole_cost_nonneg. apply Hl, range_In in Hx.
    exact (permutation_valid_plane _ _ _ _ (proj1 Hfeas) Hx). }
  pose proof (Hall l1 ltac:(intros x Hx; rewrite Hsplit; apply in_or_app;
                            now left)).
  pose proof (Hall l2 ltac:(intros x Hx; rewrite Hsplit; apply in_or_app;
                            right; now right)).
  lia.
Qed.
End WholeCosts.

(** ** Rate of change of the cost *)

Ltac solve_position q Hq :=
  let Hc := fresh "Hc" in
  cbn in Hq;
  assert (Hc : q = 0 \/ q = 1) by lia;
  destruct Hc; subst q; try lia;
  unfold in_window, separated, separation_of, earliest_of, latest_of, at_;
  simpl; lia.

Ltac solve_feasible n :=
  split; [now apply (permutation_valid_identity n)|];
  split; let q := fresh "q" in let Hq := fresh "Hq" in
         intros q Hq; solve_position q Hq.

Section CostRate.
Variable self : AircraftLandingProblem binary64.
Variables earliness tardiness : Z -> Z.

Lemma whole_cost_late (plane t t' : Z) :
  target_of self plane <= t <= t' ->
  whole_cost self earliness tardiness plane t'
  = whole_cost self earliness tardiness plane t + (t' - t) * tardiness plane.
Proof.
  intros H. unfold whole_cost.
  destruct (Z.ltb_spec t (target_of self plane)); [lia|].
  destruct (Z.ltb_spec t' (target_of self plane)); lia.
Qed.

Lemma whole_cost_early (plane t t' : Z) :
  t' <= t <= target_of self plane ->
  whole_cost self earliness tardiness plane t'
  = whole_cost self earliness tardiness plane t + (t - t') * earliness plane.
Proof.
  intros H. unfold whole_cost.
  destruct (Z.ltb_spec t (target_of self plane));
    destruct (Z.ltb_spec t' (target_of self plane)); try lia.
  - assert (t = target_of self plane) as -> by lia. lia.
  - assert (t' = t) as -> by lia. lia.
Qed.

(** Moving the landing at one position changes the total by the change of
    the cost of the plane at that position. *)
Lemma schedule_cost_update (order times times' : list Z) (p : Z) :
  0 <= p < nb_planes self ->
  (forall q, 0 <= q < nb_planes self -> q <> p -> at_ times' q = at_ times q) ->
  schedule_cost self earliness tardiness order times'
  = schedule_cost self earliness tardiness order times
    + (whole_cost self earliness tardiness (at_ order p) (at_ times' p)
       - whole_cost self earliness tardiness (at_ order p) (at_ times p)).
Proof.
  intros Hp Hsame. unfold schedule_cost, range.
  rewrite (range2_split 0 p) by lia.
  rewrite !Zsum_app, !Zsum_cons.
  rewrite (Zsum_ext
             (fun q => whole_cost self earliness tardiness
                         (at_ order q) (at_ times' q))
             (fun q => whole_cost self earliness tardiness
                         (at_ order q) (at_ times q))
             (range2 0 p)).
  2:{ intros q Hq. apply range2_In in Hq. rewrite Hsame by lia. reflexivity. }
  rewrite (Zsum_ext
             (fun q => whole_cost self earliness tardiness
                         (at_ order q) (at_ times' q))
             (fun q => whole_cost self earliness tardiness
                         (at_ order q) (at_ times q))
             (range2 (p + 1) (nb_planes self))).
  2:{ intros q Hq. apply range2_In in Hq. rewrite Hsame by lia. reflexivity. }
  lia.
Qed.
End CostRate.

(** C6.  In binary64, on a well-formed instance whose rates are whole
    numbers and whose in-window deviations convert to floats: for a fixed
    order and fixed times of the other positions, both candidates passing
    every check and both costs staying below [2^53], the evaluator returns
    the two costs without rounding; moving one landing from [t] to a later
    [t'], both at or after the target, adds exactly
    [(t' - t) * tardiness_cost[plane]], and moving it from [t] to an earlier
    [t'], both at or before the target, adds exactly
    [(t - t') * earliness_cost[plane]]; the returned float increases
    strictly when the rate is positive. *)
Theorem evaluate_solution_cost_rate
    (self : AircraftLandingProblem binary64) (earliness tardiness : Z -> Z)
    (order times times' : list Z) (p : Z) :
  well_formed self ->
  whole_rates self earliness tardiness ->
  representable self ->
  feasible self order times ->
  feasible self order times' ->
  0 <= p < nb_planes self ->
  (forall q, 0 <= q < nb_planes self -> q <> p -> at_ times' q = at_ times q) ->
  schedule_cost self earliness tardiness order times < 2 ^ 53 ->
  schedule_cost self earliness tardiness order times' < 2 ^ 53 ->
  exists c c',
    0 <= c < 2 ^ 53 /\ 0 <= c' < 2 ^ 53 /\
    evaluate_solution self (candidate order times) = Ok (float_of c) /\
    evaluate_solution self (candidate order times') = Ok (float_of c') /\
    (target_of self (at_ order p) <= at_ times p <= at_ times' p ->
     c' = c + (at_ times' p - at_ times p) * tardiness (at_ order p)) /\
    (at_ times' p <= at_ times p <= target_of self (at_ order p) ->
     c' = c + (at_ times p - at_ times' p) * earliness (at_ order p)) /\
    (target_of self (at_ order p) <= at_ times p < at_ times' p ->
     0 < tardiness (at_ order p) ->
     F64.ltb (float_of c) (float_of c') = true) /\
    (at_ times' p < at_ times p <= target_of self (at_ order p) ->
     0 < earliness (at_ order p) ->
     F64.ltb (float_of c) (float_of c') = true).
Proof.
  intros Hwf Hrates Hrep Hfeas Hfeas' Hp Hsame Hlt Hlt'.
  pose proof (schedule_cost_bounds self earliness tardiness Hrates
                order times Hfeas) as (H0 & _).
  pose proof (schedule_cost_bounds self earliness tardiness Hrates
                order times' Hfeas') as (H0' & _).
  exists (schedule_cost self earliness tardiness order times),
         (schedule_cost self earliness tardiness order times').
  split; [lia|]. split; [lia|].
  split; [now apply evaluate_solution_whole|].
  split; [now apply evaluate_solution_whole|].
  pose proof (schedule_cost_update self earliness tardiness
                order times times' p Hp Hsame) as Hupd.
  assert (Hlate : target_of self (at_ order p) <= at_ times p <= at_ times' p ->
     schedule_cost self earliness tardiness order times'
     = schedule_cost self earliness tardiness order times
       + (at_ times' p - at_ times p) * tardiness (at_ order p)).
  { intros H. rewrite Hupd, (whole_cost_late self _ _ _ _ _ H). lia. }
  assert (Hearly : at_ times' p <= at_ times p <= target_of self (at_ order p) ->
     schedule_cost self earliness tardiness order times'
     = schedule_cost self earliness tardiness order times
       + (at_ times p - at_ times' p) * earliness (at_ order p)).
  { intros H. rewrite Hupd, (whole_cost_early self _ _ _ _ _ H). lia. }
  split; [exact Hlate|]. split; [exact Hearly|]. split.
  - intros H Hrate. apply float_of_ltb; [|lia].
    rewrite Hlate by lia. nia.
  - intros H Hrate. apply float_of_ltb; [|lia].
    rewrite Hearly by lia. nia.
Qed.

Lemma two_planes_representable : representable two_planes.
Proof.
  intros plane t Hplane Ht. apply F64_of_int_small.
  assert (Hc : plane = 0 \/ plane = 1) by (cbn in Hplane; lia).
  assert (2 ^ 53 = 9007199254740992) by reflexivity.
  destruct Hc; subst plane;
    unfold earliest_of, latest_of, target_of, at_ in *; simpl in *; lia.
Qed.

Lemma two_planes_whole_rates :
  whole_rates two_planes (fun _ => 1) (fun _ => 2).
Proof.
  intros plane Hplane.
  assert (Hc : plane = 0 \/ plane = 1) by (cbn in Hplane; lia).
  assert (2 ^ 53 = 9007199254740992) by reflexivity.
  destruct Hc; subst plane; repeat split; try lia.
Qed.

Lemma evaluate_solution_cost_rate_witness :
  exists c c',
    evaluate_solution two_planes (candidate [0; 1] [10; 30])
    = Ok (float_of c) /\
    evaluate_solution two_planes (candidate [0; 1] [10; 35])
    = Ok (float_of c') /\
    c' = c + 5 * 2 /\
    F64.ltb (float_of c) (float_of c') = true.
Proof.
  destruct (evaluate_solution_cost_rate two_planes (fun _ => 1) (fun _ => 2)
              [0; 1] [10; 30] [10; 35] 1)
    as (c & c' & _ & _ & Hc & Hc' & Hlate & _ & Hstrict & _).
  - exact two_planes_well_formed.
  - exact two_planes_whole_rates.
  - exact two_planes_representable.
  - solve_feasible 2.
  - solve_feasible 2.
  - cbn; lia.
  - intros q Hq Hne. assert (q = 0) as -> by (cbn in Hq; lia). reflexivity.
  - vm_compute. reflexivity.
  - vm_compute. reflexivity.
  - exists c, c'. split; [exact Hc|]. split; [exact Hc'|]. split.
    + apply Hlate. unfold target_of, at_; simpl; lia.
    + apply Hstrict; [unfold target_of, at_; simpl; lia|lia].
Defined.

Lemma zero_rate_well_formed : well_formed zero_rate.
Proof. solve_well_formed. Qed.

Lemma absorbing_well_formed : well_formed absorbing.
Proof. solve_well_formed. Qed.

(** With a rate of zero, which the data model allows, landing later after
    the target or earlier before it leaves the cost where it was.  And a
    positive rate need not show either: next to a cost of [1e17], one more
    unit of delay at rate 1 is rounded away. *)
Lemma zero_rate_not_strict :
  (well_formed zero_rate /\
   feasible zero_rate [0] [15] /\ feasible zero_rate [0] [16] /\
   feasible zero_rate [0] [5] /\ feasible zero_rate [0] [4] /\
   evaluate_solution zero_rate (candidate [0] [15]) = Ok F64.zero /\
   evaluate_solution zero_rate (candidate [0] [16]) = Ok F64.zero /\
   evaluate_solution zero_rate (candidate [0] [5]) = Ok F64.zero /\
   evaluate_solution zero_rate (candidate [0] [4]) = Ok F64.zero) /\
  (well_formed absorbing /\
   feasible absorbing [0; 1] [1; 1] /\ feasible absorbing [0; 1] [1; 2] /\
   tardiness_of absorbing 1 = float_of 1 /\
   evaluate_solution absorbing (candidate [0; 1] [1; 1])
   = Ok (float_of (10 ^ 17)) /\
   evaluate_solution absorbing (candidate [0; 1] [1; 2])
   = Ok (float_of (10 ^ 17))).
Proof.
  split.
  - split; [exact zero_rate_well_formed|].
    repeat (split; [solve_feasible 1|]).
    repeat split; vm_compute; reflexivity.
  - split; [exact absorbing_well_formed|].
    repeat (split; [solve_feasible 2|]).
    repeat split; vm_compute; reflexivity.
Qed.

(** ** The sentinel and the feasible costs *)

Lemma PENALTY_float_of : F64.PENALTY = float_of 1000000000.
Proof. reflexivity. Qed.

(** C7.  In binary64, on a well-formed instance whose rates are whole
    numbers, whose in-window deviations convert to floats and whose worst
    case, the sum over the planes of the larger penalty at the two ends of
    the window, is below [10^9]: every candidate that passes all checks
    evaluates, without rounding, to a cost that is at least zero, at most
    the worst case, and strictly below the sentinel. *)
Theorem feasible_cost_below_penalty
    (self : AircraftLandingProblem binary64) (earliness tardiness : Z -> Z)
    (order times : list Z) :
  well_formed self ->
  whole_rates self earliness tardiness ->
  representable self ->
  worst_case self earliness tardiness < 1000000000 ->
  feasible self order times ->
  exists c,
    evaluate_solution self (candidate order times) = Ok (float_of c) /\
    0 <= c <= worst_case self earliness tardiness /\
    F64.ltb (float_of c) (PENALTY binary64) = true.
Proof.
  intros Hwf Hrates Hrep Hworst Hfeas.
  destruct (schedule_cost_bounds self earliness tardiness Hrates
              order times Hfeas) as (H0 & H1).
  assert (H53 : 1000000000 < 2 ^ 53) by reflexivity.
  exists (schedule_cost self earliness tardiness order times).
  split; [apply evaluate_solution_whole; try assumption; lia|].
  split; [lia|].
  cbn [PENALTY binary64]. rewrite PENALTY_float_of.
  apply float_of_ltb; lia.
Qed.

Lemma feasible_cost_below_penalty_witness :
  exists c,
    evaluate_solution two_planes (candidate [0; 1] [10; 35])
    = Ok (float_of c) /\
    0 <= c <= worst_case two_planes (fun _ => 1) (fun _ => 2) /\
    F64.ltb (float_of c) (PENALTY binary64) = true.
Proof.
  apply (feasible_cost_below_penalty two_planes (fun _ => 1) (fun _ => 2)
           [0; 1] [10; 35]).
  - exact two_planes_well_formed.
  - exact two_planes_whole_rates.
  - exact two_planes_representable.
  - vm_compute. reflexivity.
  - solve_feasible 2.
Defined.

Lemma expensive_well_formed : well_formed expensive.
Proof. solve_well_formed. Qed.

(** One unit of delay at a rate of [1e9] costs the sentinel itself, and two
    units cost twice as much: both candidates pass every check. *)
Lemma feasible_cost_reaches_penalty :
  well_formed expensive /\
  feasible expensive [0] [1] /\ feasible expensive [0] [2] /\
  evaluate_solution expensive (candidate [0] [1]) = Ok F64.PENALTY /\
  evaluate_solution expensive (candidate [0] [2]) = Ok (float_of 2000000000) /\
  F64.ltb F64.PENALTY F64.PENALTY = false /\
  F64.ltb (float_of 2000000000) F64.PENALTY = false.
Proof.
  split; [exact expensive_well_formed|].
  repeat (split; [solve_feasible 1|]).
  repeat split; vm_compute; reflexivity.
Qed.

(** A rate that is no whole number: three units of delay at the rate
    [5592405333333333 * 2^-24] cost less than [10^9], by [2^-24], and
    binary64 rounds the product to the sentinel. *)
Example rounded_cost_reaches_penalty :
  3 * 5592405333333333 < 1000000000 * 2 ^ 24 /\
  feasible near_sentinel [0] [3] /\
  evaluate_solution near_sentinel (candidate [0] [3]) = Ok F64.PENALTY.
Proof.
  split; [reflexivity|]. split; [solve_feasible 1|].
  vm_compute. reflexivity.
Qed.

(** ** The constructor *)

(** A loop over [range2 a b] whose iterations fall through establishes at
    [b] an invariant indexed by the position. *)
Lemma for_range_next {S R : Type} (body : Z -> S -> result (flow S R))
    (P : Z -> S -> Prop) (a b : Z) (s : S) :
  a <= b -> P a s ->
  (forall k s, a <= k < b -> P k s ->
               exists s', body k s = Ok (Next s') /\ P (k + 1) s') ->
  exists s', for_each body (range2 a b) s = Ok (Next s') /\ P b s'.
Proof.
  intros Hab. remember (Z.to_nat (b - a)) as d eqn:Ed.
  revert a s Hab Ed. induction d as [|d IH]; intros a s Hab Ed Hs Hbody.
  - assert (a = b) as -> by lia. rewrite range2_nil by lia. now exists s.
  - rewrite range2_cons by lia. cbn [for_each].
    destruct (Hbody a s) as (s' & -> & Hs'); [lia|exact Hs|].
    apply IH; [lia|lia|exact Hs'|].
    intros k t Hk. apply Hbody. lia.
Qed.

Lemma at_app_l (l : list Z) (x i : Z) :
  0 <= i < len l -> at_ (l ++ [x]) i = at_ l i.
Proof. intros Hi. unfold at_. apply app_nth1. unfold len in Hi. lia. Qed.

Lemma at_app_r (l : list Z) (x : Z) : at_ (l ++ [x]) (len l) = x.
Proof. unfold at_, len. rewrite Nat2Z.id. apply nth_middle. Qed.

Section ConstructorLoop.
Context {N : Numeric}.
Variable self : AircraftLandingProblem N.
Variable R : RandomSource.
Variable order : list Z.
Hypothesis Hwf : well_formed self.
Hypothesis Horder : Permutation order (range (nb_planes self)).
Hypothesis Hlen : len order = nb_planes self.

Let n := nb_planes self.

Lemma order_plane (p : Z) : 0 <= p < n -> 0 <= at_ order p < n.
Proof.
  intros Hp. apply range_In. eapply Permutation_in; [exact Horder|].
  unfold at_. apply nth_In. unfold len in Hlen. fold n in Hlen. lia.
Qed.

(** Lines 137-142 compute the lower bound of the greedy rule. *)
Lemma min_time_at_spec (times : list Z) (p : Z) :
  0 <= p < n -> len times = p ->
  min_time_at self order times p (at_ order p)
  = Ok (lower_bound self order times p).
Proof.
  intros Hp Htimes. pose proof (order_plane p Hp) as Hplane.
  destruct Hwf as (He & _ & _ & _ & _ & Hs & Hrow).
  unfold covers in *. fold n in He, Hs, Hrow, Hlen.
  unfold min_time_at, lower_bound, earliest_of, separation_of.
  destruct (Z.eqb_spec p 0) as [->|Hne].
  - now rewrite getitem_at by lia.
  - assert (Hprev : 0 <= at_ order (p - 1) < n) by (apply order_plane; lia).
    specialize (Hrow _ Hprev).
    rewrite (getitem_at order) by lia. cbn [bind].
    rewrite (getitem_at (earliest_time self)) by lia. cbn [bind].
    rewrite (getitem_at times) by lia. cbn [bind].
    rewrite (getitem_nth [] (separation_time self)) by lia. cbn [bind].
    rewrite getitem_at by lia. reflexivity.
Qed.

(** One iteration appends a landing time that follows the greedy rule. *)
Lemma greedy_body_spec (times : list Z) (g : rng R) (p : Z) :
  0 <= p < n -> len times = p ->
  exists t g',
    greedy_body self R order p (times, g) = Ok (Next (times ++ [t], g')) /\
    greedy_time self order (times ++ [t]) p.
Proof.
  intros Hp Htimes. pose proof (order_plane p Hp) as Hplane.
  assert (Hl : n <= len (latest_time self)) by apply Hwf.
  unfold greedy_body.
  rewrite (getitem_at order) by lia. cbn [bind].
  rewrite min_time_at_spec by assumption. cbn [bind].
  rewrite (getitem_at (latest_time self)) by lia. cbn [bind].
  fold (latest_of self (at_ order p)).
  assert (Hlb : forall t, lower_bound self order (times ++ [t]) p
                          = lower_bound self order times p).
  { intros t. unfold lower_bound. destruct (p =? 0) eqn:E; [reflexivity|].
    apply Z.eqb_neq in E. now rewrite at_app_l by lia. }
  assert (Hat : forall t, at_ (times ++ [t]) p = t)
    by (intros t; rewrite <- Htimes; apply at_app_r).
  destruct (Z.gtb_spec (lower_bound self order times p)
              (latest_of self (at_ order p))) as [Hgt|Hle].
  - cbn [bind]. eexists _, _. split; [reflexivity|].
    unfold greedy_time. rewrite Hlb, Hat. split; lia.
  - unfold randint.
    destruct (Z.leb_spec (lower_bound self order times p)
                (latest_of self (at_ order p))); [|lia].
    pose proof (drawn_range R _ _ g H) as Hdraw.
    destruct (drawn R (lower_bound self order times p)
                (latest_of self (at_ order p)) g) as [t g'] eqn:Ed.
    cbn [bind fst] in *. exists t, g'. split; [reflexivity|].
    unfold greedy_time. rewrite Hlb, Hat. split; lia.
Qed.

(** The loop of lines 135-148 ends with [n] landing times, each following
    the greedy rule. *)
Lemma greedy_loop_spec (g : rng R) :
  0 <= n ->
  exists times g',
    for_each (greedy_body self R order) (range n) ([], g)
    = Ok (Next (times, g')) /\
    len times = n /\
    forall p, 0 <= p < n -> greedy_time self order times p.
Proof.
  intros Hn.
  destruct (for_range_next (greedy_body self R order)
              (fun k st => len (fst st) = k /\
                           forall p, 0 <= p < k ->
                                     greedy_time self order (fst st) p)
              0 n ([], g) Hn) as ([times g'] & Hloop & Hlen' & Hrule).
  - split; [reflexivity|]. intros p Hp. lia.
  - intros k [times g'] Hk (Hlen' & Hrule). cbn [fst] in *.
    destruct (greedy_body_spec times g' k Hk Hlen') as (t & g'' & -> & Ht).
    eexists. split; [reflexivity|]. cbn [fst]. split.
    + rewrite len_app. change (len [t]) with 1. lia.
    + intros p Hp. destruct (Z.eq_dec p k) as [->|Hne]; [exact Ht|].
      assert (Hpk : 0 <= p < k) by lia. specialize (Hrule p Hpk).
      unfold greedy_time, lower_bound in *.
      rewrite (at_app_l times t p) by lia.
      destruct (p =? 0) eqn:E; [exact Hrule|].
      apply Z.eqb_neq in E. rewrite (at_app_l times t (p - 1)) by lia.
      exact Hrule.
  - exists times, g'. cbn [fst] in *. auto.
Qed.
End ConstructorLoop.

(** What the constructor returns on a well-formed instance. *)
Lemma random_solution_spec {N : Numeric} (self : AircraftLandingProblem N)
    (R : RandomSource) (g : rng R) :
  well_formed self -> 0 <= nb_planes self ->
  exists order times g',
    random_solution self R g = Ok (candidate order times, g') /\
    permutation_valid (nb_planes self) order times /\
    forall p, 0 <= p < nb_planes self -> greedy_time self order times p.
Proof.
  intros Hwf Hn. unfold random_solution.
  pose proof (shuffled_perm R (range (nb_planes self)) g) as HP.
  destruct (shuffled R (range (nb_planes self)) g) as [order g1].
  cbn [fst] in HP.
  assert (Hlen : len order = nb_planes self).
  { unfold len. rewrite (Permutation_length HP). now apply range_len. }
  destruct (greedy_loop_spec self R order Hwf HP Hlen g1 Hn)
    as (times & g' & -> & Htimes & Hrule).
  cbn [bind]. exists order, times, g'.
  split; [reflexivity|]. split; [|exact Hrule].
  repeat split; assumption.
Qed.

(** C9.  On every well-formed instance with [N >= 0] planes, [N = 0] and
    [N = 1] included, and for every outcome of the source of randomness, the
    constructor returns a candidate, and does not raise: its [landing_order]
    is a permutation of [0 .. N-1] and its [landing_times] has length [N]. *)
Theorem random_solution_structurally_valid
    {N : Numeric} (self : AircraftLandingProblem N)
    (R : RandomSource) (g : rng R) :
  well_formed self -> 0 <= nb_planes self ->
  exists order times g',
    random_solution self R g = Ok (candidate order times, g') /\
    Permutation order (range (nb_planes self)) /\
    len order = nb_planes self /\
    len times = nb_planes self.
Proof.
  intros Hwf Hn.
  destruct (random_solution_spec self R g Hwf Hn)
    as (order & times & g' & Hret & Hvalid & _).
  exists order, times, g'. split; [exact Hret|exact Hvalid].
Qed.

Lemma random_solution_structurally_valid_witness :
  exists order times g',
    random_solution two_planes reverse_lowest tt
    = Ok (candidate order times, g') /\
    Permutation order (range (nb_planes two_planes)) /\
    len order = nb_planes two_planes /\
    len times = nb_planes two_planes.
Proof.
  apply (random_solution_structurally_valid two_planes reverse_lowest tt).
  - exact two_planes_well_formed.
  - cbn; lia.
Defined.

(** C10.  For every outcome of the source of randomness the constructor
    assigns the landing times by the greedy rule: the lower bound at the
    first position is the earliest time of its plane, and at a later position
    the larger of the earliest time of its plane and the previous landing
    time plus the separation between the two planes; a lower bound that does
    not exceed the latest time of the plane gives a time between the two,
    both included, and a lower bound beyond it gives the latest time itself.
    So no returned landing time is after the latest time of its plane. *)
Theorem random_solution_greedy_times
    {N : Numeric} (self : AircraftLandingProblem N)
    (R : RandomSource) (g : rng R) :
  well_formed self -> 0 <= nb_planes self ->
  exists order times g',
    random_solution self R g = Ok (candidate order times, g') /\
    forall p, 0 <= p < nb_planes self ->
      greedy_time self order times p /\
      at_ times p <= latest_of self (at_ order p).
Proof.
  intros Hwf Hn.
  destruct (random_solution_spec self R g Hwf Hn)
    as (order & times & g' & Hret & _ & Hrule).
  exists order, times, g'. split; [exact Hret|].
  intros p Hp. split; [now apply Hrule|].
  destruct (Hrule p Hp) as (Hin & Hout).
  destruct (Z_le_gt_dec (lower_bound self order times p)
              (latest_of self (at_ order p))) as [Hle|Hgt].
  - now apply Hin.
  - rewrite Hout by lia. lia.
Qed.

Lemma random_solution_greedy_times_witness :
  exists order times g',
    random_solution two_planes reverse_lowest tt
    = Ok (candidate order times, g') /\
    forall p, 0 <= p < nb_planes two_planes ->
      greedy_time two_planes order times p /\
      at_ times p <= latest_of two_planes (at_ order p).
Proof.
  apply (random_solution_greedy_times two_planes reverse_lowest tt).
  - exact two_planes_well_formed.
  - cbn; lia.
Defined.

(** The order is reversed and each plane lands at its lower bound: plane 1
    at its earliest time 0, plane 0 seven units later. *)
Example random_solution_two_planes :
  random_solution two_planes reverse_lowest tt
  = Ok (candidate [1; 0] [0; 7], tt).
Proof. reflexivity. Qed.

(** The constructor does not promise feasibility: with windows too tight for
    the separation it falls back on the latest time, and the evaluator
    rejects the candidate. *)
Example random_solution_infeasible :
  random_solution tight_windows reverse_lowest tt
  = Ok (candidate [1; 0] [0; 0], tt) /\
  evaluate_solution tight_windows (candidate [1; 0] [0; 0])
  = Ok F64.PENALTY.
Proof. split; vm_compute; reflexivity. Qed.

(** On an instance with arrays shorter than its number of planes the
    constructor raises. *)
Example random_solution_short_arrays :
  random_solution short_arrays reverse_lowest tt = Raise IndexError.
Proof. reflexivity. Qed.

(** ** The loader *)

Section LoaderFacts.
Context {N : Numeric}.
Variable parse_int : string -> option Z.
Variable parse_float : string -> option (num N).

Lemma fault_app (ks1 ks2 : list token_kind) (toks : list string) :
  fault parse_int parse_float (ks1 ++ ks2) toks =
  match fault parse_int parse_float ks1 toks with
  | Some e => Some e
  | None => fault parse_int parse_float ks2 (skipn (List.length ks1) toks)
  end.
Proof.
  revert toks. induction ks1 as [|k ks1 IH]; intros toks; [reflexivity|].
  destruct toks as [|tok toks]; cbn; [reflexivity|].
  destruct (accepts parse_int parse_float k tok); [apply IH|reflexivity].
Qed.

(** The inner loop reads one integer per iteration. *)
Lemma row_loop_outcome (xs : list Z) (it : list string) (row : list Z) :
  match fault parse_int parse_float (repeat Integer (List.length xs)) it with
  | Some e => for_each (row_body parse_int) xs (it, row) = Raise e
  | None => exists row',
      for_each (row_body parse_int) xs (it, row)
      = Ok (Next (skipn (List.length xs) it, row'))
  end.
Proof.
  revert it row. induction xs as [|x xs IH]; intros it row; cbn.
  - now eexists.
  - destruct it as [|tok it]; cbn; [reflexivity|].
    unfold int. destruct (parse_int tok) as [v|]; cbn; [|reflexivity].
    apply IH.
Qed.

(** One iteration of the outer loop reads the tokens of one plane. *)
Lemma plane_body_outcome (x : Z) (it : list string)
    (self : AircraftLandingProblem N) :
  match fault parse_int parse_float (plane_format (nb_planes self)) it with
  | Some e => plane_body parse_int parse_float x (it, self) = Raise e
  | None => exists self',
      plane_body parse_int parse_float x (it, self)
      = Ok (Next (skipn (List.length (plane_format (nb_planes self))) it,
                  self')) /\
      nb_planes self' = nb_planes self
  end.
Proof.
  unfold plane_format, plane_body, int, float.
  destruct it as [|t0 it]; [reflexivity|].
  destruct it as [|t1 it]; [reflexivity|]. cbn [fault accepts next bind].
  destruct (parse_int t1) as [e|]; cbn [bind]; [|reflexivity].
  destruct it as [|t2 it]; [reflexivity|]. cbn [fault accepts next bind].
  destruct (parse_int t2) as [t|]; cbn [bind]; [|reflexivity].
  destruct it as [|t3 it]; [reflexivity|]. cbn [fault accepts next bind].
  destruct (parse_int t3) as [l|]; cbn [bind]; [|reflexivity].
  destruct it as [|t4 it]; [reflexivity|]. cbn [fault accepts next bind].
  destruct (parse_float t4) as [ec|]; cbn [bind]; [|reflexivity].
  destruct it as [|t5 it]; [reflexivity|]. cbn [fault accepts next bind].
  destruct (parse_float t5) as [tc|]; cbn [bind]; [|reflexivity].
  cbn [bind List.length skipn].
  pose proof (row_loop_outcome (range (nb_planes self)) it []) as Hrow.
  unfold range in *. rewrite range2_length, Z.sub_0_r in Hrow.
  rewrite repeat_length.
  destruct (fault parse_int parse_float
              (repeat Integer (Z.to_nat (nb_planes self))) it).
  - now rewrite Hrow.
  - destruct Hrow as (row' & ->). cbn [bind]. eexists. split; reflexivity.
Qed.

(** The outer loop reads the tokens of one plane per iteration. *)
Lemma plane_loop_outcome (xs : list Z) (it : list string)
    (self : AircraftLandingProblem N) :
  let ks := List.concat (repeat (plane_format (nb_planes self))
                           (List.length xs)) in
  match fault parse_int parse_float ks it with
  | Some e => for_each (plane_body parse_int parse_float) xs (it, self)
              = Raise e
  | None => exists self',
      for_each (plane_body parse_int parse_float) xs (it, self)
      = Ok (Next (skipn (List.length ks) it, self')) /\
      nb_planes self' = nb_planes self
  end.
Proof.
  revert it self. induction xs as [|x xs IH]; intros it self; cbn zeta.
  - cbn. now eexists.
  - cbn [List.length repeat List.concat for_each]. rewrite fault_app.
    pose proof (plane_body_outcome x it self) as Hbody.
    destruct (fault parse_int parse_float (plane_format (nb_planes self)) it).
    + now rewrite Hbody.
    + destruct Hbody as (self' & -> & Hn).
      specialize (IH (skipn (List.length (plane_format (nb_planes self))) it)
                    self').
      cbn zeta in IH. rewrite Hn in IH.
      destruct (fault parse_int parse_float _ _).
      * exact IH.
      * destruct IH as (self'' & -> & Hn').
        exists self''. split; [|congruence].
        rewrite length_app, Nat.add_comm, <- skipn_skipn. reflexivity.
Qed.

(** The loader as a whole: its outcome is the fault of the stream against
    the format of the number of planes it announces. *)
Lemma load_tokens_outcome (tokens : list string) :
  match tokens with
  | [] => load_tokens parse_int parse_float tokens = Raise StopIteration
  | tok :: _ =>
      match parse_int tok with
      | None => load_tokens parse_int parse_float tokens = Raise ValueError
      | Some n =>
          match fault parse_int parse_float (stream_format n) tokens with
          | Some e => load_tokens parse_int parse_float tokens = Raise e
          | None => exists self,
              load_tokens parse_int parse_float tokens
              = Ok (self, skipn (List.length (stream_format n)) tokens) /\
              nb_planes self = n
          end
      end
  end.
Proof.
  destruct tokens as [|tok it]; [reflexivity|].
  unfold load_tokens, stream_format, int. cbn [next bind fault accepts].
  destruct (parse_int tok) as [n|]; cbn [bind]; [|reflexivity].
  destruct it as [|freeze it]; [reflexivity|].
  cbn [next bind fault accepts List.length skipn].
  match goal with
  | |- context [for_each _ _ (it, ?s)] =>
      pose proof (plane_loop_outcome (range n) it s) as Hloop
  end.
  cbn zeta in Hloop. cbn [nb_planes] in Hloop.
  unfold range in *. rewrite range2_length, Z.sub_0_r in Hloop.
  destruct (fault parse_int parse_float _ it).
  - now rewrite Hloop.
  - destruct Hloop as (self & -> & Hn). cbn [bind]. now exists self.
Qed.

(** Tokens after those the loader reads change nothing. *)
Lemma row_loop_frame (extra : list string) (xs : list Z)
    (it it' : list string) (row row' : list Z) :
  for_each (row_body parse_int) xs (it, row) = Ok (Next (it', row')) ->
  for_each (row_body parse_int) xs (it ++ extra, row)
  = Ok (Next (it' ++ extra, row')).
Proof.
  revert it row. induction xs as [|x xs IH]; intros it row; cbn.
  - now intros [= -> ->].
  - destruct it as [|tok it]; cbn; [discriminate|].
    unfold int. destruct (parse_int tok); cbn; [apply IH|discriminate].
Qed.

Lemma plane_body_frame (extra : list string) (x : Z) (it it' : list string)
    (self self' : AircraftLandingProblem N) :
  plane_body parse_int parse_float x (it, self) = Ok (Next (it', self')) ->
  plane_body parse_int parse_float x (it ++ extra, self)
  = Ok (Next (it' ++ extra, self')).
Proof.
  unfold plane_body, int, float.
  destruct it as [|t0 it]; [discriminate|].
  destruct it as [|t1 it]; [discriminate|]. cbn [app next bind].
  destruct (parse_int t1) as [e|]; cbn [bind]; [|discriminate].
  destruct it as [|t2 it]; [discriminate|]. cbn [app next bind].
  destruct (parse_int t2) as [t|]; cbn [bind]; [|discriminate].
  destruct it as [|t3 it]; [discriminate|]. cbn [app next bind].
  destruct (parse_int t3) as [l|]; cbn [bind]; [|discriminate].
  destruct it as [|t4 it]; [discriminate|]. cbn [app next bind].
  destruct (parse_float t4) as [ec|]; cbn [bind]; [|discriminate].
  destruct it as [|t5 it]; [discriminate|]. cbn [app next bind].
  destruct (parse_float t5) as [tc|]; cbn [bind]; [|discriminate].
  destruct (for_each (row_body parse_int) (range (nb_planes self)) (it, []))
    as [[[it2 row2]|[]]|ex] eqn:E; cbn [bind]; [|discriminate].
  rewrite (row_loop_frame extra _ _ _ _ _ E). cbn [bind].
  now intros [= <- <-].
Qed.

Lemma plane_loop_frame (extra : list string) (xs : list Z)
    (it it' : list string) (self self' : AircraftLandingProblem N) :
  for_each (plane_body parse_int parse_float) xs (it, self)
  = Ok (Next (it', self')) ->
  for_each (plane_body parse_int parse_float) xs (it ++ extra, self)
  = Ok (Next (it' ++ extra, self')).
Proof.
  revert it self. induction xs as [|x xs IH]; intros it self; cbn [for_each].
  - now intros [= -> ->].
  - destruct (plane_body parse_int parse_float x (it, self))
      as [[[it1 self1]|[]]|ex] eqn:E; [|discriminate].
    rewrite (plane_body_frame extra _ _ _ _ _ E). apply IH.
Qed.

Lemma load_tokens_frame (extra tokens rest : list string)
    (self : AircraftLandingProblem N) :
  load_tokens parse_int parse_float tokens = Ok (self, rest) ->
  load_tokens parse_int parse_float (tokens ++ extra)
  = Ok (self, rest ++ extra).
Proof.
  unfold load_tokens, int.
  destruct tokens as [|tok it]; [discriminate|]. cbn [app next bind].
  destruct (parse_int tok) as [n|]; cbn [bind]; [|discriminate].
  destruct it as [|freeze it]; [discriminate|]. cbn [app next bind].
  match goal with
  | |- context [for_each ?b ?xs (it, ?s)] =>
      destruct (for_each b xs (it, s)) as [[[it1 self1]|[]]|ex] eqn:E;
      cbn [bind]; [|discriminate]
  end.
  rewrite (plane_loop_frame extra _ _ _ _ _ E). cbn [bind].
  now intros [= <- <-].
Qed.

(** On [n >= 0] planes the format has [2 + n * (6 + n)] tokens. *)
Lemma stream_format_length (n : Z) :
  0 <= n -> len (stream_format n) = 2 + n * (6 + n).
Proof.
  intros Hn. unfold len, stream_format, plane_format. cbn [List.length].
  rewrite length_concat, map_repeat. cbn [List.length].
  rewrite repeat_length.
  assert (Hsum : forall k m : nat, list_sum (repeat m k) = (k * m)%nat).
  { induction k as [|k IH]; intros m; cbn; [reflexivity|]. now rewrite IH. }
  rewrite Hsum. lia.
Qed.
End LoaderFacts.

Lemma fault_exn {N : Numeric} (parse_int : string -> option Z)
    (parse_float : string -> option (num N))
    (ks : list token_kind) (toks : list string) (e : exn) :
  fault parse_int parse_float ks toks = Some e ->
  e = StopIteration \/ e = ValueError.
Proof.
  revert toks. induction ks as [|k ks IH]; intros toks; [discriminate|].
  destruct toks as [|tok toks]; cbn.
  - intros [= <-]. now left.
  - destruct (accepts parse_int parse_float k tok); [apply IH|].
    intros [= <-]. now right.
Qed.

Lemma fault_stop_iff {N : Numeric} (parse_int : string -> option Z)
    (parse_float : string -> option (num N))
    (ks : list token_kind) (toks : list string) :
  fault parse_int parse_float ks toks = Some StopIteration <->
  ends_early parse_int parse_float ks toks.
Proof.
  split.
  - revert toks. induction ks as [|k ks IH]; intros toks; [discriminate|].
    destruct toks as [|tok toks]; cbn [fault].
    + intros _. exists [], k, ks. split; [reflexivity|constructor].
    + destruct (accepts parse_int parse_float k tok) eqn:Ea; [|discriminate].
      intros H. destruct (IH _ H) as (ks1 & k' & ks2 & -> & Hall).
      exists (k :: ks1), k', ks2. split; [reflexivity|].
      now constructor.
  - intros (ks1 & k & ks2 & -> & Hall).
    induction Hall as [|k1 tok ks1 toks Ha _ IH]; [reflexivity|].
    cbn [app fault]. now rewrite Ha.
Qed.

Lemma fault_value_iff {N : Numeric} (parse_int : string -> option Z)
    (parse_float : string -> option (num N))
    (ks : list token_kind) (toks : list string) :
  fault parse_int parse_float ks toks = Some ValueError <->
  unreadable_token parse_int parse_float ks toks.
Proof.
  split.
  - revert toks. induction ks as [|k ks IH]; intros toks; [discriminate|].
    destruct toks as [|tok toks]; cbn [fault]; [discriminate|].
    destruct (accepts parse_int parse_float k tok) eqn:Ea.
    + intros H.
      destruct (IH _ H) as (ks1 & k' & ks2 & toks1 & tok' & toks2
                            & -> & -> & Hall & Hno).
      exists (k :: ks1), k', ks2, (tok :: toks1), tok', toks2.
      repeat split; try assumption. now constructor.
    + intros _. exists [], k, ks, [], tok, toks.
      repeat split; [constructor|exact Ea].
  - intros (ks1 & k & ks2 & toks1 & tok & toks2 & -> & -> & Hall & Hno).
    induction Hall as [|k1 tok1 ks1 toks1 Ha _ IH];
      cbn [app fault]; [now rewrite Hno|now rewrite Ha].
Qed.

(** The outcome of the loader on a stream that has a first token. *)
Lemma load_file_outcome {N : Numeric}
    (parse_int : string -> option Z) (parse_float : string -> option (num N))
    (tok : string) (rest : list string) :
  match parse_int tok with
  | None =>
      _load_instance_from_file parse_int parse_float (tok :: rest)
      = Raise ValueError
  | Some n =>
      match fault parse_int parse_float (stream_format n) (tok :: rest) with
      | Some e =>
          _load_instance_from_file parse_int parse_float (tok :: rest)
          = Raise e
      | None =>
          exists self,
            _load_instance_from_file parse_int parse_float (tok :: rest)
            = Ok self
      end
  end.
Proof.
  pose proof (load_tokens_outcome parse_int parse_float (tok :: rest)) as Hout.
  unfold _load_instance_from_file. cbn beta iota in Hout.
  destruct (parse_int tok) as [n|]; [|now rewrite Hout].
  destruct (fault parse_int parse_float (stream_format n) (tok :: rest))
    as [e|]; [now rewrite Hout|].
  destruct Hout as (self & -> & _). now exists self.
Qed.

(** C8.  Whatever [int] and [float] accept, construction from a token
    stream succeeds exactly when the first token reads as an integer [N] and
    the stream meets no fault against the format of [N] planes: it is long
    enough, its earliest, target, latest and separation tokens read as
    integers and its cost rates as reals.  The freeze-time and
    appearance-time tokens are skipped unread.  It fails with
    [StopIteration] exactly when the stream ends early, every token before
    its end being readable, and with [ValueError] exactly when it holds a
    token that does not read, every token before that one being readable;
    it fails with nothing else.  Tokens after those of the format are
    ignored: appending any to a stream that loads gives the same
    instance. *)
Theorem load_instance_outcome {N : Numeric}
    (parse_int : string -> option Z) (parse_float : string -> option (num N))
    (tokens : list string) :
  ((exists self,
      _load_instance_from_file parse_int parse_float tokens = Ok self) <->
   conforming parse_int parse_float tokens) /\
  (_load_instance_from_file parse_int parse_float tokens
   = Raise StopIteration <->
   exhausted parse_int parse_float tokens) /\
  (_load_instance_from_file parse_int parse_float tokens
   = Raise ValueError <->
   misread parse_int parse_float tokens) /\
  (forall e, _load_instance_from_file parse_int parse_float tokens = Raise e ->
             e = StopIteration \/ e = ValueError) /\
  (forall self extra,
     _load_instance_from_file parse_int parse_float tokens = Ok self ->
     _load_instance_from_file parse_int parse_float (tokens ++ extra)
     = Ok self).
Proof.
  unfold conforming, exhausted, misread.
  split; [|split; [|split; [|split]]].
  - destruct tokens as [|tok it].
    { split; [intros (self & [=])|intros (tok & rest & n & [=] & _)]. }
    pose proof (load_file_outcome parse_int parse_float tok it) as Hout.
    destruct (parse_int tok) as [n|] eqn:En.
    2:{ rewrite Hout. split; [intros (self & [=])|].
        intros (tok' & rest & n & [= <- <-] & Hn & _). congruence. }
    destruct (fault parse_int parse_float (stream_format n) (tok :: it))
      as [e|] eqn:Ef.
    + rewrite Hout. split; [intros (self & [=])|].
      intros (tok' & rest & n' & [= <- <-] & Hn & Hf). congruence.
    + split; [intros _; now exists tok, it, n|intros _; exact Hout].
  - destruct tokens as [|tok it].
    { split; [now left|reflexivity]. }
    pose proof (load_file_outcome parse_int parse_float tok it) as Hout.
    destruct (parse_int tok) as [n|] eqn:En.
    2:{ rewrite Hout. split; [discriminate|].
        intros [[=]|(tok' & rest & n & [= <- <-] & Hn & _)]. congruence. }
    destruct (fault parse_int parse_float (stream_format n) (tok :: it))
      as [e|] eqn:Ef.
    + rewrite Hout. split.
      * intros [= ->]. right. exists tok, it, n.
        repeat split; try assumption. now apply fault_stop_iff.
      * intros [[=]|(tok' & rest & n' & [= <- <-] & Hn & He)].
        assert (n' = n) as -> by congruence.
        apply fault_stop_iff in He. congruence.
    + destruct Hout as (self & ->). split; [discriminate|].
      intros [[=]|(tok' & rest & n' & [= <- <-] & Hn & He)].
      assert (n' = n) as -> by congruence.
      apply fault_stop_iff in He. congruence.
  - destruct tokens as [|tok it].
    { split; [discriminate|intros (tok & rest & [=] & _)]. }
    pose proof (load_file_outcome parse_int parse_float tok it) as Hout.
    destruct (parse_int tok) as [n|] eqn:En.
    2:{ rewrite Hout. split; [|reflexivity].
        intros _. exists tok, it. split; [reflexivity|now left]. }
    destruct (fault parse_int parse_float (stream_format n) (tok :: it))
      as [e|] eqn:Ef.
    + rewrite Hout. split.
      * intros [= ->]. exists tok, it. split; [reflexivity|right].
        exists n. split; [exact En|]. now apply fault_value_iff.
      * intros (tok' & rest & [= <- <-] & [Hn|(n' & Hn & He)]);
          [congruence|].
        assert (n' = n) as -> by congruence.
        apply fault_value_iff in He. congruence.
    + destruct Hout as (self & ->). split; [discriminate|].
      intros (tok' & rest & [= <- <-] & [Hn|(n' & Hn & He)]);
        [congruence|].
      assert (n' = n) as -> by congruence.
      apply fault_value_iff in He. congruence.
  - intros e. destruct tokens as [|tok it].
    { intros [= <-]. now left. }
    pose proof (load_file_outcome parse_int parse_float tok it) as Hout.
    destruct (parse_int tok) as [n|].
    2:{ rewrite Hout. intros [= <-]. now right. }
    destruct (fault parse_int parse_float (stream_format n) (tok :: it))
      as [e'|] eqn:Ef.
    + rewrite Hout. intros [= <-]. exact (fault_exn _ _ _ _ _ Ef).
    + destruct Hout as (self & ->). discriminate.
  - intros self extra. unfold _load_instance_from_file.
    destruct (load_tokens parse_int parse_float tokens)
      as [[self' rest]|e] eqn:E; cbn [bind]; [|discriminate].
    intros [= ->].
    now rewrite (load_tokens_frame parse_int parse_float extra _ _ _ E).
Qed.

(** A third token after the two of an instance without planes, and a
    freeze time and an appearance time that are no numbers: both streams
    load. *)
Lemma surplus_tokens_accepted :
  len ["0"; "0"; "7"]%string <> 2 + 0 * (6 + 0) /\
  _load_instance_from_file dec_int dec_float ["0"; "0"; "7"]%string
  = Ok (instance64 0 [] [] [] [] [] []) /\
  dec_int "soon"%string = None /\ dec_float "soon"%string = None /\
  dec_int "now"%string = None /\ dec_float "now"%string = None /\
  _load_instance_from_file dec_int dec_float
    ["1"; "soon"; "now"; "0"; "10"; "20"; "2"; "3"; "0"]%string
  = Ok one_plane.
Proof. repeat split; try (vm_compute; reflexivity). vm_compute. discriminate. Qed.

(** A stream that ends early and a token of the wrong type. *)
Example truncated_stream :
  _load_instance_from_file dec_int dec_float
    ["1"; "0"; "0"; "0"; "10"; "20"; "2"; "3"]%string
  = Raise StopIteration.
Proof. reflexivity. Qed.

Example mistyped_token :
  _load_instance_from_file dec_int dec_float
    ["1"; "0"; "0"; "0"; "10"; "20.5"; "2"; "3"; "0"]%string
  = Raise ValueError.
Proof. reflexivity. Qed.

(** X2.  A value other than the sentinel certifies the candidate: on a
    well-formed instance the evaluator returns one only for a candidate that
    has both keys and passes every check, and the value is then the
    accumulated cost. *)
Theorem evaluate_solution_value_feasible
    {N : Numeric} (self : AircraftLandingProblem N) (solution : Solution)
    (v : num N) :
  well_formed self ->
  evaluate_solution self solution = Ok v ->
  v <> PENALTY N ->
  exists order times,
    solution = candidate order times /\
    feasible self order times /\
    v = accumulated_cost self order times.
Proof.
  intros Hwf Hev Hv.
  destruct (structural_guards self solution)
    as [Hpen|(order & times & -> & Hvalid)]; [congruence|].
  pose proof (evaluate_valid_outcome self order times Hwf Hvalid) as Hout.
  rewrite Hev in Hout. destruct Hout as [(-> & _)|(Hfeas & _ & ->)];
    [congruence|].
  now exists order, times.
Qed.

Lemma evaluate_solution_value_feasible_witness :
  exists order times,
    candidate [0; 1] [10; 35] = candidate order times /\
    feasible two_planes order times /\
    float_of 10 = accumulated_cost two_planes order times.
Proof.
  apply (evaluate_solution_value_feasible two_planes
           (candidate [0; 1] [10; 35]) (float_of 10)).
  - exact two_planes_well_formed.
  - vm_compute. reflexivity.
  - vm_compute. discriminate.
Defined.

(** X1.  The cost of a feasible candidate: on a well-formed instance, when every
    deviation converts to a float, the evaluator returns the costs of the
    landings added to [0.0] from the first position to the last. *)
Theorem evaluate_solution_accumulates
    {N : Numeric} (self : AircraftLandingProblem N) (order times : list Z) :
  well_formed self ->
  feasible self order times ->
  (forall q, 0 <= q < nb_planes self ->
             converts (N := N) (deviation self order times q)) ->
  evaluate_solution self (candidate order times)
  = Ok (accumulated_cost self order times).
Proof.
  intros Hwf Hfeas Hconv.
  pose proof (evaluate_valid_outcome self order times Hwf (proj1 Hfeas))
    as Hout.
  destruct (evaluate_solution self (candidate order times)) as [v|e].
  - destruct Hout as [(_ & Hn)|(_ & _ & ->)]; [contradiction|reflexivity].
  - destruct Hout as (_ & q & Hq & _ & Hc). exfalso. auto.
Qed.

Lemma evaluate_solution_accumulates_witness :
  evaluate_solution two_planes (candidate [1; 0] [20; 30])
  = Ok (accumulated_cost two_planes [1; 0] [20; 30]).
Proof.
  apply (evaluate_solution_accumulates two_planes [1; 0] [20; 30]).
  - exact two_planes_well_formed.
  - split; [apply permutation_valid_swap|].
    split; intros q Hq; solve_position q Hq.
  - intros q Hq. apply F64_of_int_small.
    cbn in Hq. assert (Hc : q = 0 \/ q = 1) by lia.
    destruct Hc; subst q; vm_compute; reflexivity.
Defined.

(** X3.  On a well-formed instance the evaluator raises nothing but
    [OverflowError], and that only for a permutation-valid candidate in which
    a landing inside its window has a deviation from target that does not
    convert to a float. *)
Theorem evaluate_solution_raises_only_overflow
    {N : Numeric} (self : AircraftLandingProblem N) (solution : Solution)
    (e : exn) :
  well_formed self ->
  evaluate_solution self solution = Raise e ->
  e = OverflowError /\
  exists order times q,
    solution = candidate order times /\
    permutation_valid (nb_planes self) order times /\
    0 <= q < nb_planes self /\
    in_window self order times q /\
    ~ converts (N := N) (deviation self order times q).
Proof.
  intros Hwf Hev.
  destruct (structural_guards self solution)
    as [Hpen|(order & times & -> & Hvalid)]; [congruence|].
  pose proof (evaluate_valid_outcome self order times Hwf Hvalid) as Hout.
  rewrite Hev in Hout. destruct Hout as (-> & q & Hq & Hw & Hc).
  split; [reflexivity|]. now exists order, times, q.
Qed.

Lemma evaluate_solution_raises_only_overflow_witness :
  OverflowError = OverflowError /\
  exists order times q,
    candidate [0; 1] [0; 5] = candidate order times /\
    permutation_valid (nb_planes huge_window) order times /\
    0 <= q < nb_planes huge_window /\
    in_window huge_window order times q /\
    ~ converts (N := binary64) (deviation huge_window order times q).
Proof.
  apply (evaluate_solution_raises_only_overflow huge_window
           (candidate [0; 1] [0; 5]) OverflowError).
  - exact huge_window_well_formed.
  - vm_compute. reflexivity.
Defined.

(** X7.  Without planes: when the number of planes is zero the candidate with two
    empty lists costs [0.0], whatever the arrays of the instance hold, and
    every other candidate is infeasible; when it is negative every candidate
    is infeasible. *)
Theorem evaluate_solution_no_planes
    {N : Numeric} (self : AircraftLandingProblem N) (solution : Solution) :
  nb_planes self <= 0 ->
  evaluate_solution self solution
  = if (nb_planes self =? 0) && is_empty_candidate solution
    then Ok (zero N) else Ok (PENALTY N).
Proof.
  intros Hn. unfold evaluate_solution, is_empty_candidate.
  destruct solution as [[order|] [times|]];
    cbn [landing_order landing_times];
    try (now rewrite andb_false_r);
    try (destruct order; now rewrite andb_false_r).
  destruct (Z.eqb_spec (nb_planes self) 0) as [H0|H0].
  - rewrite H0. destruct order as [|x order]; destruct times as [|y times];
      reflexivity.
  - cbn [andb]. pose proof (len_nonneg order).
    destruct (Z.eqb_spec (len order) (nb_planes self)); [lia|reflexivity].
Qed.

Lemma evaluate_solution_no_planes_witness :
  evaluate_solution (instance64 0 [5] [] [7] [] [] []) (candidate [] [])
  = Ok (zero binary64).
Proof.
  apply (evaluate_solution_no_planes
           (instance64 0 [5] [] [7] [] [] []) (candidate [] [])).
  cbn. lia.
Defined.

(** ** The constructor and the evaluator together *)

(** A schedule built by the greedy rule is feasible exactly when no lower
    bound exceeded the latest time of its plane. *)
Lemma greedy_feasible_iff {N : Numeric} (self : AircraftLandingProblem N)
    (order times : list Z) :
  permutation_valid (nb_planes self) order times ->
  (forall p, 0 <= p < nb_planes self -> greedy_time self order times p) ->
  (feasible self order times <->
   forall p, 0 <= p < nb_planes self ->
     lower_bound self order times p <= latest_of self (at_ order p)).
Proof.
  intros Hvalid Hrule. split.
  - intros (_ & Hwin & Hsep) p Hp.
    destruct (Z_le_gt_dec (lower_bound self order times p)
                (latest_of self (at_ order p))) as [Hle|Hgt]; [exact Hle|].
    exfalso. destruct (Hrule p Hp) as (_ & Hout).
    specialize (Hout ltac:(lia)). specialize (Hwin p Hp).
    unfold in_window in Hwin. unfold lower_bound in Hgt.
    destruct (Z.eqb_spec p 0) as [->|Hne]; [lia|].
    specialize (Hsep p ltac:(lia)). unfold separated in Hsep. lia.
  - intros Hfit. split; [exact Hvalid|]. split.
    + intros p Hp. destruct (Hrule p Hp) as (Hin & _).
      specialize (Hin (Hfit p Hp)). unfold in_window.
      unfold lower_bound in Hin. destruct (p =? 0); lia.
    + intros p Hp. destruct (Hrule p ltac:(lia)) as (Hin & _).
      specialize (Hin (Hfit p ltac:(lia))). unfold separated.
      unfold lower_bound in Hin.
      destruct (Z.eqb_spec p 0) as [->|Hne]; lia.
Qed.

(** X8.  On a well-formed instance the constructor returns a feasible candidate
    exactly when, walking the order, it never met a lower bound beyond the
    latest time of the plane: every fallback on the latest time makes the
    schedule infeasible, and nothing else does. *)
Theorem random_solution_feasible_iff
    {N : Numeric} (self : AircraftLandingProblem N)
    (R : RandomSource) (g : rng R) :
  well_formed self -> 0 <= nb_planes self ->
  exists order times g',
    random_solution self R g = Ok (candidate order times, g') /\
    (feasible self order times <->
     forall p, 0 <= p < nb_planes self ->
       lower_bound self order times p <= latest_of self (at_ order p)).
Proof.
  intros Hwf Hn.
  destruct (random_solution_spec self R g Hwf Hn)
    as (order & times & g' & Hret & Hvalid & Hrule).
  exists order, times, g'. split; [exact Hret|].
  now apply greedy_feasible_iff.
Qed.

Lemma random_solution_feasible_iff_witness :
  exists order times g',
    random_solution two_planes reverse_lowest tt
    = Ok (candidate order times, g') /\
    (feasible two_planes order times <->
     forall p, 0 <= p < nb_planes two_planes ->
       lower_bound two_planes order times p
       <= latest_of two_planes (at_ order p)).
Proof.
  apply (random_solution_feasible_iff two_planes reverse_lowest tt).
  - exact two_planes_well_formed.
  - cbn; lia.
Defined.

(** X9.  The candidate of the constructor under the evaluator, on a well-formed
    instance whose in-window deviations convert to floats: the evaluation
    does not raise; it gives the accumulated cost when the constructor never
    fell back on a latest time, and the sentinel when it did. *)
Theorem evaluate_random_solution
    {N : Numeric} (self : AircraftLandingProblem N)
    (R : RandomSource) (g : rng R) :
  well_formed self -> 0 <= nb_planes self -> representable self ->
  exists order times g',
    random_solution self R g = Ok (candidate order times, g') /\
    ((forall p, 0 <= p < nb_planes self ->
        lower_bound self order times p <= latest_of self (at_ order p)) ->
     evaluate_solution self (candidate order times)
     = Ok (accumulated_cost self order times)) /\
    ((exists p, 0 <= p < nb_planes self /\
        latest_of self (at_ order p) < lower_bound self order times p) ->
     evaluate_solution self (candidate order times) = Ok (PENALTY N)).
Proof.
  intros Hwf Hn Hrep.
  destruct (random_solution_spec self R g Hwf Hn)
    as (order & times & g' & Hret & Hvalid & Hrule).
  exists order, times, g'. split; [exact Hret|].
  pose proof (greedy_feasible_iff self order times Hvalid Hrule) as Hiff.
  pose proof (evaluate_valid_outcome self order times Hwf Hvalid) as Hout.
  destruct (evaluate_solution self (candidate order times)) as [v|e].
  - split.
    + intros Hfit. destruct Hout as [(_ & Hnf)|(_ & _ & ->)];
        [|reflexivity].
      exfalso. apply Hnf. apply (proj2 Hiff Hfit).
    + intros (p & Hp & Hgt). destruct Hout as [(-> & _)|(Hfeas & _)];
        [reflexivity|].
      exfalso. pose proof (proj1 Hiff Hfeas p Hp). lia.
  - exfalso. destruct Hout as (_ & q & Hq & Hw & Hc). apply Hc.
    unfold deviation. apply Hrep; [|exact Hw].
    exact (permutation_valid_plane _ _ _ _ Hvalid Hq).
Qed.

Lemma tight_windows_well_formed : well_formed tight_windows.
Proof. solve_well_formed. Qed.

Lemma tight_windows_representable : representable tight_windows.
Proof.
  intros plane t Hplane Ht. apply F64_of_int_small.
  cbn in Hplane. assert (Hc : plane = 0 \/ plane = 1) by lia.
  destruct Hc; subst plane;
    unfold earliest_of, latest_of, target_of, at_ in *; simpl in *; lia.
Qed.

Lemma evaluate_random_solution_witness :
  exists order times g',
    random_solution tight_windows reverse_lowest tt
    = Ok (candidate order times, g') /\
    ((forall p, 0 <= p < nb_planes tight_windows ->
        lower_bound tight_windows order times p
        <= latest_of tight_windows (at_ order p)) ->
     evaluate_solution tight_windows (candidate order times)
     = Ok (accumulated_cost tight_windows order times)) /\
    ((exists p, 0 <= p < nb_planes tight_windows /\
        latest_of tight_windows (at_ order p)
        < lower_bound tight_windows order times p) ->
     evaluate_solution tight_windows (candidate order times)
     = Ok (PENALTY binary64)).
Proof.
  apply (evaluate_random_solution tight_windows reverse_lowest tt).
  - exact tight_windows_well_formed.
  - cbn; lia.
  - exact tight_windows_representable.
Defined.

(** X10.  Without planes the constructor returns the candidate with two empty
    lists and reads none of the arrays of the instance; when the number of
    planes is zero the evaluator gives that candidate the cost [0.0]. *)
Theorem random_solution_no_planes
    {N : Numeric} (self : AircraftLandingProblem N)
    (R : RandomSource) (g : rng R) :
  nb_planes self <= 0 ->
  exists g',
    random_solution self R g = Ok (candidate [] [], g') /\
    (nb_planes self = 0 ->
     evaluate_solution self (candidate [] []) = Ok (zero N)).
Proof.
  intros Hn. unfold random_solution, range.
  rewrite range2_nil by lia.
  pose proof (shuffled_perm R [] g) as HP.
  destruct (shuffled R [] g) as [order g1]. cbn [fst] in HP.
  apply Permutation_sym, Permutation_nil in HP. subst order.
  cbn. exists g1. split; [reflexivity|].
  intros H0. unfold evaluate_solution. cbn [landing_order landing_times candidate].
  rewrite H0. reflexivity.
Qed.

Lemma random_solution_no_planes_witness :
  exists g',
    random_solution (instance64 0 [5] [] [7] [] [] []) reverse_lowest tt
    = Ok (candidate [] [], g') /\
    (nb_planes (instance64 0 [5] [] [7] [] [] []) = 0 ->
     evaluate_solution (instance64 0 [5] [] [7] [] [] []) (candidate [] [])
     = Ok (zero binary64)).
Proof.
  apply (random_solution_no_planes
           (instance64 0 [5] [] [7] [] [] []) reverse_lowest tt).
  cbn. lia.
Defined.

(** ** What the loader builds *)

Section LoaderEncoding.
Context {N : Numeric}.
Variable parse_int : string -> option Z.
Variable parse_float : string -> option (num N).

(** The inner loop reads a row: the tokens it takes off the iterator read
    as the integers it appends. *)
Lemma row_loop_reads (xs : list Z) (it it' : list string) (row row' : list Z) :
  for_each (row_body parse_int) xs (it, row) = Ok (Next (it', row')) <->
  exists seps vs,
    it = seps ++ it' /\ reads_ints parse_int seps vs /\
    List.length vs = List.length xs /\ row' = row ++ vs.
Proof.
  revert it row. induction xs as [|x xs IH]; intros it row; cbn [for_each].
  - split.
    + intros [= -> ->]. exists [], []. rewrite app_nil_r.
      repeat split; constructor.
    + intros (seps & vs & -> & Hr & Hlen & ->).
      destruct vs; [|discriminate]. inversion Hr; subst.
      now rewrite app_nil_r.
  - unfold row_body at 1, int. destruct it as [|tok it]; cbn [next bind].
    + split; [discriminate|].
      intros (seps & vs & Hit & Hr & Hlen & _).
      destruct vs as [|v vs]; [discriminate|].
      inversion Hr; subst. discriminate.
    + destruct (parse_int tok) as [v|] eqn:Ev; cbn [bind].
      * rewrite IH. split.
        -- intros (seps & vs & -> & Hr & Hlen & ->).
           exists (tok :: seps), (v :: vs). rewrite <- app_assoc.
           repeat split; cbn; auto. now constructor.
        -- intros (seps & vs & Hit & Hr & Hlen & ->).
           destruct vs as [|v' vs]; [discriminate|].
           inversion Hr as [|tok' ? seps' ? Hv Hr']; subst.
           injection Hit as <- ->.
           assert (v' = v) as -> by congruence.
           exists seps', vs. rewrite <- app_assoc.
           repeat split; cbn in *; auto.
      * split; [discriminate|].
        intros (seps & vs & Hit & Hr & Hlen & _).
        destruct vs as [|v vs]; [discriminate|].
        inversion Hr as [|tok' ? seps' ? Hv Hr']; subst.
        injection Hit as <- ->. congruence.
Qed.

(** One iteration of the outer loop reads the block of one plane. *)
Lemma plane_body_reads (x : Z) (it it' : list string)
    (self self' : AircraftLandingProblem N) :
  plane_body parse_int parse_float x (it, self) = Ok (Next (it', self')) ->
  exists block e t l ec tc row,
    it = block ++ it' /\
    plane_block parse_int parse_float e t l ec tc row block /\
    List.length row = Z.to_nat (nb_planes self) /\
    self' = with_planes self [e] [t] [l] [ec] [tc] [row].
Proof.
  unfold plane_body, int, float.
  destruct it as [|t0 it]; [discriminate|].
  destruct it as [|t1 it]; [discriminate|]. cbn [next bind].
  destruct (parse_int t1) as [e|] eqn:E1; cbn [bind]; [|discriminate].
  destruct it as [|t2 it]; [discriminate|]. cbn [next bind].
  destruct (parse_int t2) as [t|] eqn:E2; cbn [bind]; [|discriminate].
  destruct it as [|t3 it]; [discriminate|]. cbn [next bind].
  destruct (parse_int t3) as [l|] eqn:E3; cbn [bind]; [|discriminate].
  destruct it as [|t4 it]; [discriminate|]. cbn [next bind].
  destruct (parse_float t4) as [ec|] eqn:E4; cbn [bind]; [|discriminate].
  destruct it as [|t5 it]; [discriminate|]. cbn [next bind].
  destruct (parse_float t5) as [tc|] eqn:E5; cbn [bind]; [|discriminate].
  destruct (for_each (row_body parse_int) (range (nb_planes self)) (it, []))
    as [[[it2 row]|[]]|ex] eqn:Er; cbn [bind]; [|discriminate].
  intros [= <- <-].
  apply row_loop_reads in Er. destruct Er as (seps & vs & -> & Hr & Hlen & ->).
  exists (t0 :: t1 :: t2 :: t3 :: t4 :: t5 :: seps), e, t, l, ec, tc, vs.
  unfold range in Hlen. rewrite range2_length, Z.sub_0_r in Hlen.
  repeat split; auto.
Qed.

Lemma plane_body_built (x : Z) (block it' : list string)
    (self : AircraftLandingProblem N) (e t l : Z) (ec tc : num N)
    (row : list Z) :
  plane_block parse_int parse_float e t l ec tc row block ->
  List.length row = Z.to_nat (nb_planes self) ->
  plane_body parse_int parse_float x (block ++ it', self)
  = Ok (Next (it', with_planes self [e] [t] [l] [ec] [tc] [row])).
Proof.
  intros Hblock Hlen.
  destruct block as [|t0 [|t1 [|t2 [|t3 [|t4 [|t5 seps]]]]]];
    try contradiction.
  destruct Hblock as (E1 & E2 & E3 & E4 & E5 & Hr).
  unfold plane_body, int, float. cbn [app next bind].
  rewrite E1, E2, E3, E4, E5. cbn [bind].
  assert (Hrow : for_each (row_body parse_int) (range (nb_planes self))
                   (seps ++ it', []) = Ok (Next (it', [] ++ row))).
  { apply row_loop_reads. exists seps, row.
    unfold range. rewrite range2_length, Z.sub_0_r. auto. }
  rewrite Hrow. reflexivity.
Qed.

(** The outer loop reads the blocks of the planes one after the other. *)
Lemma plane_loop_reads (xs : list Z) (it it' : list string)
    (self self' : AircraftLandingProblem N) :
  for_each (plane_body parse_int parse_float) xs (it, self)
  = Ok (Next (it', self')) ->
  exists body es ts ls ecs tcs rows,
    it = body ++ it' /\
    planes_encoded parse_int parse_float (Z.to_nat (nb_planes self))
      body es ts ls ecs tcs rows /\
    List.length es = List.length xs /\
    self' = with_planes self es ts ls ecs tcs rows.
Proof.
  revert it self. induction xs as [|x xs IH]; intros it self; cbn [for_each].
  - intros [= -> ->]. exists [], [], [], [], [], [], [].
    split; [reflexivity|]. split; [constructor|]. split; [reflexivity|].
    destruct self'. unfold with_planes. cbn. now rewrite !app_nil_r.
  - destruct (plane_body parse_int parse_float x (it, self))
      as [[[it1 self1]|[]]|ex] eqn:E; [|discriminate].
    apply plane_body_reads in E.
    destruct E as (block & e & t & l & ec & tc & row & -> & Hb & Hlen & ->).
    intros Hloop. apply IH in Hloop. cbn [with_planes nb_planes] in Hloop.
    destruct Hloop
      as (body & es & ts & ls & ecs & tcs & rows & -> & Hbody & Hl & ->).
    exists (block ++ body), (e :: es), (t :: ts), (l :: ls), (ec :: ecs),
      (tc :: tcs), (row :: rows).
    split; [now rewrite app_assoc|].
    split; [now constructor|]. split; [cbn; lia|].
    unfold with_planes. cbn. now rewrite <- !app_assoc.
Qed.

Lemma plane_loop_built (k : nat) (body it' : list string)
    (es ts ls : list Z) (ecs tcs : list (num N)) (rows : list (list Z)) :
  planes_encoded parse_int parse_float k body es ts ls ecs tcs rows ->
  forall (xs : list Z) (self : AircraftLandingProblem N),
    Z.to_nat (nb_planes self) = k ->
    List.length es = List.length xs ->
    for_each (plane_body parse_int parse_float) xs (body ++ it', self)
    = Ok (Next (it', with_planes self es ts ls ecs tcs rows)).
Proof.
  induction 1 as [|block body e es t ts l ls ec ecs tc tcs row rows
                   Hb Hrow Hrest IH]; intros xs self Hk Hlen.
  - destruct xs; [|discriminate]. cbn.
    destruct self. unfold with_planes. cbn. now rewrite !app_nil_r.
  - destruct xs as [|x xs]; [discriminate|]. cbn [for_each].
    rewrite <- app_assoc.
    rewrite (plane_body_built x block (body ++ it') self e t l ec tc row Hb)
      by congruence.
    rewrite IH by (cbn in *; congruence || lia).
    unfold with_planes. cbn. now rewrite <- !app_assoc.
Qed.

(** The six arrays of encoded planes have one entry per plane, and every
    row has [k] entries. *)
Lemma planes_encoded_lengths (k : nat) (body : list string)
    (es ts ls : list Z) (ecs tcs : list (num N)) (rows : list (list Z)) :
  planes_encoded parse_int parse_float k body es ts ls ecs tcs rows ->
  List.length ts = List.length es /\ List.length ls = List.length es /\
  List.length ecs = List.length es /\ List.length tcs = List.length es /\
  List.length rows = List.length es /\
  Forall (fun row => List.length row = k) rows.
Proof.
  induction 1 as [|block body e es t ts l ls ec ecs tc tcs row rows
                   Hb Hrow Hrest IH]; cbn.
  - repeat split; constructor.
  - destruct IH as (-> & -> & -> & -> & -> & Hall).
    repeat split; now constructor.
Qed.

(** The loader returns an instance exactly when the stream encodes it. *)
Lemma load_tokens_encodes (tokens : list string)
    (self : AircraftLandingProblem N) :
  _load_instance_from_file parse_int parse_float tokens = Ok self <->
  encodes parse_int parse_float tokens self.
Proof.
  unfold _load_instance_from_file, load_tokens, encodes, int. split.
  - destruct tokens as [|tok it]; [discriminate|]. cbn [next bind].
    destruct (parse_int tok) as [n|] eqn:En; cbn [bind]; [|discriminate].
    destruct it as [|freeze it]; [discriminate|]. cbn [next bind].
    match goal with
    | |- context [for_each ?b ?xs (it, ?s)] =>
        destruct (for_each b xs (it, s)) as [[[it1 self1]|[]]|ex] eqn:E;
        cbn [bind]; [|discriminate]
    end.
    intros [= <-]. apply plane_loop_reads in E. cbn [nb_planes] in E.
    destruct E as (body & es & ts & ls & ecs & tcs & rows & -> & Hb & Hl & ->).
    exists tok, freeze, body, it1. cbn.
    unfold range in Hl. rewrite range2_length, Z.sub_0_r in Hl. auto.
  - intros (tok & freeze & body & surplus & -> & En & Hlen & Hb).
    cbn [next bind]. rewrite En. cbn [bind next].
    match goal with
    | |- context [for_each ?b ?xs (_, ?s)] =>
        rewrite (plane_loop_built _ body surplus _ _ _ _ _ _ Hb xs s)
    end.
    + cbn [bind]. destruct self. reflexivity.
    + reflexivity.
    + unfold range. rewrite range2_length, Z.sub_0_r. exact Hlen.
Qed.
End LoaderEncoding.

(** X11.  Construction from a file, whatever else is passed to the constructor,
    returns an instance exactly when the token stream encodes it: the first
    token reads as its number of planes, and after the freeze time come the
    blocks of that many planes, each giving in turn an appearance time that
    is not read, the earliest, target and latest time, the earliness and
    tardiness rate and a row of that many separation times; the arrays of
    the instance hold the values in the order of the blocks. *)
Theorem init_from_file_iff_encodes {N : Numeric}
    (parse_int : string -> option Z) (parse_float : string -> option (num N))
    (tokens : list string)
    (nb : option Z) (earliest target latest : option (list Z))
    (earliness tardiness : option (list (num N)))
    (separation : option (list (list Z)))
    (self : AircraftLandingProblem N) :
  __init__ parse_int parse_float (Some tokens) nb earliest target latest
    earliness tardiness separation = Ok self <->
  encodes parse_int parse_float tokens self.
Proof. unfold __init__. apply load_tokens_encodes. Qed.

(** X12.  An instance loaded from a file has the shape of the data model: each of
    the five per-plane arrays and the separation matrix has exactly
    [nb_planes] entries (none when the number is negative), every row of the
    matrix has as many, and so the instance is well formed. *)
Theorem loaded_instance_shape {N : Numeric}
    (parse_int : string -> option Z) (parse_float : string -> option (num N))
    (tokens : list string) (self : AircraftLandingProblem N) :
  _load_instance_from_file parse_int parse_float tokens = Ok self ->
  let k := Z.to_nat (nb_planes self) in
  List.length (earliest_time self) = k /\
  List.length (target_time self) = k /\
  List.length (latest_time self) = k /\
  List.length (earliness_cost self) = k /\
  List.length (tardiness_cost self) = k /\
  List.length (separation_time self) = k /\
  Forall (fun row => List.length row = k) (separation_time self) /\
  well_formed self.
Proof.
  intros Hload. apply load_tokens_encodes in Hload.
  destruct Hload as (tok & freeze & body & surplus & _ & _ & Hlen & Hb).
  destruct (planes_encoded_lengths parse_int parse_float _ _ _ _ _ _ _ _ Hb)
    as (Ht & Hl & Hec & Htc & Hs & Hrows).
  cbn zeta. rewrite Ht, Hl, Hec, Htc, Hs, Hlen.
  repeat split; try reflexivity; try exact Hrows;
    unfold covers, len; try lia.
  intros i Hi. rewrite Forall_forall in Hrows.
  rewrite (Hrows (nth (Z.to_nat i) (separation_time self) [])); [lia|].
  apply nth_In. lia.
Qed.

Lemma loaded_instance_shape_witness :
  let k := Z.to_nat (nb_planes one_plane) in
  List.length (earliest_time one_plane) = k /\
  List.length (target_time one_plane) = k /\
  List.length (latest_time one_plane) = k /\
  List.length (earliness_cost one_plane) = k /\
  List.length (tardiness_cost one_plane) = k /\
  List.length (separation_time one_plane) = k /\
  Forall (fun row => List.length row = k) (separation_time one_plane) /\
  well_formed one_plane.
Proof.
  apply (loaded_instance_shape dec_int dec_float one_plane_tokens one_plane).
  reflexivity.
Defined.

(** X13.  From file to schedule to cost: on an instance loaded from a file the
    constructor returns a candidate and does not raise, and the evaluator
    raises nothing but [OverflowError], whatever the candidate. *)
Theorem loaded_instance_use {N : Numeric}
    (parse_int : string -> option Z) (parse_float : string -> option (num N))
    (tokens : list string) (self : AircraftLandingProblem N) :
  _load_instance_from_file parse_int parse_float tokens = Ok self ->
  (forall (R : RandomSource) (g : rng R),
     exists solution g', random_solution self R g = Ok (solution, g')) /\
  (forall solution e,
     evaluate_solution self solution = Raise e -> e = OverflowError).
Proof.
  intros Hload. apply load_tokens_encodes in Hload.
  destruct Hload as (tok & freeze & body & surplus & _ & _ & Hlen & Hb).
  destruct (planes_encoded_lengths parse_int parse_float _ _ _ _ _ _ _ _ Hb)
    as (Ht & Hl & Hec & Htc & Hs & Hrows).
  assert (Hwf : well_formed self).
  { repeat split; unfold covers, len; try lia.
    intros i Hi. rewrite Forall_forall in Hrows.
    rewrite (Hrows (nth (Z.to_nat i) (separation_time self) [])); [lia|].
    apply nth_In. lia. }
  split.
  - intros R g. destruct (Z_le_gt_dec 0 (nb_planes self)) as [Hn|Hn].
    + destruct (random_solution_spec self R g Hwf Hn)
        as (order & times & g' & -> & _). now eexists _, _.
    + unfold random_solution, range. rewrite range2_nil by lia.
      destruct (shuffled R [] g) as [order g1]. cbn. now eexists _, _.
  - intros solution e Hev.
    destruct (structural_guards self solution)
      as [Hpen|(order & times & -> & Hvalid)]; [congruence|].
    pose proof (evaluate_valid_outcome self order times Hwf Hvalid) as Hout.
    rewrite Hev in Hout. tauto.
Qed.

Lemma loaded_instance_use_witness :
  (forall (R : RandomSource) (g : rng R),
     exists solution g', random_solution one_plane R g = Ok (solution, g')) /\
  (forall solution e,
     evaluate_solution one_plane solution = Raise e -> e = OverflowError).
Proof.
  apply (loaded_instance_use dec_int dec_float one_plane_tokens one_plane).
  reflexivity.
Defined.
(** ** The sign of the returned cost *)

(** With rates that are zero or positive numbers, the cost expression does
    not give a NaN or a number below zero. *)
Lemma cost_term_not_below_zero (self : AircraftLandingProblem binary64)
    (plane lt : Z) :
  nonnegative_rate (earliness_of self plane) = true ->
  nonnegative_rate (tardiness_of self plane) = true ->
  not_below_zero (cost_term self plane lt) = true.
Proof.
  intros He Ht. unfold cost_term, plane_cost, int_mul.
  cbn [of_int mul binary64].
  destruct (Z.ltb_spec lt (target_of self plane)).
  - destruct (F64.of_int (target_of self plane - lt)) as [f|] eqn:Ef;
      [|reflexivity].
    apply mul_not_below_zero; [|exact He].
    apply (of_int_nonneg (target_of self plane - lt)); [lia|exact Ef].
  - destruct (F64.of_int (lt - target_of self plane)) as [f|] eqn:Ef;
      [|reflexivity].
    apply mul_not_below_zero; [|exact Ht].
    apply (of_int_nonneg (lt - target_of self plane)); [lia|exact Ef].
Qed.

(** X5.  In binary64, on a well-formed instance whose rates are zeros or
    positive numbers, whatever the evaluator returns is [0.0], a positive
    number (the sentinel is one) or the positive infinity: it is not NaN,
    not negative and not [-0.0]. *)
Theorem evaluate_solution_not_negative
    (self : AircraftLandingProblem binary64) (solution : Solution)
    (v : F64.float) :
  well_formed self ->
  (forall plane, 0 <= plane < nb_planes self ->
     nonnegative_rate (earliness_of self plane) = true /\
     nonnegative_rate (tardiness_of self plane) = true) ->
  evaluate_solution self solution = Ok v ->
  not_negative v = true.
Proof.
  intros Hwf Hrates Hev.
  destruct (structural_guards self solution)
    as [Hpen|(order & times & -> & Hvalid)].
  { rewrite Hpen in Hev. injection Hev as <-. reflexivity. }
  pose proof (evaluate_valid_outcome self order times Hwf Hvalid) as Hout.
  rewrite Hev in Hout. destruct Hout as [(-> & _)|(_ & _ & ->)];
    [reflexivity|].
  unfold accumulated_cost.
  apply (fold_left_invariant (fun a => not_negative a = true));
    [reflexivity|].
  intros p a Hp Ha. apply range_In in Hp.
  apply add_not_negative; [exact Ha|].
  destruct (Hrates (at_ order p)
              (permutation_valid_plane _ _ _ _ Hvalid Hp)) as (He & Ht).
  now apply cost_term_not_below_zero.
Qed.

Lemma evaluate_solution_not_negative_witness :
  not_negative (float_of 10) = true.
Proof.
  apply (evaluate_solution_not_negative two_planes
           (candidate [0; 1] [10; 35]) (float_of 10)).
  - exact two_planes_well_formed.
  - intros plane Hplane. cbn in Hplane.
    assert (Hc : plane = 0 \/ plane = 1) by lia.
    destruct Hc; subst plane; split; reflexivity.
  - vm_compute. reflexivity.
Defined.

(** A rate that is negative is outside this: the cost can then be
    negative. *)
Example negative_rate_negative_cost :
  evaluate_solution
    (instance64 1 [0] [10] [20] [float_of 2] [float_of (-3)] [[0]])
    (candidate [0] [15])
  = Ok (float_of (-15)).
Proof. vm_compute. reflexivity. Qed.

(** A rate of [-0.0] is a zero: the cost of five units of delay is [-0.0],
    and added to [0.0] it gives [0.0]. *)
Example negative_zero_rate_cost :
  evaluate_solution
    (instance64 1 [0] [10] [20] [float_of 2] [S754_zero true] [[0]])
    (candidate [0] [15])
  = Ok F64.zero.
Proof. reflexivity. Qed.

(** ** Moving the origin of time *)

Lemma getitem_map {A B : Type} (f : A -> B) (l : list A) (i : Z) :
  getitem (map f l) i =
  match getitem l i with
  | Ok a => Ok (f a)
  | Raise e => Raise e
  end.
Proof.
  unfold getitem, len. rewrite length_map, nth_error_map.
  destruct (_ && _); [|reflexivity].
  now destruct (nth_error l _).
Qed.

Lemma for_each_ext {X S R : Type} (body body' : X -> S -> result (flow S R))
    (xs : list X) (s : S) :
  (forall x s, In x xs -> body x s = body' x s) ->
  for_each body xs s = for_each body' xs s.
Proof.
  revert s. induction xs as [|x xs IH]; intros s H; cbn; [reflexivity|].
  rewrite H by apply in_eq.
  destruct (body' x s) as [[s'|r]|e]; try reflexivity.
  apply IH. intros y t Hy. apply H. now right.
Qed.

Lemma cost_body_shifted {N : Numeric} (c : Z)
    (self : AircraftLandingProblem N) (order times : list Z) (p : Z)
    (total : num N) :
  cost_body (shifted c self) order (map (Z.add c) times) p total
  = cost_body self order times p total.
Proof.
  unfold cost_body, shifted.
  cbn [earliest_time target_time latest_time earliness_cost tardiness_cost].
  destruct (getitem order p) as [plane|e]; [cbn [bind]|reflexivity].
  rewrite getitem_map.
  destruct (getitem times p) as [lt|e]; [cbn [bind]|reflexivity].
  rewrite getitem_map.
  destruct (getitem (earliest_time self) plane) as [e|ex];
    [cbn [bind]|reflexivity].
  replace (c + lt <? c + e) with (lt <? e)
    by (destruct (Z.ltb_spec lt e), (Z.ltb_spec (c + lt) (c + e)); lia).
  destruct (lt <? e); cbn [bind].
  - reflexivity.
  - rewrite getitem_map.
    destruct (getitem (latest_time self) plane) as [l|ex];
      [cbn [bind]|reflexivity].
    replace (c + lt >? c + l) with (lt >? l)
      by (destruct (Z.gtb_spec lt l), (Z.gtb_spec (c + lt) (c + l)); lia).
    destruct (lt >? l); [reflexivity|].
    rewrite getitem_map.
    destruct (getitem (target_time self) plane) as [t|ex];
      [cbn [bind]|reflexivity].
    replace (c + lt <? c + t) with (lt <? t)
      by (destruct (Z.ltb_spec lt t), (Z.ltb_spec (c + lt) (c + t)); lia).
    replace (c + t - (c + lt)) with (t - lt) by lia.
    replace (c + lt - (c + t)) with (lt - t) by lia.
    reflexivity.
Qed.

Lemma separation_body_shifted {N : Numeric} (c : Z)
    (self : AircraftLandingProblem N) (order times : list Z) (p : Z)
    (u : unit) :
  separation_body (shifted c self) order (map (Z.add c) times) p u
  = separation_body self order times p u.
Proof.
  unfold separation_body, shifted. cbn [separation_time].
  destruct (getitem order (p - 1)) as [prev|e]; [cbn [bind]|reflexivity].
  destruct (getitem order p) as [cur|e]; [cbn [bind]|reflexivity].
  destruct (getitem (separation_time self) prev) as [row|e];
    [cbn [bind]|reflexivity].
  destruct (getitem row cur) as [s|e]; [cbn [bind]|reflexivity].
  rewrite !getitem_map.
  destruct (getitem times p) as [tp|e]; [cbn [bind]|reflexivity].
  destruct (getitem times (p - 1)) as [tq|e]; [cbn [bind]|reflexivity].
  replace (c + tp <? c + tq + s) with (tp <? tq + s)
    by (destruct (Z.ltb_spec tp (tq + s)),
                 (Z.ltb_spec (c + tp) (c + tq + s)); lia).
  reflexivity.
Qed.

(** X6.  The origin of time does not matter: moving every earliest, target and
    latest time of the instance and every landing time of the candidate by
    the same amount leaves the outcome of the evaluation as it was, the cost
    and the exception alike, on every instance and for every candidate. *)
Theorem evaluate_solution_shift
    {N : Numeric} (c : Z) (self : AircraftLandingProblem N)
    (solution : Solution) :
  evaluate_solution (shifted c self) (shifted_candidate c solution)
  = evaluate_solution self solution.
Proof.
  unfold evaluate_solution, shifted_candidate.
  cbn [landing_order landing_times].
  destruct (landing_order solution) as [order|]; [|reflexivity].
  destruct (landing_times solution) as [times|]; [|reflexivity].
  cbn [option_map]. change (nb_planes (shifted c self)) with (nb_planes self).
  replace (len (map (Z.add c) times)) with (len times)
    by (unfold len; now rewrite length_map).
  destruct (_ || _); [reflexivity|].
  destruct (negb _); [reflexivity|].
  rewrite (for_each_ext
             (cost_body (shifted c self) order (map (Z.add c) times))
             (cost_body self order times))
    by (intros; apply cost_body_shifted).
  rewrite (for_each_ext
             (separation_body (shifted c self) order (map (Z.add c) times))
             (separation_body self order times))
    by (intros; apply separation_body_shifted).
  reflexivity.
Qed.

(** ** Windows that keep the evaluation in binary64 *)

(** X4.  In binary64, on a well-formed instance in which every window stays
    within [2^1024 - 2^970] of the target of its plane, the evaluator returns
    a cost for every candidate: it raises nothing. *)
Theorem evaluate_solution_total_binary64
    (self : AircraftLandingProblem binary64) (solution : Solution) :
  well_formed self ->
  (forall plane, 0 <= plane < nb_planes self ->
     target_of self plane - (2 ^ 1024 - 2 ^ 970) < earliest_of self plane /\
     latest_of self plane < target_of self plane + (2 ^ 1024 - 2 ^ 970)) ->
  exists v, evaluate_solution self solution = Ok v.
Proof.
  intros Hwf Hnear.
  destruct (structural_guards self solution)
    as [Hpen|(order & times & -> & Hvalid)];
    [eexists; exact Hpen|].
  pose proof (evaluate_valid_outcome self order times Hwf Hvalid) as Hout.
  destruct (evaluate_solution self (candidate order times)) as [v|e];
    [eexists; reflexivity|exfalso].
  destruct Hout as (_ & q & Hq & Hw & Hc). apply Hc.
  apply F64_converts_iff. unfold deviation.
  pose proof (Hnear _ (permutation_valid_plane _ _ _ _ Hvalid Hq)) as Hb.
  unfold in_window in Hw. lia.
Qed.

Lemma evaluate_solution_total_binary64_witness :
  exists v, evaluate_solution one_plane (candidate [0] [15]) = Ok v.
Proof.
  apply (evaluate_solution_total_binary64 one_plane (candidate [0] [15])).
  - exact one_plane_well_formed.
  - intros plane Hplane. cbn in Hplane. assert (plane = 0) as -> by lia.
    assert (2 ^ 53 < 2 ^ 1024 - 2 ^ 970).
    { assert (2 ^ 1024 = 18014398509481984 * 2 ^ 970)
        by (change 18014398509481984 with (2 ^ 54);
            rewrite <- Z.pow_add_r; [reflexivity|lia|lia]).
      assert (2 ^ 53 <= 2 ^ 970) by (apply Z.pow_le_mono_r; lia). lia. }
    assert (2 ^ 53 = 9007199254740992) by reflexivity.
    unfold earliest_of, latest_of, target_of, at_. simpl nth. lia.
Defined.
(** ** The separations the evaluator reads *)

(** X14.  The evaluator reads the separation matrix only at the pairs of
    planes that land one right after the other: between two well-formed
    instances that differ in nothing but the separations of other pairs, a
    candidate has the same outcome.  The separation of two planes with a
    third landing between them is not checked. *)
Theorem evaluate_solution_consecutive_pairs
    {N : Numeric} (self : AircraftLandingProblem N) (rows : list (list Z))
    (order times : list Z) :
  well_formed self -> well_formed (with_separation rows self) ->
  (forall p, 1 <= p < nb_planes self ->
     separation_of (with_separation rows self)
       (at_ order (p - 1)) (at_ order p)
     = separation_of self (at_ order (p - 1)) (at_ order p)) ->
  evaluate_solution (with_separation rows self) (candidate order times)
  = evaluate_solution self (candidate order times).
Proof.
  intros Hwf Hwf' Hsame.
  assert (Hvalid_or :
            permutation_valid (nb_planes self) order times \/
            forall self' : AircraftLandingProblem N,
              nb_planes self' = nb_planes self ->
              evaluate_solution self' (candidate order times)
              = Ok (PENALTY N)).
  { destruct (Z.eqb_spec (len order) (nb_planes self)) as [Ho|Ho];
      [|right; intros self' Hn; unfold evaluate_solution;
        cbn [landing_order landing_times candidate]; rewrite Hn;
        destruct (Z.eqb_spec (len order) (nb_planes self));
        [contradiction|reflexivity]].
    destruct (Z.eqb_spec (len times) (nb_planes self)) as [Ht|Ht];
      [|right; intros self' Hn; unfold evaluate_solution;
        cbn [landing_order landing_times candidate]; rewrite Hn;
        destruct (Z.eqb_spec (len times) (nb_planes self));
        [contradiction|now rewrite orb_true_r]].
    destruct (list_eqb (sorted order) (range (nb_planes self))) eqn:E.
    - left. apply sorted_range_iff in E. repeat split; assumption.
    - right. intros self' Hn. unfold evaluate_solution.
      cbn [landing_order landing_times candidate]. rewrite Hn, E.
      now destruct (_ || _). }
  destruct Hvalid_or as [Hvalid|Hpen];
    [|now rewrite (Hpen self), (Hpen (with_separation rows self))].
  rewrite (evaluate_solution_valid self order times Hvalid).
  rewrite (evaluate_solution_valid (with_separation rows self) order times
             Hvalid).
  change (nb_planes (with_separation rows self)) with (nb_planes self).
  change (cost_body (with_separation rows self)) with (cost_body self).
  destruct (for_each (cost_body self order times) _ _) as [[total|v]|e];
    cbn [bind]; try reflexivity.
  rewrite (for_each_ext
             (separation_body (with_separation rows self) order times)
             (separation_body self order times)); [reflexivity|].
  intros p [] Hp. apply range2_In in Hp.
  rewrite (separation_body_spec self order times Hwf Hvalid) by lia.
  rewrite (separation_body_spec (with_separation rows self) order times
             Hwf' Hvalid) by (cbn; lia).
  now rewrite Hsame by lia.
Qed.

Lemma three_planes_well_formed : well_formed three_planes.
Proof. solve_well_formed. Qed.

Lemma evaluate_solution_consecutive_pairs_witness :
  evaluate_solution
    (with_separation [[0; 1; 0]; [1; 0; 1]; [0; 1; 0]] three_planes)
    (candidate [0; 1; 2] [0; 1; 2])
  = evaluate_solution three_planes (candidate [0; 1; 2] [0; 1; 2]).
Proof.
  apply (evaluate_solution_consecutive_pairs three_planes
           [[0; 1; 0]; [1; 0; 1]; [0; 1; 0]] [0; 1; 2] [0; 1; 2]).
  - exact three_planes_well_formed.
  - solve_well_formed.
  - intros p Hp. cbn in Hp. assert (Hc : p = 1 \/ p = 2) by lia.
    destruct Hc; subst p; reflexivity.
Defined.

(** Plane 2 lands two units after plane 0, against a separation of a
    hundred, with plane 1 between them: the schedule costs [0.0]. *)
Example distant_pair_unchecked :
  separation_of three_planes 0 2 = 100 /\
  evaluate_solution three_planes (candidate [0; 1; 2] [0; 1; 2])
  = Ok (zero binary64).
Proof. split; reflexivity. Qed.
(** ** Costs that are zero in binary64 *)

(** One shift to the exponent of the format keeps a mantissa positive when
    the number is not below the smallest subnormal. *)
Lemma shr_fexp_positive (m e : Z) :
  0 < m -> (e < -1074 -> 2 ^ (-1074 - e) <= m) ->
  0 < shr_m (fst (shr_fexp F64.prec F64.emax m e loc_Exact)) /\
  -1074 <= snd (shr_fexp F64.prec F64.emax m e loc_Exact) /\
  e <= snd (shr_fexp F64.prec F64.emax m e loc_Exact).
Proof.
  intros Hm Hlow. destruct m as [|m|m]; try lia.
  unfold shr_fexp, shr, fexp, emin, F64.prec, F64.emax.
  cbn [Zdigits2 shr_record_of_loc].
  pose proof (digits2_pos_lower m) as Hk.
  set (k := Zpos (digits2_pos m)) in *.
  assert (Hk1 : 1 <= k) by (subst k; lia).
  destruct (Z.max (k + e - 53) (3 - 1024 - 53) - e) as [|p|p] eqn:En;
    cbn [fst snd shr_m]; try lia.
  destruct (shr_iter_spec (Zpos m) p ltac:(lia)) as (-> & _).
  assert (Hp : 2 ^ Zpos p <= Zpos m).
  { destruct (Z.max_spec (k + e - 53) (3 - 1024 - 53)) as [(_ & Hx)|(_ & Hx)].
    - replace (Zpos p) with (-1074 - e) by lia. apply Hlow. lia.
    - assert (2 ^ Zpos p <= 2 ^ (k - 1)) by (apply Z.pow_le_mono_r; lia).
      lia. }
  split; [|lia].
  apply Z.div_str_pos. split; [apply Z.pow_pos_nonneg; lia|exact Hp].
Qed.

(** Rounding a positive number that is not below the smallest subnormal
    gives a positive number, of an exponent that is not smaller, or the
    positive infinity: it does not underflow to zero. *)
Lemma binary_round_aux_positive (m e : Z) :
  0 < m -> (e < -1074 -> 2 ^ (-1074 - e) <= m) ->
  binary_round_aux F64.prec F64.emax false m e loc_Exact
  = S754_infinity false \/
  exists m' e',
    binary_round_aux F64.prec F64.emax false m e loc_Exact
    = S754_finite false m' e' /\ -1074 <= e' /\ e <= e'.
Proof.
  intros Hm Hlow. unfold binary_round_aux.
  destruct (shr_fexp_positive m e Hm Hlow) as (H1 & H2 & H3).
  destruct (shr_fexp F64.prec F64.emax m e loc_Exact) as [mrs' e'].
  cbn [fst snd] in H1, H2, H3.
  destruct (round_nearest_even_bounds mrs') as ((Hr & _) & _).
  cbn zeta in Hr.
  set (m2 := round_nearest_even (shr_m mrs') (loc_of_shr_record mrs')) in *.
  destruct (shr_fexp_positive m2 e' ltac:(lia) ltac:(lia)) as (H4 & H5 & H6).
  destruct (shr_fexp F64.prec F64.emax m2 e' loc_Exact) as [mrs'' e''].
  cbn [fst snd] in H4, H5, H6.
  destruct (shr_m mrs'') as [|q|q]; try lia.
  destruct (e'' <=? F64.emax - F64.prec); [right|now left].
  exists q, e''. repeat split; lia.
Qed.

Lemma binary_round_positive (m : positive) (e : Z) :
  -1074 <= e ->
  binary_round F64.prec F64.emax false m e = S754_infinity false \/
  exists m' e',
    binary_round F64.prec F64.emax false m e = S754_finite false m' e' /\
    -1074 <= e'.
Proof.
  intros He. unfold binary_round, shl_align.
  set (fe := fexp F64.prec F64.emax (Zpos (digits2_pos m) + e)).
  assert (Hfe : -1074 <= fe)
    by (subst fe; unfold fexp, emin, F64.prec, F64.emax; lia).
  destruct (fe - e) as [|d|d] eqn:Ed.
  - destruct (binary_round_aux_positive (Zpos m) e ltac:(lia) ltac:(lia))
      as [->|(m' & e' & -> & Hb & _)]; [now left|right; now eexists _, _].
  - destruct (binary_round_aux_positive (Zpos m) e ltac:(lia) ltac:(lia))
      as [->|(m' & e' & -> & Hb & _)]; [now left|right; now eexists _, _].
  - destruct (binary_round_aux_positive (Zpos (Pos.iter xO m d)) fe
                ltac:(lia) ltac:(lia))
      as [->|(m' & e' & -> & Hb & _)]; [now left|right; now eexists _, _].
Qed.

(** A positive int converts to a float that is at least one. *)
Lemma of_int_positive (d : Z) (f : F64.float) :
  0 < d -> F64.of_int d = Some f ->
  exists m e, f = S754_finite false m e /\ (e < 0 -> 2 ^ (- e) <= Zpos m).
Proof.
  intros Hd. destruct d as [|d|d]; try lia.
  unfold F64.of_int. cbn [binary_normalize].
  assert (Hround :
            binary_round F64.prec F64.emax false d 0 = S754_infinity false \/
            exists m e,
              binary_round F64.prec F64.emax false d 0 = S754_finite false m e
              /\ (e < 0 -> 2 ^ (- e) <= Zpos m)).
  { unfold binary_round, shl_align.
    set (k := Zpos (digits2_pos d)).
    assert (Hk1 : 1 <= k) by (subst k; lia).
    set (fe := fexp F64.prec F64.emax (k + 0)).
    assert (Hfe : fe = Z.max (k - 53) (-1074))
      by (subst fe; unfold fexp, emin, F64.prec, F64.emax; lia).
    destruct (fe - 0) as [|s|s] eqn:Es.
    - destruct (binary_round_aux_positive (Zpos d) 0 ltac:(lia) ltac:(lia))
        as [->|(m & e & -> & _ & He)]; [now left|right].
      exists m, e. split; [reflexivity|lia].
    - destruct (binary_round_aux_positive (Zpos d) 0 ltac:(lia) ltac:(lia))
        as [->|(m & e & -> & _ & He)]; [now left|right].
      exists m, e. split; [reflexivity|lia].
    - right.
      assert (Hdig : Zpos (digits2_pos (Pos.iter xO d s)) = 53)
        by (rewrite digits2_pos_iter; fold k; lia).
      rewrite binary_round_aux_canonical by (try exact Hdig; lia).
      eexists _, _. split; [reflexivity|]. intros _.
      pose proof (digits2_pos_lower (Pos.iter xO d s)) as Hlow.
      rewrite Hdig in Hlow.
      assert (2 ^ (- fe) <= 2 ^ (53 - 1)) by (apply Z.pow_le_mono_r; lia).
      lia. }
  destruct Hround as [->|(m & e & -> & Hme)]; [discriminate|].
  intros [= <-]. now exists m, e.
Qed.

Lemma positive_rate_exponent (rate : F64.float) :
  positive_rate rate = true ->
  exists m e, rate = S754_finite false m e /\ -1074 <= e.
Proof.
  unfold positive_rate. destruct rate as [s|s| |[] m e];
    rewrite ?andb_false_r; try discriminate.
  intros H. apply andb_prop in H. destruct H as (H & _).
  cbn [valid_binary] in H. unfold bounded, canonical_mantissa in H.
  apply andb_prop in H. destruct H as (H & _). apply Z.eqb_eq in H.
  exists m, e. split; [reflexivity|].
  unfold fexp, emin, F64.prec, F64.emax in H. lia.
Qed.

(** A float that is at least one times a positive rate is above zero: the
    product does not underflow. *)
Lemma mul_above_zero (m : positive) (e : Z) (rate : F64.float) :
  (e < 0 -> 2 ^ (- e) <= Zpos m) ->
  positive_rate rate = true ->
  above_zero (F64.mul (S754_finite false m e) rate) = true.
Proof.
  intros Hme Hr.
  destruct (positive_rate_exponent rate Hr) as (mr & er & -> & Her).
  unfold F64.mul, SFmul. cbn [xorb].
  destruct (binary_round_aux_positive (Zpos (m * mr)) (e + er))
    as [->|(m' & e' & -> & He' & _)]; [lia| |reflexivity|].
  - intros Hlow.
    assert (2 ^ (-1074 - (e + er)) <= 2 ^ (- e))
      by (apply Z.pow_le_mono_r; lia).
    specialize (Hme ltac:(lia)). nia.
  - cbn [above_zero]. now apply Z.leb_le.
Qed.

Lemma mul_zero_rate (rate : F64.float) :
  positive_rate rate = true -> F64.mul (S754_zero false) rate = F64.zero.
Proof.
  intros Hr. destruct (positive_rate_exponent rate Hr) as (m & e & -> & _).
  reflexivity.
Qed.

(** Sums of floats that are [0.0] or above zero: such a sum is [0.0] only
    when both terms are. *)
Lemma add_above_zero (x y : F64.float) :
  x = F64.zero \/ above_zero x = true ->
  y = F64.zero \/ above_zero y = true ->
  (F64.add x y = F64.zero /\ x = F64.zero /\ y = F64.zero) \/
  above_zero (F64.add x y) = true.
Proof.
  intros [->|Hx] [->|Hy].
  - left. repeat split.
  - right. destruct y as [s|[]| |[] m e]; try discriminate; exact Hy.
  - right. destruct x as [s|[]| |[] m e]; try discriminate; exact Hx.
  - right.
    destruct x as [sx|[]| |[] mx ex]; try discriminate;
      destruct y as [sy|[]| |[] my ey]; try discriminate; try reflexivity.
    cbn [above_zero] in Hx, Hy. apply Z.leb_le in Hx, Hy.
    unfold F64.add, SFadd. cbn [cond_Zopp].
    match goal with
    | |- context [binary_normalize _ _ (Zpos ?a + Zpos ?b) ?e _] =>
        change (Zpos a + Zpos b) with (Zpos (a + b));
        cbn [binary_normalize];
        destruct (binary_round_positive (a + b) e ltac:(lia))
          as [->|(m' & e' & -> & He')]; [reflexivity|]
    end.
    cbn [above_zero]. now apply Z.leb_le.
Qed.

Lemma fold_add_zero {X : Type} (term : X -> F64.float) (xs : list X)
    (a : F64.float) :
  a = F64.zero \/ above_zero a = true ->
  (forall x, In x xs -> term x = F64.zero \/ above_zero (term x) = true) ->
  fold_left (fun total x => F64.add total (term x)) xs a = F64.zero ->
  a = F64.zero /\ forall x, In x xs -> term x = F64.zero.
Proof.
  revert a. induction xs as [|x xs IH]; intros a Ha Hterm; cbn [fold_left].
  - intros ->. split; [reflexivity|intros x []].
  - intros Hsum.
    destruct (add_above_zero a (term x) Ha (Hterm x (in_eq _ _)))
      as [(Hz & Ha0 & Hx0)|Hpos].
    + rewrite Hz in Hsum.
      destruct (IH F64.zero (or_introl eq_refl)
                  (fun y Hy => Hterm y (in_cons _ _ _ Hy)) Hsum) as (_ & Hall).
      split; [exact Ha0|]. intros y [<-|Hy]; [exact Hx0|now apply Hall].
    + destruct (IH _ (or_intror Hpos)
                  (fun y Hy => Hterm y (in_cons _ _ _ Hy)) Hsum) as (Hz & _).
      rewrite Hz in Hpos. discriminate.
Qed.

(** With positive rates the cost of a landing is [0.0] on target and above
    zero off target. *)
Lemma cost_term_above_zero (self : AircraftLandingProblem binary64)
    (plane lt : Z) :
  positive_rate (earliness_of self plane) = true ->
  positive_rate (tardiness_of self plane) = true ->
  converts (N := binary64) (Z.abs (lt - target_of self plane)) ->
  (lt = target_of self plane /\ cost_term self plane lt = F64.zero) \/
  (lt <> target_of self plane /\
   above_zero (cost_term self plane lt) = true).
Proof.
  intros He Ht Hc. unfold converts in Hc. cbn [of_int binary64] in Hc.
  unfold cost_term, plane_cost, int_mul. cbn [of_int mul binary64].
  destruct (Z.ltb_spec lt (target_of self plane)) as [Hlt|Hge].
  - right. split; [lia|].
    replace (Z.abs (lt - target_of self plane))
      with (target_of self plane - lt) in Hc by lia.
    destruct (F64.of_int (target_of self plane - lt)) as [f|] eqn:Ef;
      [|contradiction].
    destruct (of_int_positive (target_of self plane - lt) f ltac:(lia) Ef)
      as (m & e & -> & Hme).
    now apply mul_above_zero.
  - replace (Z.abs (lt - target_of self plane))
      with (lt - target_of self plane) in Hc by lia.
    destruct (F64.of_int (lt - target_of self plane)) as [f|] eqn:Ef;
      [|contradiction].
    destruct (Z.eq_dec lt (target_of self plane)) as [Heq|Hne].
    + left. split; [exact Heq|].
      rewrite Heq, Z.sub_diag in Ef. injection Ef as <-.
      now apply mul_zero_rate.
    + right. split; [exact Hne|].
      destruct (of_int_positive (lt - target_of self plane) f ltac:(lia) Ef)
        as (m & e & -> & Hme).
      now apply mul_above_zero.
Qed.

(** X15.  In binary64, on a well-formed instance whose rates are positive
    numbers, the evaluator returns [0.0] only for a candidate that passes
    every check and lands every plane exactly on its target: the cost of a
    landing off target does not underflow to zero, and no later addition
    cancels it. *)
Theorem evaluate_solution_zero_only_on_target
    (self : AircraftLandingProblem binary64) (solution : Solution) :
  well_formed self ->
  (forall plane, 0 <= plane < nb_planes self ->
     positive_rate (earliness_of self plane) = true /\
     positive_rate (tardiness_of self plane) = true) ->
  evaluate_solution self solution = Ok F64.zero ->
  exists order times,
    solution = candidate order times /\
    feasible self order times /\
    forall p, 0 <= p < nb_planes self -> on_target self order times p.
Proof.
  intros Hwf Hrates Hev.
  destruct (structural_guards self solution)
    as [Hpen|(order & times & -> & Hvalid)].
  { rewrite Hpen in Hev. discriminate. }
  exists order, times. split; [reflexivity|].
  pose proof (evaluate_valid_outcome self order times Hwf Hvalid) as Hout.
  rewrite Hev in Hout.
  destruct Hout as [(Hz & _)|(Hfeas & Hconv & Hsum)]; [discriminate|].
  split; [exact Hfeas|].
  unfold accumulated_cost in Hsum. symmetry in Hsum.
  apply (fold_add_zero
           (fun p => cost_term self (at_ order p) (at_ times p))) in Hsum.
  - destruct Hsum as (_ & Hall). intros p Hp.
    specialize (Hall p (proj2 (range_In _ _) Hp)). cbn beta in Hall.
    destruct (Hrates (at_ order p)
                (permutation_valid_plane _ _ _ _ Hvalid Hp)) as (He & Ht).
    destruct (cost_term_above_zero self _ _ He Ht (Hconv p Hp))
      as [(Hon & _)|(_ & Hpos)]; [exact Hon|].
    rewrite Hall in Hpos. discriminate.
  - now left.
  - intros p Hp. apply range_In in Hp.
    destruct (Hrates (at_ order p)
                (permutation_valid_plane _ _ _ _ Hvalid Hp)) as (He & Ht).
    destruct (cost_term_above_zero self _ _ He Ht (Hconv p Hp))
      as [(_ & Hz)|(_ & Hpos)]; [now left|now right].
Qed.

Lemma evaluate_solution_zero_only_on_target_witness :
  exists order times,
    candidate [0; 1] [10; 30] = candidate order times /\
    feasible two_planes order times /\
    forall p, 0 <= p < nb_planes two_planes ->
              on_target two_planes order times p.
Proof.
  apply (evaluate_solution_zero_only_on_target two_planes
           (candidate [0; 1] [10; 30])).
  - exact two_planes_well_formed.
  - intros plane Hplane. cbn in Hplane.
    assert (Hc : plane = 0 \/ plane = 1) by lia.
    destruct Hc; subst plane; split; reflexivity.
  - reflexivity.
Defined.
